(** * PyFDD: the parameter-driven fit engine and its multi-site orchestrator

    A shallow embedding of [PyFDD/fits.py] (class [fits]: parameter
    registry, chi-square and log-likelihood evaluators, the two
    minimization drivers and the Hessian error estimator) and of
    [pyfdd/core/fitmanager.py] (class [FitManager]: initial values,
    range validation, the sweep over site combinations and the best/last
    bookkeeping).

    Numbers are Python/numpy floats in the source.  The development is
    parametric in the arithmetic (class [Numeric]): every theorem holds for
    any carrier and any interpretation of the operations, IEEE doubles
    included.  The collaborators that are not part of the two files (the
    pattern generator, scipy's minimizer, numdifftools' Hessian, numpy's
    matrix inverse, the [Fit] class used by FitManager) are interfaces too. *)

From Stdlib Require Import ZArith QArith Qabs List Bool Lia Lqa.
From stdpp Require Import base option list strings gmap fin_maps pretty.

Set Default Goal Selector "!".

(** ** Exceptions and results *)

Inductive exn : Type :=
  | IndexError | ValueError | TypeError | AttributeError | KeyError
  | LinAlgError | AssertionError | FitError.

Inductive result (A : Type) : Type :=
  | Ok (a : A)
  | Raise (e : exn).
Arguments Ok {A} a.
Arguments Raise {A} e.

#[export] Instance result_bind : MBind result :=
  fun A B k r => match r with Ok a => k a | Raise e => Raise e end.
#[export] Instance result_ret : MRet result := fun A a => Ok a.

(** [seq[i]] on a Python sequence: IndexError out of range. *)
Definition index {A : Type} (l : list A) (i : nat) : result A :=
  match l !! i with
  | Some a => Ok a
  | None => Raise IndexError
  end.

(** Attribute or item access on an object that may still be [None]. *)
Definition require {A : Type} (e : exn) (o : option A) : result A :=
  match o with
  | Some a => Ok a
  | None => Raise e
  end.

(** ** Arithmetic interface *)

Class Numeric : Type := {
  num : Type;
  n0 : num;                         (* 0 *)
  n1 : num;                         (* 1 *)
  n_half : num;                     (* 0.5 *)
  n_01 : num;                       (* 0.1 *)
  n_015 : num;                      (* 0.15 *)
  n_1e5 : num;                      (* 1e-5 *)
  n_of_nat : nat -> num;            (* an int used as a number *)
  nadd : num -> num -> num;
  nsub : num -> num -> num;
  nmul : num -> num -> num;
  ndiv : num -> num -> num;
  nneg : num -> num;
  nabs : num -> num;
  nsquare : num -> num;             (* x ** 2 *)
  nlog : num -> num;
  nsqrt : num -> num;
  nlt : num -> num -> bool;         (* x < y *)
  nle : num -> num -> bool;         (* x <= y *)
  n_isfinite : num -> bool;         (* np.isfinite(x) *)
  n_tiny : num                      (* np.finfo(float).tiny *)
}.

(** ** numpy arrays *)

Section Arrays.
Context `{Numeric}.

(** [a.sum()] of a one-dimensional array; the empty sum is 0. *)
Definition np_sum (a : list num) : num := foldl nadd n0 a.

(** [np.ones(n)]. *)
Definition np_ones (n : nat) : list num := replicate n n1.

(** A sequence of numbers as [np.array] sees it: floats make a float array
    (and so does the empty sequence); a sequence that is not empty and
    holds ints only makes an integer array. *)
Inductive sequence : Type :=
  | Floats (x : list num)
  | Ints (n : Z) (ns : list Z).

(** In-place [a op= b] on one-dimensional float arrays: [b] must have the
    shape of [a] or broadcast to it (length one); otherwise numpy raises. *)
Definition np_inplace (op : num -> num -> num) (a b : list num)
  : result (list num) :=
  if decide (length b = length a) then Ok (zip_with op a b)
  else match b with
       | [s] => Ok (map (fun x => op x s) a)
       | _ => Raise ValueError
       end.

(** [len(x)]. *)
Definition sequence_length (x : sequence) : nat :=
  match x with
  | Floats a => length a
  | Ints _ ns => S (length ns)
  end.

(** In-place [x /= b] on [np.array(x)].  The quotient is a float array:
    numpy refuses to cast it into an integer array (UFuncTypeError, a
    TypeError), before it looks at the shapes. *)
Definition np_idiv (x : sequence) (b : list num) : result (list num) :=
  match x with
  | Floats a => np_inplace ndiv a b
  | Ints _ _ => Raise TypeError
  end.

(** A masked array (numpy.ma), flattened: [None] is a masked cell. *)
Definition pattern : Type := list (option num).

Definition ma_map (f : num -> num) (a : pattern) : pattern :=
  map (option_map f) a.

(** Element-wise [a - b] and [a * b] (numpy.ma's masked binary
    operations): the result is masked wherever an operand is. *)
Definition ma_zip (f : num -> num -> num) (a b : pattern) : pattern :=
  zip_with (fun x y =>
              match x, y with
              | Some u, Some v => Some (f u v)
              | _, _ => None
              end) a b.

(** [a ** 2] ([numpy.ma.power]): the result is masked where [a] is, and
    where the square is not finite. *)
Definition ma_square (a : pattern) : pattern :=
  map (fun c =>
         match c with
         | Some v => if n_isfinite (nsquare v) then Some (nsquare v) else None
         | None => None
         end) a.

(** The domain of numpy.ma's division ([_DomainSafeDivide]): the cells
    where [abs(a) * tiny >= abs(b)], a zero divisor among them. *)
Definition ma_divide_domain (u v : num) : bool :=
  nle (nabs v) (nmul (nabs u) n_tiny).

(** [a / b] (numpy.ma's domained [true_divide]): the result is masked
    where an operand is, where the quotient is not finite, and on the
    domain above. *)
Definition ma_divide (a b : pattern) : pattern :=
  zip_with (fun x y =>
              match x, y with
              | Some u, Some v =>
                  if negb (n_isfinite (ndiv u v)) || ma_divide_domain u v
                  then None else Some (ndiv u v)
              | _, _ => None
              end) a b.

(** [np.log(a)] of a masked array: the result is masked where [a] is and
    where [a <= 0] (the domain numpy.ma gives to the logarithm). *)
Definition ma_log (a : pattern) : pattern :=
  map (fun c =>
         match c with
         | Some v => if nle v n0 then None else Some (nlog v)
         | None => None
         end) a.

(** [a.compressed()]: the cells that are not masked. *)
Definition ma_compressed (a : pattern) : list num := omap id a.

(** [np.sum] of a masked array: masked cells do not contribute; when
    every cell is masked (or there is none) the result is the constant
    [numpy.ma.masked], here [None]. *)
Definition ma_sum (a : pattern) : option num :=
  match ma_compressed a with
  | [] => None
  | vs => Some (np_sum vs)
  end.

(** [a.mask]. *)
Definition ma_mask (a : pattern) : list bool :=
  map (fun c => match c with Some _ => false | None => true end) a.

(** [np.diag] of a two-dimensional array. *)
Fixpoint np_diag_from (i : nat) (m : list (list num)) : list num :=
  match m with
  | [] => []
  | row :: rows =>
      match row !! i with
      | Some a => a :: np_diag_from (S i) rows
      | None => []
      end
  end.
Definition np_diag (m : list (list num)) : list num := np_diag_from 0 m.

(** [c * m] for a scalar and a matrix. *)
Definition np_scale_matrix (c : num) (m : list (list num))
  : list (list num) :=
  map (map (nmul c)) m.
End Arrays.

(** A list of floats is read as the float sequence it is. *)
#[warning="-uniform-inheritance"]
Coercion Floats : list >-> sequence.

(** ** External collaborators (spec section 6)

    A numeric routine of a library (scipy's L-BFGS-B, numdifftools'
    Hessian) terminates after finitely many evaluations of the function it
    is given, each point chosen from the values seen so far: a finite
    decision tree.  What the function returns, and the routine sees, is a
    float or the constant [numpy.ma.masked] ([None]). *)

Inductive pattern_type : Type := ideal | montecarlo | poisson.

Inductive search `{Numeric} (R : Type) : Type :=
  | Done (r : R)
  | Ask (x : list num) (k : option num -> search R).
Arguments Done {_ R} r.
Arguments Ask {_ R} x k.

(** scipy's [OptimizeResult], the entries the two files read. *)
Record OptimizeResult `{Numeric} : Type := mk_OptimizeResult {
  res_x : list num;                 (* res['x'] *)
  res_fun : num;                    (* res['fun'] *)
  res_success : bool;               (* res['success'] *)
  res_jac : list num                (* res['jac'] *)
}.
Arguments mk_OptimizeResult {_} res_x res_fun res_success res_jac.

Definition matrix `{Numeric} : Type := list (list num).
Definition bound `{Numeric} : Type := (option num * option num)%type.

Class Collaborators `{Numeric} : Type := {
  lib2dl : Type;
  mesh : Type;
  fit_options : Type;
  generator : Type;
  (* PatternCreator(lib, XXmesh, YYmesh, simulations, mask=, sub_pixels=) *)
  PatternCreator : lib2dl -> option mesh -> option mesh ->
                   list (option num) -> list bool -> option num -> generator;
  (* gen.make_pattern(dx, dy, phi, fractions, total_events, sigma=, type=) *)
  make_pattern : generator -> num -> num -> num -> list num -> num -> num ->
                 pattern_type -> pattern;
  (* op.minimize(f, p0, method='L-BFGS-B', bounds=, options=) *)
  op_minimize : list num -> list bound -> fit_options -> search OptimizeResult;
  (* nd.Hessian(f)(x) *)
  nd_Hessian : list num -> search matrix;
  (* np.linalg.inv: LinAlgError on a singular matrix *)
  np_linalg_inv : matrix -> option matrix
}.

(** Running a library routine against a function that updates the object
    it is bound to and may raise. *)
Fixpoint run_search `{Numeric} {S R : Type}
    (f : S -> list num -> result (S * option num)) (s : S) (t : search R)
  : result (S * R) :=
  match t with
  | Done r => Ok (s, r)
  | Ask x k =>
      match f s x with
      | Ok (s', y) => run_search f s' (k y)
      | Raise e => Raise e
      end
  end.

(** * PyFDD/fits.py *)

Module Fits.
Section Model.
Context `{Collaborators}.

(** Keys of [parameters_dict]. *)
Inductive key : Type :=
  | pattern_1 | pattern_2 | pattern_3 | sub_pixels
  | dx | dy | phi | total_cts | sigma | f_p1 | f_p2 | f_p3.

#[export] Instance key_eq_dec : EqDecision key.
Proof. solve_decision. Defined.

(** One entry of [parameters_dict] ([parameter_template]).  The scale of a
    parameter is never zero (spec section 3). *)
Record parameter : Type := mk_parameter {
  p0 : num;
  value : option num;
  use : bool;
  variance : option num;
  scale : num;
  bounds : bound
}.

Record fits : Type := mk_fits {
  lib : lib2dl;
  XXmesh : option mesh;
  YYmesh : option mesh;
  data_pattern : option pattern;
  sim_pattern : option pattern;
  results : option OptimizeResult;
  self_variance : option (list num);
  pattern_generator : option generator;
  parameters_dict : key -> parameter;
  _ml_fit_options : fit_options;
  _chi2_fit_options : fit_options
}.

Definition _parameters_order : list key :=
  [dx; dy; phi; total_cts; sigma; f_p1; f_p2; f_p3].
Definition _pattern_keys : list key := [pattern_1; pattern_2; pattern_3].

(** [self.parameters_dict[k] = p]. *)
Definition dict_set (d : key -> parameter) (k : key) (p : parameter)
  : key -> parameter :=
  fun k' => if decide (k' = k) then p else d k'.

Definition set_value (d : key -> parameter) (k : key) (v : option num)
  : key -> parameter :=
  dict_set d k (mk_parameter (p0 (d k)) v (use (d k)) (variance (d k))
                             (scale (d k)) (bounds (d k))).
Definition set_use (d : key -> parameter) (k : key) (b : bool)
  : key -> parameter :=
  dict_set d k (mk_parameter (p0 (d k)) (value (d k)) b (variance (d k))
                             (scale (d k)) (bounds (d k))).
Definition set_variance (d : key -> parameter) (k : key) (v : option num)
  : key -> parameter :=
  dict_set d k (mk_parameter (p0 (d k)) (value (d k)) (use (d k)) v
                             (scale (d k)) (bounds (d k))).

Definition with_parameters_dict (self : fits) (d : key -> parameter) : fits :=
  mk_fits (lib self) (XXmesh self) (YYmesh self) (data_pattern self)
          (sim_pattern self) (results self) (self_variance self)
          (pattern_generator self) d
          (_ml_fit_options self) (_chi2_fit_options self).
Definition with_sim_pattern (self : fits) (p : pattern) : fits :=
  mk_fits (lib self) (XXmesh self) (YYmesh self) (data_pattern self)
          (Some p) (results self) (self_variance self)
          (pattern_generator self) (parameters_dict self)
          (_ml_fit_options self) (_chi2_fit_options self).
Definition with_pattern_generator (self : fits) (g : generator) : fits :=
  mk_fits (lib self) (XXmesh self) (YYmesh self) (data_pattern self)
          (sim_pattern self) (results self) (self_variance self)
          (Some g) (parameters_dict self)
          (_ml_fit_options self) (_chi2_fit_options self).
Definition with_results (self : fits) (r : OptimizeResult) : fits :=
  mk_fits (lib self) (XXmesh self) (YYmesh self) (data_pattern self)
          (sim_pattern self) (Some r) (self_variance self)
          (pattern_generator self) (parameters_dict self)
          (_ml_fit_options self) (_chi2_fit_options self).
Definition with_variance (self : fits) (v : list num) : fits :=
  mk_fits (lib self) (XXmesh self) (YYmesh self) (data_pattern self)
          (sim_pattern self) (results self) (Some v)
          (pattern_generator self) (parameters_dict self)
          (_ml_fit_options self) (_chi2_fit_options self).



Definition _get_p0_scale (self : fits) : list num :=
  map (fun k => scale (parameters_dict self k))
      (filter (fun k => use (parameters_dict self k) = true)
              _parameters_order).

Definition _get_p0 (self : fits) : list num :=
  map (fun k => ndiv (p0 (parameters_dict self k))
                     (scale (parameters_dict self k)))
      (filter (fun k => use (parameters_dict self k) = true)
              _parameters_order).

(** *** Cost functions *)

(** The Pearson statistic of line 304,
    [np.sum((data_pattern - sim_pattern) ** 2 / np.abs(sim_pattern))]. *)
Definition pearson_chi2 (data sim : pattern) : option num :=
  ma_sum (ma_divide (ma_square (ma_zip nsub data sim)) (ma_map nabs sim)).

(** [chi_square]; [verbose_graphics] is off. *)
Definition chi_square (self : fits) (dx' dy' phi' total_events : num)
    (fractions_sims : list num) (sigma' : num)
  : result (fits * option num) :=
  let rnd_events := [nsub n1 (np_sum fractions_sims)] in
  gen ← require AttributeError (pattern_generator self);
  let fractions := rnd_events ++ fractions_sims in
  let sim := make_pattern gen dx' dy' phi' fractions total_events sigma'
                          ideal in
  let self := with_sim_pattern self sim in
  data ← require TypeError (data_pattern self);
  let chi2 := pearson_chi2 data sim in
  Ok (self, chi2).

(** The loop of [chi_square_call] and [log_likelihood_call] that rebuilds
    the full parameter tuple [params_temp] from the reduced vector. *)
Fixpoint rebuild_params (self : fits) (params p0_scale : list num)
    (keys : list key) (di : nat) (params_temp : list num)
  : result (list num) :=
  match keys with
  | [] => Ok params_temp
  | k :: keys' =>
      if use (parameters_dict self k) then
        v ← index params di;
        s ← index p0_scale di;
        rebuild_params self params p0_scale keys' (S di)
                       (params_temp ++ [nmul v s])
      else
        rebuild_params self params p0_scale keys' di
                       (params_temp ++ [p0 (parameters_dict self k)])
  end.

(** The fractions of the sites in use, in site order. *)
Definition select_fractions (self : fits) (f1 f2 f3 : num) : list num :=
  (if use (parameters_dict self pattern_1) then [f1] else []) ++
  (if use (parameters_dict self pattern_2) then [f2] else []) ++
  (if use (parameters_dict self pattern_3) then [f3] else []).

Definition chi_square_call (self : fits) (params : list num)
    (enable_scale : bool) : result (fits * option num) :=
  let p0_scale := if enable_scale then _get_p0_scale self
                  else np_ones (length params) in
  params_temp ← rebuild_params self params p0_scale _parameters_order 0 [];
  match params_temp with
  | [dx'; dy'; phi'; total_cts'; sigma'; f1; f2; f3] =>
      let fractions_sims := select_fractions self f1 f2 f3 in
      chi_square self dx' dy' phi' total_cts' fractions_sims sigma'
  | _ => Raise ValueError
  end.

(** [log_likelihood]; [verbose_graphics] is off. *)
Definition log_likelihood (self : fits) (dx' dy' phi' : num)
    (fractions_sims : list num) (sigma' : num)
  : result (fits * option num) :=
  let total_events := n1 in
  let rnd_events := [nsub n1 (np_sum fractions_sims)] in
  gen ← require AttributeError (pattern_generator self);
  let fractions := rnd_events ++ fractions_sims in
  let sim := make_pattern gen dx' dy' phi' fractions total_events sigma'
                          ideal in
  let self := with_sim_pattern self sim in
  data ← require TypeError (data_pattern self);
  let ll := ma_sum (ma_zip nmul data (ma_log sim)) in
  Ok (self, option_map nneg ll).

Definition log_likelihood_call (self : fits) (params : list num)
    (enable_scale : bool) : result (fits * option num) :=
  let p0_scale := if enable_scale then _get_p0_scale self
                  else np_ones (length params) in
  params_temp ← rebuild_params self params p0_scale _parameters_order 0 [];
  match params_temp with
  | [dx'; dy'; phi'; total_cts'; sigma'; f1; f2; f3] =>
      let fractions_sims := select_fractions self f1 f2 f3 in
      log_likelihood self dx' dy' phi' fractions_sims sigma'
  | _ => Raise ValueError
  end.

(** *** Minimization drivers *)

(** The bounds of the free parameters, in canonical order. *)
Definition free_bounds (self : fits) : list bound :=
  map (fun k => bounds (parameters_dict self k))
      (filter (fun k => use (parameters_dict self k) = true)
              _parameters_order).

(** The library indices of the sites in use. *)
Definition simulations_in_use (self : fits) : list (option num) :=
  map (fun k => value (parameters_dict self k))
      (filter (fun k => use (parameters_dict self k) = true) _pattern_keys).

(** [self.pattern_generator = PatternCreator(...)]. *)
Definition make_generator (self : fits) : result fits :=
  data ← require AttributeError (data_pattern self);
  Ok (with_pattern_generator self
        (PatternCreator (lib self) (XXmesh self) (YYmesh self)
           (simulations_in_use self) (ma_mask data)
           (value (parameters_dict self sub_pixels)))).

(** The loop that closes both drivers: [res['x'][di] *= scale] in place,
    then the entry becomes the parameter's value; a parameter that is not
    in use gets its p0. *)
Fixpoint write_back (keys : list key) (di : nat) (x : list num)
    (d : key -> parameter) : result (list num * (key -> parameter)) :=
  match keys with
  | [] => Ok (x, d)
  | k :: keys' =>
      if use (d k) then
        xi ← index x di;
        let xi' := nmul xi (scale (d k)) in
        write_back keys' (S di) (<[di := xi']> x) (set_value d k (Some xi'))
      else
        write_back keys' di x (set_value d k (Some (p0 (d k))))
  end.

Definition store_results (self : fits) (res : OptimizeResult)
  : result fits :=
  '(x, d) ← write_back _parameters_order 0 (res_x res)
                        (parameters_dict self);
  let res := mk_OptimizeResult x (res_fun res) (res_success res)
                               (res_jac res) in
  Ok (with_results (with_parameters_dict self d) res).

Definition minimize_chi2 (self : fits) : result fits :=
  let p0 := _get_p0 self in
  let bnds := free_bounds self in
  self ← make_generator self;
  '(self, res) ← run_search (fun s x => chi_square_call s x true) self
                   (op_minimize p0 bnds (_chi2_fit_options self));
  store_results self res.

Definition maximize_likelyhood (self : fits) : result fits :=
  (* total counts is not used in maximum likelyhood *)
  let self := with_parameters_dict self
                (set_use (parameters_dict self) total_cts false) in
  let p0 := _get_p0 self in
  let bnds := free_bounds self in
  self ← make_generator self;
  '(self, res) ← run_search (fun s x => log_likelihood_call s x true) self
                   (op_minimize p0 bnds (_ml_fit_options self));
  store_results self res.

(** *** Error estimate *)

Fixpoint store_variance (keys : list key) (di : nat) (var : list num)
    (d : key -> parameter) : result (key -> parameter) :=
  match keys with
  | [] => Ok d
  | k :: keys' =>
      if use (d k) then
        v ← index var di;
        store_variance keys' (S di) var (set_variance d k (Some v))
      else store_variance keys' di var d
  end.

Definition get_variance_from_hessian (self : fits) (x : sequence)
    (enable_scale : bool) (func : string) : result (fits * list num) :=
  x ← np_idiv x (if enable_scale then _get_p0_scale self
                 else np_ones (sequence_length x));
  f ← (if decide (func = "likelihood")
       then Ok (fun s xx => log_likelihood_call s xx enable_scale)
       else if decide (func = "chi_square")
       then Ok (fun s xx => chi_square_call s xx enable_scale)
       else Raise ValueError);
  '(self, hh) ← run_search f self (nd_Hessian x);
  hh_inv ← (if decide (func = "likelihood")
            then require LinAlgError (np_linalg_inv hh)
            else if decide (func = "chi_square")
            then require LinAlgError
                   (np_linalg_inv (np_scale_matrix n_half hh))
            else Raise ValueError);
  let variance := map nsqrt (np_diag hh_inv) in
  variance ← np_inplace nmul variance
               (if enable_scale then _get_p0_scale self
                else np_ones (length x));
  let self := with_variance self variance in
  d ← store_variance _parameters_order 0 variance (parameters_dict self);
  Ok (with_parameters_dict self d, variance).

(** *** Configuration setters *)

Definition dict_set_p0 (d : key -> parameter) (k : key) (v : num)
  : key -> parameter :=
  dict_set d k (mk_parameter v (value (d k)) (use (d k)) (variance (d k))
                             (scale (d k)) (bounds (d k))).
Definition dict_set_scale (d : key -> parameter) (k : key) (s : num)
  : key -> parameter :=
  dict_set d k (mk_parameter (p0 (d k)) (value (d k)) (use (d k))
                             (variance (d k)) s (bounds (d k))).
Definition dict_set_bounds (d : key -> parameter) (k : key) (b : bound)
  : key -> parameter :=
  dict_set d k (mk_parameter (p0 (d k)) (value (d k)) (use (d k))
                             (variance (d k)) (scale (d k)) b).

(** [set_inicial_values]: the p0 entry of the eight fit parameters. *)
Definition set_inicial_values (self : fits)
    (dx' dy' phi' total_cts' sigma' f_p1' f_p2' f_p3' : num) : fits :=
  let d := parameters_dict self in
  let d := dict_set_p0 d dx dx' in
  let d := dict_set_p0 d dy dy' in
  let d := dict_set_p0 d phi phi' in
  let d := dict_set_p0 d total_cts total_cts' in
  let d := dict_set_p0 d sigma sigma' in
  let d := dict_set_p0 d f_p1 f_p1' in
  let d := dict_set_p0 d f_p2 f_p2' in
  let d := dict_set_p0 d f_p3 f_p3' in
  with_parameters_dict self d.

(** [set_scale_values]. *)
Definition set_scale_values (self : fits)
    (dx' dy' phi' total_cts' sigma' f_p1' f_p2' f_p3' : num) : fits :=
  let d := parameters_dict self in
  let d := dict_set_scale d dx dx' in
  let d := dict_set_scale d dy dy' in
  let d := dict_set_scale d phi phi' in
  let d := dict_set_scale d total_cts total_cts' in
  let d := dict_set_scale d sigma sigma' in
  let d := dict_set_scale d f_p1 f_p1' in
  let d := dict_set_scale d f_p2 f_p2' in
  let d := dict_set_scale d f_p3 f_p3' in
  with_parameters_dict self d.

(** [set_bound_values]. *)
Definition set_bound_values (self : fits)
    (dx' dy' phi' total_cts' sigma' f_p1' f_p2' f_p3' : bound) : fits :=
  let d := parameters_dict self in
  let d := dict_set_bounds d dx dx' in
  let d := dict_set_bounds d dy dy' in
  let d := dict_set_bounds d phi phi' in
  let d := dict_set_bounds d total_cts total_cts' in
  let d := dict_set_bounds d sigma sigma' in
  let d := dict_set_bounds d f_p1 f_p1' in
  let d := dict_set_bounds d f_p2 f_p2' in
  let d := dict_set_bounds d f_p3 f_p3' in
  with_parameters_dict self d.

End Model.
End Fits.

(** * pyfdd/core/fitmanager.py *)

Inductive cost_function : Type := chi2 | ml.

(** What FitManager uses of the classes it imports ([DataPattern],
    [Lib2dl], [PatternCreator], [Fit]). *)
Class FitCollaborators `{Numeric} : Type := {
  Lib2dl : Type;
  DataPattern : Type;
  Fit : Type;
  site_info : Type;
  minimization_options : Type;
  dp_center : DataPattern -> num * num;      (* datapattern.center *)
  dp_angle : DataPattern -> num;             (* datapattern.angle *)
  dp_counts : DataPattern -> num;            (* pattern_matrix.sum() *)
  dp_mask : DataPattern -> list bool;        (* pattern_matrix.mask *)
  (* 10 ** int(math.log10(patt.sum())) *)
  dp_counts_ordofmag : DataPattern -> result num;
  (* the mask of PatternCreator(lib, xmesh, ymesh, 1, mask=, sub_pixels=,
     mask_out_of_range=True).make_pattern(dx, dy, phi, 0, 1, sigma=0,
     pattern_type='ideal') *)
  range_sim_mask : option Lib2dl -> DataPattern -> nat -> num -> num -> num ->
                   list bool;
  (* lib.dict_2dl["Spectrums"][patt_num - 1], the columns read from it *)
  lib_site_info : Lib2dl -> Z -> result site_info;
  (* Fit(lib, sites, verbose_graphics) followed by the setters of
     _build_fits_obj *)
  Fit_build : option Lib2dl -> list Z -> bool -> nat -> minimization_options ->
              DataPattern ->
              gmap string num -> gmap string num -> gmap string bool ->
              gmap string bound -> result Fit;
  Fit_minimize_cost_function : Fit -> cost_function -> result Fit;
  Fit_get_std_from_hessian : Fit -> list num -> bool -> cost_function ->
                             result Fit;
  Fit_results : Fit -> OptimizeResult        (* ft.results *)
}.

Module FitManager.
Section Model.
Context `{FitCollaborators}.

(** A row of [df_horizontal]: the columns come from the fit object, the
    site indices ([p1], [p2], ...) and the library entries of the sites. *)
Record row : Type := mk_row {
  row_fit : Fit;
  row_get_errors : bool;
  row_sites : list Z;
  row_info : list site_info
}.

(** A row of [df_vertical]: one per site of a combination. *)
Record vrow : Type := mk_vrow {
  vrow_fit : Fit;
  vrow_get_errors : bool;
  vrow_site : Z;
  vrow_info : site_info
}.

(** The attributes of a FitManager; [warned] collects what was passed to
    [warnings.warn]. *)
Record manager : Type := mk_manager {
  done_param_verbose : bool;
  min_value : option num;
  best_fit : option Fit;
  last_fit : option Fit;
  dp_pattern : option DataPattern;
  lib : option Lib2dl;
  current_fit_obj : option Fit;
  _n_sites : nat;
  _sub_pixels : nat;
  _cost_function : cost_function;
  _fit_options : minimization_options;
  parameter_keys : list string;
  _scale : gmap string num;
  _bounds : gmap string bound;
  p_initial_values : gmap string num;
  p_fixed_values : gmap string num;
  df_horizontal : list row;
  df_vertical : list vrow;
  warned : list string
}.

Definition with_current_fit_obj (self : manager) (c : option Fit) : manager :=
  mk_manager (done_param_verbose self) (min_value self) (best_fit self)
    (last_fit self) (dp_pattern self) (lib self) c (_n_sites self)
    (_sub_pixels self) (_cost_function self) (_fit_options self)
    (parameter_keys self) (_scale self) (_bounds self)
    (p_initial_values self) (p_fixed_values self) (df_horizontal self)
    (df_vertical self) (warned self).
Definition with_done_param_verbose (self : manager) (b : bool) : manager :=
  mk_manager b (min_value self) (best_fit self)
    (last_fit self) (dp_pattern self) (lib self) (current_fit_obj self)
    (_n_sites self) (_sub_pixels self) (_cost_function self)
    (_fit_options self) (parameter_keys self) (_scale self) (_bounds self)
    (p_initial_values self) (p_fixed_values self) (df_horizontal self)
    (df_vertical self) (warned self).
Definition with_best (self : manager) (b : option Fit) (m : option num)
  : manager :=
  mk_manager (done_param_verbose self) m b
    (last_fit self) (dp_pattern self) (lib self) (current_fit_obj self)
    (_n_sites self) (_sub_pixels self) (_cost_function self)
    (_fit_options self) (parameter_keys self) (_scale self) (_bounds self)
    (p_initial_values self) (p_fixed_values self) (df_horizontal self)
    (df_vertical self) (warned self).
Definition with_last_fit (self : manager) (l : option Fit) : manager :=
  mk_manager (done_param_verbose self) (min_value self) (best_fit self)
    l (dp_pattern self) (lib self) (current_fit_obj self)
    (_n_sites self) (_sub_pixels self) (_cost_function self)
    (_fit_options self) (parameter_keys self) (_scale self) (_bounds self)
    (p_initial_values self) (p_fixed_values self) (df_horizontal self)
    (df_vertical self) (warned self).
Definition with_tables (self : manager) (h : list row) (v : list vrow)
  : manager :=
  mk_manager (done_param_verbose self) (min_value self) (best_fit self)
    (last_fit self) (dp_pattern self) (lib self) (current_fit_obj self)
    (_n_sites self) (_sub_pixels self) (_cost_function self)
    (_fit_options self) (parameter_keys self) (_scale self) (_bounds self)
    (p_initial_values self) (p_fixed_values self) h v (warned self).
Definition with_warning (self : manager) (w : string) : manager :=
  mk_manager (done_param_verbose self) (min_value self) (best_fit self)
    (last_fit self) (dp_pattern self) (lib self) (current_fit_obj self)
    (_n_sites self) (_sub_pixels self) (_cost_function self)
    (_fit_options self) (parameter_keys self) (_scale self) (_bounds self)
    (p_initial_values self) (p_fixed_values self) (df_horizontal self)
    (df_vertical self) (warned self ++ [w]).

(** ['f_p' + str(i + 1)]. *)
Definition fraction_key (i : nat) : string := "f_p" +:+ pretty (i + 1)%nat.

(** [compute_parameter_keys]: the default keys without ['f_px'], then one
    fraction key per site. *)
Definition compute_parameter_keys (n_sites : nat) : list string :=
  ["dx"; "dy"; "phi"; "total_cts"; "sigma"] ++
  map fraction_key (seq 0 n_sites).

(** Python's [min(a, b)]. *)
Definition py_min (a b : num) : num := if nlt b a then b else a.

(** One turn of the loop of [compute_initial_fit_values]: the entry of p0
    and of p_fix for a key. *)
Definition initial_fit_value (datapattern : option DataPattern)
    (n_sites : nat) (p_fixed_values p_initial_values : gmap string num)
    (k : string) : result (num * bool) :=
  match p_fixed_values !! k with
  | Some v => Ok (v, true)
  | None =>
      match p_initial_values !! k with
      | Some v => Ok (v, false)
      | None =>
          if decide (k = "dx") then
            dp ← require AttributeError datapattern;
            Ok (fst (dp_center dp), false)
          else if decide (k = "dy") then
            dp ← require AttributeError datapattern;
            Ok (snd (dp_center dp), false)
          else if decide (k = "phi") then
            dp ← require AttributeError datapattern;
            Ok (dp_angle dp, false)
          else if decide (k = "total_cts") then
            dp ← require AttributeError datapattern;
            Ok (dp_counts dp, true)
          else if decide (k = "sigma") then Ok (n_01, true)
          else Ok (py_min n_015 (ndiv n_half (n_of_nat n_sites)), false)
      end
  end.

Fixpoint initial_fit_values_loop (datapattern : option DataPattern)
    (n_sites : nat) (p_fixed_values p_initial_values : gmap string num)
    (keys : list string) (p0 : list num) (p_fix : list bool)
  : result (list num * list bool) :=
  match keys with
  | [] => Ok (p0, p_fix)
  | k :: keys' =>
      '(v, f) ← initial_fit_value datapattern n_sites p_fixed_values
                  p_initial_values k;
      initial_fit_values_loop datapattern n_sites p_fixed_values
        p_initial_values keys' (p0 ++ [v]) (p_fix ++ [f])
  end.

Definition compute_initial_fit_values (datapattern : option DataPattern)
    (n_sites : nat) (p_fixed_values p_initial_values : gmap string num)
  : result (list num * list bool) :=
  initial_fit_values_loop datapattern n_sites p_fixed_values
    p_initial_values (compute_parameter_keys n_sites) [] [].

(** The loop of [_get_initial_values] that overwrites the initial values
    with the results of the last fit. *)
Fixpoint pass_last_results (keys : list string)
    (p_fixed_values : gmap string num) (p0_last : list num)
    (p0_last_i : nat) (new_initial_values : gmap string num)
  : result (gmap string num) :=
  match keys with
  | [] => Ok new_initial_values
  | k :: keys' =>
      match p_fixed_values !! k with
      | Some _ =>
          pass_last_results keys' p_fixed_values p0_last p0_last_i
            new_initial_values
      | None =>
          v ← index p0_last p0_last_i;
          pass_last_results keys' p_fixed_values p0_last (S p0_last_i)
            (<[k := nadd v n_1e5]> new_initial_values)
      end
  end.

Definition _get_initial_values (self : manager) (pass_results : bool)
  : result (list num * list bool) :=
  let p0_pass :=
    pass_results &&
    match last_fit self with
    | Some ft => res_success (Fit_results ft)
    | None => false
    end in
  let new_initial_values := p_initial_values self in
  new_initial_values ←
    (if p0_pass then
       match last_fit self with
       | Some ft =>
           pass_last_results (parameter_keys self) (p_fixed_values self)
             (res_x (Fit_results ft)) 0 new_initial_values
       | None => Ok new_initial_values
       end
     else Ok new_initial_values);
  compute_initial_fit_values (dp_pattern self) (_n_sites self)
    (p_fixed_values self) new_initial_values.

(** [_get_scale_values]. *)
Fixpoint scale_values_loop (self : manager) (keys : list string)
    (scale : list num) : result (list num) :=
  match keys with
  | [] => Ok scale
  | k :: keys' =>
      s ← (if decide (k = "total_cts") then
             match _cost_function self with
             | chi2 =>
                 dp ← require AttributeError (dp_pattern self);
                 counts_ordofmag ← dp_counts_ordofmag dp;
                 sk ← require KeyError (_scale self !! k);
                 Ok (nmul counts_ordofmag sk)
             | ml => Ok (nneg n1)
             end
           else require KeyError (_scale self !! k));
      scale_values_loop self keys' (scale ++ [s])
  end.
Definition _get_scale_values (self : manager) : result (list num) :=
  scale_values_loop self (parameter_keys self) [].

(** [{'dx': t[0], ..., 'sigma': t[4]}] extended with
    [d['f_p' + str(i + 1)] = t[5 + i]]. *)
Fixpoint dict_of_tuple {A : Type} (keys : list string) (i : nat)
    (t : list A) (d : gmap string A) : result (gmap string A) :=
  match keys with
  | [] => Ok d
  | k :: keys' =>
      v ← index t i;
      dict_of_tuple keys' (S i) t (<[k := v]> d)
  end.

Fixpoint bound_dict_of (self : manager) (keys : list string)
    (d : gmap string bound) : result (gmap string bound) :=
  match keys with
  | [] => Ok d
  | k :: keys' =>
      b ← require KeyError (_bounds self !! k);
      bound_dict_of self keys' (<[k := b]> d)
  end.

(** [_build_fits_obj]; the calls on the new Fit object are gathered in
    [Fit_build]. *)
Definition _build_fits_obj (self : manager) (sites : list Z)
    (verbose_graphics pass_results : bool) : result Fit :=
  dp ← require AttributeError (dp_pattern self);
  '(p0, p0_fix) ← _get_initial_values self pass_results;
  scale ← _get_scale_values self;
  let keys := compute_parameter_keys (_n_sites self) in
  scale_dict ← dict_of_tuple keys 0 scale ∅;
  init_dict ← dict_of_tuple keys 0 p0 ∅;
  fix_dict ← dict_of_tuple keys 0 p0_fix ∅;
  bound_dict ← bound_dict_of self keys ∅;
  Fit_build (lib self) sites verbose_graphics (_sub_pixels self)
            (_fit_options self) dp scale_dict init_dict fix_dict bound_dict.

(** The library entries of the first [n_sites] sites of a combination. *)
Fixpoint sites_info (l : Lib2dl) (sites : list Z) : result (list site_info) :=
  match sites with
  | [] => Ok []
  | patt_num :: sites' =>
      i ← lib_site_info l patt_num;
      infos ← sites_info l sites';
      Ok (i :: infos)
  end.

Definition _fill_horizontal_results_dict (self : manager) (ft : Fit)
    (get_errors : bool) (sites : list Z) : result manager :=
  _ ← require AttributeError (dp_pattern self);
  infos ← (match take (_n_sites self) sites with
           | [] => Ok []
           | ss => l ← require AttributeError (lib self); sites_info l ss
           end);
  Ok (with_tables self
        (df_horizontal self ++ [mk_row ft get_errors sites infos])
        (df_vertical self)).

Definition _fill_vertical_results_dict (self : manager) (ft : Fit)
    (get_errors : bool) (sites : list Z) : result manager :=
  _ ← require AttributeError (dp_pattern self);
  infos ← (match take (_n_sites self) sites with
           | [] => Ok []
           | ss => l ← require AttributeError (lib self); sites_info l ss
           end);
  Ok (with_tables self (df_horizontal self)
        (df_vertical self ++
         zip_with (mk_vrow ft get_errors) (take (_n_sites self) sites) infos)).

(** *** Fitting *)

(** How a method of the manager ends: it returns, or it raises with the
    manager as the statements before the exception left it. *)
Inductive outcome : Type :=
  | Returned (self : manager)
  | Raised (e : exn) (self : manager).

(** The manager a call leaves behind, and the exception it raised. *)
Definition manager_of (o : outcome) : manager :=
  match o with
  | Returned s => s
  | Raised _ s => s
  end.

Definition exception_of (o : outcome) : option exn :=
  match o with
  | Returned _ => None
  | Raised e _ => Some e
  end.

Definition on_result {A : Type} (r : result A) (self : manager)
    (k : A -> outcome) : outcome :=
  match r with
  | Ok a => k a
  | Raise e => Raised e self
  end.

(** "Keep best fit" of [_single_fit] (lines 650-656). *)
Definition keep_best_fit (self : manager) (ft : Fit) : manager :=
  match min_value self with
  | None => with_best self (Some ft) (Some (res_fun (Fit_results ft)))
  | Some m =>
      if nlt (res_fun (Fit_results ft)) m
      then with_best self (Some ft) (Some (res_fun (Fit_results ft)))
      else self
  end.

Definition _single_fit (self : manager) (sites : list Z)
    (get_errors pass_results : bool) (verbose : Z) (verbose_graphics : bool)
  : outcome :=
  if decide (length sites ≠ _n_sites self) then Raised ValueError self
  else
  match dp_pattern self with
  | None => Raised AssertionError self
  | Some _ =>
  on_result (_build_fits_obj self sites verbose_graphics pass_results) self
    (fun ft =>
  let self := with_current_fit_obj self (Some ft) in
  let self :=
    if (0 <? verbose)%Z && negb (done_param_verbose self)
    then with_done_param_verbose self true else self in
  on_result (Fit_minimize_cost_function ft (_cost_function self)) self
    (fun ft =>
  let self := with_current_fit_obj self (Some ft) in
  on_result
    (if get_errors
     then Fit_get_std_from_hessian ft (res_x (Fit_results ft)) true
            (_cost_function self)
     else Ok ft) self
    (fun ft =>
  let self := with_current_fit_obj self (Some ft) in
  on_result (_fill_horizontal_results_dict self ft get_errors sites) self
    (fun self =>
  on_result (_fill_vertical_results_dict self ft get_errors sites) self
    (fun self =>
  (* Keep best fit *)
  let self := keep_best_fit self ft in
  let self := with_last_fit self (Some ft) in
  (* Reset current fit object *)
  Returned (with_current_fit_obj self None))))))
  end.

(** [is_datapattern_inrange()] with the default orientation. *)
Definition is_datapattern_inrange (self : manager) : result bool :=
  '(orientation_values, _) ← _get_initial_values self false;
  dx ← index orientation_values 0;
  dy ← index orientation_values 1;
  phi ← index orientation_values 2;
  dp ← require AttributeError (dp_pattern self);
  let data_mask := dp_mask dp in
  let sim_mask := range_sim_mask (lib self) dp (_sub_pixels self) dx dy phi in
  (* not np.any(~data_mask == sim_mask) *)
  Ok (negb (existsb (fun b => b)
                    (zip_with (fun d s => Bool.eqb (negb d) s)
                              data_mask sim_mask))).

Definition out_of_range_warning : string :=
  "The datapattern is not in the simulation range.".

(** An argument of [run_fits] or [run_single_fit]: a pattern index or a
    sequence of them. *)
Inductive site_arg : Type :=
  | Scalar (n : Z)
  | Sequence (l : list Z).

(** [np.atleast_1d(np.array(ar))]. *)
Definition atleast_1d (ar : site_arg) : list Z :=
  match ar with
  | Scalar n => [n]
  | Sequence l => l
  end.

(** [for x in xs: body(x)], stopping at the first exception. *)
Fixpoint for_each {A : Type} (xs : list A) (body : A -> manager -> outcome)
    (self : manager) : outcome :=
  match xs with
  | [] => Returned self
  | x :: xs' =>
      match body x self with
      | Returned self' => for_each xs' body self'
      | Raised e self' => Raised e self'
      end
  end.

(** The nested function [recursive_call] of [run_fits]. *)
Fixpoint recursive_call (get_errors pass_results : bool) (verbose : Z)
    (patterns_list : list (list Z)) (sites : list Z) (self : manager)
  : outcome :=
  match patterns_list with
  | p :: rest =>
      for_each p
        (fun s => recursive_call get_errors pass_results verbose rest
                    (sites ++ [s]))
        self
  | [] => _single_fit self sites get_errors pass_results verbose false
  end.

Definition run_fits (self : manager) (args : list site_arg)
    (pass_results : bool) (verbose : Z) (get_errors : bool) : outcome :=
  on_result (is_datapattern_inrange self) self (fun inrange =>
  if negb inrange then
    Raised ValueError (with_warning self out_of_range_warning)
  else
  let self := with_done_param_verbose self false in
  let patterns_list := map atleast_1d args in
  if decide (length patterns_list < 1)%nat then Raised AssertionError self
  else
  match recursive_call get_errors pass_results verbose patterns_list [] self
  with
  | Returned self => Returned self
  | Raised _ self =>
      (* Reset current fit object *)
      Returned (with_current_fit_obj self None)
  end).

(** The loop of [run_single_fit] that turns its arguments into site
    indices. *)
Fixpoint single_fit_sites (args : list site_arg) (sites : list Z)
  : result (list Z) :=
  match args with
  | [] => Ok sites
  | a :: args' =>
      match a with
      | Scalar n => single_fit_sites args' (sites ++ [n])
      | Sequence [n] => single_fit_sites args' (sites ++ [n])
      | Sequence _ => Raise ValueError
      end
  end.

Definition run_single_fit (self : manager) (args : list site_arg)
    (verbose : Z) (verbose_graphics get_errors : bool) : outcome :=
  on_result (is_datapattern_inrange self) self (fun inrange =>
  let self := if negb inrange then with_warning self out_of_range_warning
              else self in
  on_result (single_fit_sites args []) self (fun sites =>
  let self := with_done_param_verbose self false in
  match _single_fit self sites get_errors false verbose verbose_graphics with
  | Returned self => Returned self
  | Raised _ self =>
      (* Reset current fit object *)
      Returned (with_current_fit_obj self None)
  end)).

(** *** Settings methods *)

Definition with_p_initial_values (self : manager) (d : gmap string num)
  : manager :=
  mk_manager (done_param_verbose self) (min_value self) (best_fit self)
    (last_fit self) (dp_pattern self) (lib self) (current_fit_obj self)
    (_n_sites self) (_sub_pixels self) (_cost_function self)
    (_fit_options self) (parameter_keys self) (_scale self) (_bounds self)
    d (p_fixed_values self) (df_horizontal self)
    (df_vertical self) (warned self).
Definition with_p_fixed_values (self : manager) (d : gmap string num)
  : manager :=
  mk_manager (done_param_verbose self) (min_value self) (best_fit self)
    (last_fit self) (dp_pattern self) (lib self) (current_fit_obj self)
    (_n_sites self) (_sub_pixels self) (_cost_function self)
    (_fit_options self) (parameter_keys self) (_scale self) (_bounds self)
    (p_initial_values self) d (df_horizontal self)
    (df_vertical self) (warned self).
Definition with_scale (self : manager) (d : gmap string num) : manager :=
  mk_manager (done_param_verbose self) (min_value self) (best_fit self)
    (last_fit self) (dp_pattern self) (lib self) (current_fit_obj self)
    (_n_sites self) (_sub_pixels self) (_cost_function self)
    (_fit_options self) (parameter_keys self) d (_bounds self)
    (p_initial_values self) (p_fixed_values self) (df_horizontal self)
    (df_vertical self) (warned self).
Definition with_bounds (self : manager) (d : gmap string bound) : manager :=
  mk_manager (done_param_verbose self) (min_value self) (best_fit self)
    (last_fit self) (dp_pattern self) (lib self) (current_fit_obj self)
    (_n_sites self) (_sub_pixels self) (_cost_function self)
    (_fit_options self) (parameter_keys self) (_scale self) d
    (p_initial_values self) (p_fixed_values self) (df_horizontal self)
    (df_vertical self) (warned self).
Definition with_fit_options (self : manager) (o : minimization_options)
  : manager :=
  mk_manager (done_param_verbose self) (min_value self) (best_fit self)
    (last_fit self) (dp_pattern self) (lib self) (current_fit_obj self)
    (_n_sites self) (_sub_pixels self) (_cost_function self)
    o (parameter_keys self) (_scale self) (_bounds self)
    (p_initial_values self) (p_fixed_values self) (df_horizontal self)
    (df_vertical self) (warned self).

(** [set_initial_values(kwargs)]; the keyword arguments come in the
    order of the call.  For a key that is not a parameter key the source
    has [raise(ValueError, '...')], which raises a tuple: Python 3 answers
    with TypeError. *)
Definition set_initial_values (self : manager) (kwargs : list (string * num))
  : outcome :=
  for_each kwargs
    (fun kv s =>
       if decide (fst kv ∈ parameter_keys s)
       then Returned (with_p_initial_values s
                        (<[fst kv := snd kv]> (p_initial_values s)))
       else Raised TypeError s)
    self.

(** [set_fixed_values(kwargs)]. *)
Definition set_fixed_values (self : manager) (kwargs : list (string * num))
  : outcome :=
  for_each kwargs
    (fun kv s =>
       if decide (fst kv ∈ parameter_keys s)
       then Returned (with_p_fixed_values s
                        (<[fst kv := snd kv]> (p_fixed_values s)))
       else Raised ValueError s)
    self.

(** [set_bounds(kwargs)]; a value is a tuple, of any length. *)
Definition set_bounds (self : manager)
    (kwargs : list (string * list (option num))) : outcome :=
  for_each kwargs
    (fun kv s =>
       if decide (fst kv ∈ parameter_keys s)
       then match snd kv with
            | [lo; hi] =>
                Returned (with_bounds s (<[fst kv := (lo, hi)]> (_bounds s)))
            | _ => Raised ValueError s
            end
       else Raised ValueError s)
    self.

(** [set_step_modifier(kwargs)]. *)
Definition set_step_modifier (self : manager) (kwargs : list (string * num))
  : outcome :=
  for_each kwargs
    (fun kv s =>
       if decide (fst kv ∈ parameter_keys s)
       then Returned (with_scale s (<[fst kv := snd kv]> (_scale s)))
       else Raised ValueError s)
    self.

(** *** Defaults of the class

    [default_scale], [default_bounds] and [default_profiles_fit_options]
    are attributes of the class; an options dictionary is known by its
    length, and [no_options] is the empty one. *)

Section ClassAttributes.
Variable default_scale : gmap string num.
Variable default_bounds : gmap string bound.
Variable default_profiles_fit_options
  : gmap string (gmap string minimization_options).
Variable no_options : minimization_options.
Variable options_len : minimization_options -> nat.
(* (np.round(xmesh[0, 0], 2), np.round(xmesh[0, -1], 2)) and the same for
   ymesh[0, 0], ymesh[-1, 0] *)
Variable mesh_corners : DataPattern -> bound * bound.

(** The defaults without ['f_px'], joined with one entry per fraction key
    that holds the default of ['f_px']. *)
Definition join_fraction_defaults {A : Type} (defaults : gmap string A)
    (n_sites : nat) : result (gmap string A) :=
  default_fraction ← require KeyError (defaults !! "f_px");
  let defaults := delete "f_px" defaults in
  let temp := foldl (fun d i => <[fraction_key i := default_fraction]> d)
                    ∅ (seq 0 n_sites) in
  (* {**defaults, **temp} *)
  Ok (temp ∪ defaults).

(** [for key in parameter_keys: if key in user: d[key] = user[key]]. *)
Definition overwrite_with {A : Type} (parameter_keys : list string)
    (user d : gmap string A) : gmap string A :=
  foldl (fun d key => match user !! key with
                      | Some v => <[key := v]> d
                      | None => d
                      end) d parameter_keys.

(** [compute_step_modifier]. *)
Definition compute_step_modifier (n_sites : nat)
    (p_scale : option (gmap string num)) : result (gmap string num) :=
  let p_scale := default ∅ p_scale in
  let parameter_keys := compute_parameter_keys n_sites in
  scale ← join_fraction_defaults default_scale n_sites;
  Ok (overwrite_with parameter_keys p_scale scale).

(** [compute_bounds]. *)
Definition compute_bounds (datapattern : option DataPattern) (n_sites : nat)
    (p_bounds : option (gmap string bound)) : result (gmap string bound) :=
  let p_bounds := default ∅ p_bounds in
  let parameter_keys := compute_parameter_keys n_sites in
  bounds ← join_fraction_defaults default_bounds n_sites;
  let bounds :=
    match datapattern with
    | Some dp => <["dy" := snd (mesh_corners dp)]>
                   (<["dx" := fst (mesh_corners dp)]> bounds)
    | None => bounds
    end in
  Ok (overwrite_with parameter_keys p_bounds bounds).

(** The name of a cost function, as the constructor takes it. *)
Definition cost_function_of (name : string) : option cost_function :=
  if decide (name = "chi2") then Some chi2
  else if decide (name = "ml") then Some ml
  else None.
Definition cost_function_name (c : cost_function) : string :=
  match c with
  | chi2 => "chi2"
  | ml => "ml"
  end.

(** A FitManager with the attributes of its minimization settings. *)
Record fitmanager : Type := mk_fitmanager {
  attributes : manager;
  _fit_options_profile : string;
  _minimization_method : string;
  _profiles_fit_options : gmap string (gmap string minimization_options)
}.

(** [set_minimization_settings]: the object it leaves, and the exception
    when it raises. *)
Definition set_minimization_settings (self : fitmanager)
    (profile min_method : string) (options : option minimization_options)
  : fitmanager * option exn :=
  let options := default no_options options in
  if decide (profile ∉ ["coarse"; "default"; "fine"; "custom"])
  then (self, Some ValueError)
  else
  let self := mk_fitmanager (attributes self) (_fit_options_profile self)
                min_method (_profiles_fit_options self) in
  if decide (0 < options_len options)%nat then
    (mk_fitmanager (with_fit_options (attributes self) options) "custom"
       (_minimization_method self) (_profiles_fit_options self), None)
  else if decide (min_method = "L-BFGS-B") then
    let self := mk_fitmanager (attributes self) profile
                  (_minimization_method self) (_profiles_fit_options self) in
    match _profiles_fit_options self !! profile with
    | None => (self, Some KeyError)
    | Some by_cost =>
        match by_cost !! cost_function_name
                           (_cost_function (attributes self)) with
        | None => (self, Some KeyError)
        | Some o =>
            (mk_fitmanager (with_fit_options (attributes self) o)
               (_fit_options_profile self) (_minimization_method self)
               (_profiles_fit_options self), None)
        end
    end
  else
    (mk_fitmanager
       (with_warning (attributes self)
          ("No profile for method " +:+ min_method +:+
           " and no options provided. Using library defaults"))
       (_fit_options_profile self) (_minimization_method self)
       (_profiles_fit_options self), None).

(** [FitManager(cost_function=, n_sites=, sub_pixels=)]. *)
Definition __init__ (cost_function : string) (n_sites sub_pixels : nat)
  : result fitmanager :=
  cf ← require ValueError (cost_function_of cost_function);
  let self :=
    mk_fitmanager
      (mk_manager false None None None None None None n_sites sub_pixels cf
                  no_options [] ∅ ∅ ∅ ∅ [] [] [])
      "default" "L-BFGS-B" default_profiles_fit_options in
  match set_minimization_settings self "default" "L-BFGS-B" None with
  | (_, Some e) => Raise e
  | (self, None) =>
      let parameter_keys := compute_parameter_keys n_sites in
      scale ← join_fraction_defaults default_scale n_sites;
      bounds ← join_fraction_defaults default_bounds n_sites;
      let a := attributes self in
      Ok (mk_fitmanager
            (mk_manager (done_param_verbose a) (min_value a) (best_fit a)
               (last_fit a) (dp_pattern a) (lib a) (current_fit_obj a)
               (_n_sites a) (_sub_pixels a) (_cost_function a)
               (_fit_options a) parameter_keys scale bounds ∅ ∅ [] []
               (warned a))
            (_fit_options_profile self) (_minimization_method self)
            (_profiles_fit_options self))
  end.

(* the sum of _gen_detector_pattern_from_fit(fit_obj, generator='yield') *)
Variable sim_total_yield : manager -> Fit -> result num.

(** [_get_sim_normalization_factor]; the factor stays [None] for a
    pattern type that no branch names. *)
Definition _get_sim_normalization_factor (self : manager)
    (normalization : option string) (pattern_type : string)
    (fit_obj : option Fit) : result (option num) :=
  dp ← require AttributeError (dp_pattern self);
  let total_counts := dp_counts dp in
  total_yield ← match fit_obj with
                | None => Ok None
                | Some ft => y ← sim_total_yield self ft; Ok (Some y)
                end;
  let by_type (for_counts for_ml : num) : option num :=
    if decide (pattern_type = "chi2" \/ pattern_type = "data")
    then Some for_counts
    else if decide (pattern_type = "ml") then Some for_ml
    else None in
  match normalization with
  | None => Ok (Some n1)
  | Some name =>
      if decide (name = "counts") then Ok (by_type n1 total_counts)
      else if decide (name = "yield") then
        y ← require ValueError total_yield;
        Ok (by_type (ndiv y total_counts) y)
      else if decide (name = "probability") then
        Ok (by_type (ndiv n1 total_counts) n1)
      else Raise ValueError
  end.

End ClassAttributes.

End Model.
End FitManager.

(** * A concrete arithmetic and concrete collaborators

    Used to run the two classes on explicit inputs.  Numbers are the
    rationals extended with one undefined value ([None]), which plays the
    part IEEE arithmetic gives to inf and nan: a division by zero has no
    value, an operation on an undefined operand is undefined, and every
    comparison with an undefined operand is false.  Square root and
    logarithm are defined where their value is rational (and found by the
    integer square root, respectively at 1). *)

Module Concrete.
#[local] Open Scope Q_scope.

Definition xq : Type := option Q.

Definition xq_lift1 (f : Q -> Q) (x : xq) : xq :=
  match x with
  | Some a => Some (Qred (f a))
  | None => None
  end.

Definition xq_lift2 (f : Q -> Q -> Q) (x y : xq) : xq :=
  match x, y with
  | Some a, Some b => Some (Qred (f a b))
  | _, _ => None
  end.

Definition xq_div (x y : xq) : xq :=
  match x, y with
  | Some a, Some b => if Qeq_bool b 0 then None else Some (Qred (a / b))
  | _, _ => None
  end.

Definition xq_lt (x y : xq) : bool :=
  match x, y with
  | Some a, Some b => match a ?= b with Lt => true | _ => false end
  | _, _ => false
  end.

Definition xq_le (x y : xq) : bool :=
  match x, y with
  | Some a, Some b => match a ?= b with Gt => false | _ => true end
  | _, _ => false
  end.

Definition xq_isfinite (x : xq) : bool :=
  match x with
  | Some _ => true
  | None => false
  end.

Definition xq_sqrt (x : xq) : xq :=
  match x with
  | Some a =>
      let r := Qred a in
      let s := (Z.sqrt (Qnum r) # Pos.sqrt (Qden r)) in
      if Qeq_bool (s * s) r then Some s else None
  | None => None
  end.

Definition xq_log (x : xq) : xq :=
  match x with
  | Some a => if Qeq_bool a 1 then Some 0 else None
  | None => None
  end.

#[local] Instance xq_numeric : Numeric := {|
  num := xq;
  n0 := Some 0;
  n1 := Some 1;
  n_half := Some (1 # 2);
  n_01 := Some (1 # 10);
  n_015 := Some (3 # 20);
  n_1e5 := Some (1 # 100000);
  n_of_nat := fun n => Some (inject_Z (Z.of_nat n));
  nadd := xq_lift2 Qplus;
  nsub := xq_lift2 Qminus;
  nmul := xq_lift2 Qmult;
  ndiv := xq_div;
  nneg := xq_lift1 Qopp;
  nabs := xq_lift1 Qabs;
  nsquare := xq_lift1 (fun a => a * a);
  nlog := xq_log;
  nsqrt := xq_sqrt;
  nlt := xq_lt;
  nle := xq_le;
  n_isfinite := xq_isfinite;
  n_tiny := Some (1 # 2 ^ 1022)
|}.

(** The integer [n] as a number. *)
Definition qz (n : Z) : xq := Some (inject_Z n).

(** Collaborators of [fits]: a generator whose pattern has one cell per
    component, holding that component's share of the events; a minimizer
    that evaluates the cost at the start point and returns the point one
    unit further in every coordinate (a masked cost is reported as
    undefined); a Hessian
    that is the 1x1 or 2x2 diagonal matrix of a given curvature; the
    inverse of diagonal matrices of size up to two. *)
Definition toy_make_pattern (g : unit) (dx' dy' phi' : xq)
    (fractions : list xq) (total_events sigma' : xq) (t : pattern_type)
  : list (option xq) :=
  map (fun f => Some (xq_lift2 Qmult total_events f)) fractions.

Definition toy_minimize (p0 : list xq) (bnds : list (option xq * option xq))
    (o : unit) : search OptimizeResult :=
  Ask p0 (fun y =>
    Done (mk_OptimizeResult (map (xq_lift2 Qplus (qz 1)) p0)
                            (from_option id None y) true [])).

Definition toy_hessian (curvature : xq) (x : list xq)
  : search (list (list xq)) :=
  Ask x (fun _ =>
    Done (match x with
          | [_] => [[curvature]]
          | [_; _] => [[curvature; qz 0]; [qz 0; curvature]]
          | _ => []
          end)).

Definition toy_inv (m : list (list xq)) : option (list (list xq)) :=
  match m with
  | [[Some a]] =>
      if Qeq_bool a 0 then None else Some [[xq_div (qz 1) (Some a)]]
  | [[Some a; Some b]; [Some c; Some d]] =>
      if Qeq_bool b 0 && Qeq_bool c 0 && negb (Qeq_bool a 0)
         && negb (Qeq_bool d 0)
      then Some [[xq_div (qz 1) (Some a); qz 0];
                 [qz 0; xq_div (qz 1) (Some d)]]
      else None
  | _ => None
  end.

Definition toy_collaborators (curvature : xq) : Collaborators := {|
  lib2dl := unit;
  mesh := unit;
  fit_options := unit;
  generator := unit;
  PatternCreator := fun _ _ _ _ _ _ => tt;
  make_pattern := toy_make_pattern;
  op_minimize := toy_minimize;
  nd_Hessian := toy_hessian curvature;
  np_linalg_inv := toy_inv
|}.

#[local] Instance toy_engine : Collaborators := toy_collaborators (qz 8).

(** A registry with dx and f_p1 free, site 1 in use, and a data pattern of
    two cells. *)
Definition toy_parameter (p0' : xq) (use' : bool) (scale' : xq)
  : Fits.parameter :=
  Fits.mk_parameter p0' None use' None scale' (None, None).

Definition toy_parameters (k : Fits.key) : Fits.parameter :=
  match k with
  | Fits.pattern_1 =>
      Fits.mk_parameter (qz 0) (Some (qz 1)) true None (qz 1) (None, None)
  | Fits.pattern_2 | Fits.pattern_3 =>
      Fits.mk_parameter (qz 0) (Some (qz 0)) false None (qz 1) (None, None)
  | Fits.sub_pixels =>
      Fits.mk_parameter (qz 0) (Some (qz 1)) false None (qz 1) (None, None)
  | Fits.dx => toy_parameter (qz 1) true (qz 2)
  | Fits.dy => toy_parameter (qz 3) false (qz 1)
  | Fits.phi => toy_parameter (qz 5) false (qz 1)
  | Fits.total_cts => toy_parameter (qz 100) false (qz 10)
  | Fits.sigma => toy_parameter (qz 0) false (qz 1)
  | Fits.f_p1 => toy_parameter (Some (1 # 4)) true (Some (1 # 10))
  | Fits.f_p2 | Fits.f_p3 => toy_parameter (Some (1 # 4)) false (qz 1)
  end.

Definition toy_data : pattern := [Some (qz 70); Some (qz 20)].

Definition toy_fits : Fits.fits :=
  Fits.mk_fits tt None None (Some toy_data) None None None (Some tt)
               toy_parameters tt tt.

(** The same registry where the cost function has no curvature. *)
Definition toy_fits_flat : @Fits.fits _ (toy_collaborators (qz 0)) :=
  @Fits.mk_fits _ (toy_collaborators (qz 0)) tt None None (Some toy_data)
                None None None (Some tt) toy_parameters tt tt.

(** The same registry with total_cts free as well. *)
Definition toy_fits_counts : Fits.fits :=
  Fits.with_parameters_dict toy_fits
    (Fits.set_use toy_parameters Fits.total_cts true).

(** Collaborators of [FitManager].  A data pattern is given by the values
    FitManager reads from it; the simulations cover it unless the
    orientation is moved beyond dx = 1.  The library has [library_size]
    spectra.  A fit object remembers its sites and initial values; its
    minimization costs [cost sites], fails where that cost is undefined,
    and returns the free initial values as optimum. *)
Record toy_datapattern : Type := mk_toy_datapattern {
  toy_center : xq * xq;
  toy_angle : xq;
  toy_counts : xq;
  toy_ordofmag : xq;
  toy_mask : list bool
}.

Record toy_fit : Type := mk_toy_fit {
  toy_sites : list Z;
  toy_init : gmap string xq;
  toy_fixed : gmap string bool;
  toy_results : OptimizeResult
}.

Definition toy_free_values (ft : toy_fit) : list xq :=
  omap (fun k => match toy_fixed ft !! k with
                 | Some false => toy_init ft !! k
                 | _ => None
                 end)
       (FitManager.compute_parameter_keys (length (toy_sites ft))).

Definition toy_fit_collaborators (cost : list Z -> xq) (library_size : Z)
  : FitCollaborators := {|
  Lib2dl := unit;
  DataPattern := toy_datapattern;
  Fit := toy_fit;
  site_info := Z;
  minimization_options := unit;
  dp_center := toy_center;
  dp_angle := toy_angle;
  dp_counts := toy_counts;
  dp_mask := toy_mask;
  dp_counts_ordofmag := fun dp => Ok (toy_ordofmag dp);
  range_sim_mask := fun _ dp _ dx' _ _ =>
    map (fun d => d || xq_lt (qz 1) dx') (toy_mask dp);
  lib_site_info := fun _ n =>
    if ((1 <=? n)%Z && (n <=? library_size)%Z)%bool then Ok n
    else Raise IndexError;
  Fit_build := fun _ sites _ _ _ _ _ init fixed _ =>
    Ok (mk_toy_fit sites init fixed (mk_OptimizeResult [] None false []));
  Fit_minimize_cost_function := fun ft _ =>
    match cost (toy_sites ft) with
    | Some c =>
        Ok (mk_toy_fit (toy_sites ft) (toy_init ft) (toy_fixed ft)
              (mk_OptimizeResult (toy_free_values ft) (Some c) true []))
    | None => Raise FitError
    end;
  Fit_get_std_from_hessian := fun ft _ _ _ => Ok ft;
  Fit_results := toy_results
|}.

(** A manager for [n_sites] sites whose data pattern is centred at
    [center].  The cost of a one-site fit is the squared distance of the
    site index from 4, undefined at site 2; a two-site fit costs
    10 a + b. *)
Definition toy_cost (sites : list Z) : xq :=
  match sites with
  | [n] =>
      if (n =? 2)%Z then None else Some (inject_Z ((n - 4) * (n - 4)))
  | [a; b] => Some (inject_Z (10 * a + b))
  | _ => Some 0
  end.

#[local] Instance toy_fit_engine : FitCollaborators :=
  toy_fit_collaborators toy_cost 9.

Definition toy_pattern (center : xq * xq) : toy_datapattern :=
  mk_toy_datapattern center (qz 0) (qz 1000) (qz 1000)
                     [false; false; true].

Definition toy_manager (n_sites : nat) (center : xq * xq)
  : FitManager.manager :=
  FitManager.mk_manager false None None None
    (Some (toy_pattern center)) (Some tt) None n_sites 1 chi2 tt
    (FitManager.compute_parameter_keys n_sites)
    (list_to_map (map (fun k => (k, Some (1 # 100)))
                      (FitManager.compute_parameter_keys n_sites)))
    (list_to_map (map (fun k => (k, (None, None)))
                      (FitManager.compute_parameter_keys n_sites)))
    ∅ ∅ [] [] [].

(** A one-site manager in which the user fixed total_cts and sigma, and
    the same manager after the fit of site 3: it then has a last fit, whose
    result vector holds dx, dy, phi and the fraction. *)
Definition toy_manager_fixed : FitManager.manager :=
  FitManager.mk_manager false None None None
    (Some (toy_pattern (qz 0, qz 0))) (Some tt) None 1 1 chi2 tt
    (FitManager.compute_parameter_keys 1)
    (list_to_map (map (fun k => (k, Some (1 # 100)))
                      (FitManager.compute_parameter_keys 1)))
    (list_to_map (map (fun k => (k, (None, None)))
                      (FitManager.compute_parameter_keys 1)))
    ∅ (<["total_cts" := qz 500]> (<["sigma" := Some (1 # 20)]> ∅))
    [] [] [].

Abbreviation toy_manager_after_fit :=
  (FitManager.manager_of
     (FitManager.run_fits toy_manager_fixed [FitManager.Scalar 3%Z]
                          false 0%Z false)).

End Concrete.

(** * Properties of the fit engine (fits.py) *)

Module FitsTheory.
Import Fits.
Section Theory.
Context `{Collaborators}.

(** The free parameters, in canonical order: the keys of the reduced
    vector. *)
Definition free_keys (self : fits) : list key :=
  filter (fun k => use (parameters_dict self k) = true) _parameters_order.

(** The keys that precede [k] in a list. *)
Fixpoint keys_before (k : key) (l : list key) : list key :=
  match l with
  | [] => []
  | k' :: l' => if decide (k' = k) then [] else k' :: keys_before k l'
  end.

(** The position of a free parameter in the reduced vector. *)
Definition reduced_index (self : fits) (k : key) : nat :=
  length (filter (fun k' => use (parameters_dict self k') = true)
                 (keys_before k _parameters_order)).

(** The physical value of a parameter for a reduced vector [v]: a free
    parameter is its coordinate times its scale (times one when scaling is
    off), a fixed one is its p0. *)
Definition physical_value (self : fits) (v : list num) (enable_scale : bool)
    (k : key) : option num :=
  if use (parameters_dict self k) then
    match v !! reduced_index self k with
    | Some x =>
        Some (nmul x (if enable_scale then scale (parameters_dict self k)
                      else n1))
    | None => None
    end
  else Some (p0 (parameters_dict self k)).

Lemma index_Some {A : Type} (l : list A) (i : nat) (a : A) :
  l !! i = Some a -> index l i = Ok a.
Proof. intros Hl. unfold index. now rewrite Hl. Qed.

Lemma keys_before_app (k : key) (pre post : list key) :
  k ∉ pre -> keys_before k (pre ++ k :: post) = pre.
Proof.
  induction pre as [|a pre IH]; intros Hk; simpl.
  - now rewrite decide_True.
  - rewrite decide_False.
    + f_equal. apply IH. intros Hin. apply Hk. now right.
    + intros ->. apply Hk. now left.
Qed.


Lemma p0_scale_lookup (self : fits) (pre post : list key) (k : key) :
  use (parameters_dict self k) = true ->
  map (fun k => scale (parameters_dict self k))
      (filter (fun k => use (parameters_dict self k) = true)
              (pre ++ k :: post))
  !! length (filter (fun k => use (parameters_dict self k) = true) pre)
  = Some (scale (parameters_dict self k)).
Proof.
  intros Hk. rewrite filter_app, filter_cons_True by exact Hk.
  rewrite map_app. simpl.
  rewrite lookup_app_r by (rewrite length_map; lia).
  rewrite length_map, Nat.sub_diag. reflexivity.
Qed.

Lemma free_prefix_lt (self : fits) (pre post : list key) (k : key) :
  use (parameters_dict self k) = true ->
  (length (filter (fun k => use (parameters_dict self k) = true) pre)
   < length (filter (fun k => use (parameters_dict self k) = true)
                    (pre ++ k :: post)))%nat.
Proof.
  intros Hk. rewrite filter_app, filter_cons_True by exact Hk.
  rewrite length_app. simpl. lia.
Qed.

(** The rebuilding loop, started anywhere in the canonical order with the
    matching index, yields the physical values of the remaining keys. *)
Lemma rebuild_params_physical (self : fits) (v : list num)
    (enable_scale : bool) :
  length v = length (free_keys self) ->
  forall (keys pre : list key) (acc : list num),
    pre ++ keys = _parameters_order ->
    exists vals : list num,
      rebuild_params self v
        (if enable_scale then _get_p0_scale self else np_ones (length v))
        keys
        (length (filter (fun k => use (parameters_dict self k) = true) pre))
        acc
      = Ok (acc ++ vals) /\
      Forall2 (fun k x => physical_value self v enable_scale k = Some x)
              keys vals.
Proof.
  intros Hlen keys.
  induction keys as [|k keys IH]; intros pre acc Hsplit.
  - exists []. simpl. rewrite app_nil_r. split; [reflexivity | constructor].
  - assert (Hnodup : NoDup _parameters_order).
    { apply (bool_decide_unpack (NoDup _parameters_order)).
      vm_compute. exact I. }
    assert (Hk : k ∉ pre).
    { rewrite <- Hsplit in Hnodup. apply NoDup_app in Hnodup.
      destruct Hnodup as (_ & Hdisj & _). intros Hin.
      apply (Hdisj k Hin). now left. }
    assert (Hidx : reduced_index self k
                   = length (filter (fun k => use (parameters_dict self k)
                                              = true) pre)).
    { unfold reduced_index. rewrite <- Hsplit.
      now rewrite keys_before_app. }
    specialize (IH (pre ++ [k])).
    rewrite <- app_assoc in IH. simpl in IH.
    simpl. destruct (use (parameters_dict self k)) eqn:Huse.
    + assert (Hlt := free_prefix_lt self pre keys k Huse).
      rewrite Hsplit in Hlt. fold (free_keys self) in Hlt.
      rewrite <- Hlen in Hlt.
      destruct (lookup_lt_is_Some_2 v _ Hlt) as [x Hx].
      rewrite (index_Some _ _ _ Hx). cbn [mbind result_bind].
      assert (Hs : (if enable_scale then _get_p0_scale self
                    else np_ones (length v))
                   !! length (filter (fun k => use (parameters_dict self k)
                                                = true) pre)
                   = Some (if enable_scale
                           then scale (parameters_dict self k) else n1)).
      { destruct enable_scale.
        - unfold _get_p0_scale. rewrite <- Hsplit.
          now apply p0_scale_lookup.
        - unfold np_ones. now apply lookup_replicate_2. }
      rewrite (index_Some _ _ _ Hs). cbn [mbind result_bind].
      destruct (IH (acc ++ [nmul x (if enable_scale
                                    then scale (parameters_dict self k)
                                    else n1)]) Hsplit)
        as (vals & Hrun & Hvals).
      rewrite filter_app, filter_cons_True, length_app in Hrun by exact Huse.
      simpl in Hrun. rewrite Nat.add_1_r in Hrun.
      exists (nmul x (if enable_scale then scale (parameters_dict self k)
                      else n1) :: vals).
      split.
      * destruct enable_scale; rewrite Hrun, <- app_assoc; reflexivity.
      * constructor; [|exact Hvals].
        unfold physical_value. rewrite Huse, Hidx, Hx. reflexivity.
    + destruct (IH (acc ++ [p0 (parameters_dict self k)]) Hsplit)
        as (vals & Hrun & Hvals).
      rewrite filter_app, filter_cons_False, filter_nil, app_nil_r in Hrun
        by (rewrite Huse; discriminate).
      exists (p0 (parameters_dict self k) :: vals).
      split.
      * rewrite Hrun, <- app_assoc. reflexivity.
      * constructor; [|exact Hvals].
        unfold physical_value. rewrite Huse. reflexivity.
Qed.

(** The fractions handed on by the two evaluators are those of the sites
    in use, in site order. *)
Lemma select_fractions_in_use (self : fits) (f1 f2 f3 : num) :
  select_fractions self f1 f2 f3
  = map snd (filter (fun sf => use (parameters_dict self (fst sf)) = true)
                    [(pattern_1, f1); (pattern_2, f2); (pattern_3, f3)]).
Proof.
  unfold select_fractions.
  rewrite !filter_cons, filter_nil. cbn [fst snd].
  destruct (use (parameters_dict self pattern_1));
    destruct (use (parameters_dict self pattern_2));
    destruct (use (parameters_dict self pattern_3)); reflexivity.
Qed.

(** C1.  Both cost-function evaluators rebuild the full parameter tuple from
    the reduced vector in the canonical order dx, dy, phi, total_cts, sigma,
    f_p1, f_p2, f_p3: a free parameter is [v[i] * scale[i]] (times one when
    scaling is off), a fixed one is its p0.  The active site fractions are
    those among f_p1, f_p2, f_p3 whose site (pattern_1, pattern_2,
    pattern_3) is in use, in site order.  The generator receives the
    rebuilt dx, dy, phi and sigma, the rebuilt total_cts (chi-square) or 1
    (log-likelihood), and the fractions vector whose element 0 is one minus
    the sum of the active fractions, as computed, with no clamping,
    followed by the active fractions; the pattern it returns becomes
    [sim_pattern].  Without a generator the evaluation raises
    AttributeError, without a data pattern TypeError. *)
Theorem cost_call_reconstructs_parameters (self : fits) (v : list num)
    (enable_scale : bool) :
  length v = length (free_keys self) ->
  exists dx' dy' phi' total_cts' sigma' f1 f2 f3 : num,
    physical_value self v enable_scale dx = Some dx' /\
    physical_value self v enable_scale dy = Some dy' /\
    physical_value self v enable_scale phi = Some phi' /\
    physical_value self v enable_scale total_cts = Some total_cts' /\
    physical_value self v enable_scale sigma = Some sigma' /\
    physical_value self v enable_scale f_p1 = Some f1 /\
    physical_value self v enable_scale f_p2 = Some f2 /\
    physical_value self v enable_scale f_p3 = Some f3 /\
    let active :=
      map snd (filter (fun sf => use (parameters_dict self (fst sf)) = true)
                      [(pattern_1, f1); (pattern_2, f2); (pattern_3, f3)]) in
    let background := nsub n1 (foldl nadd n0 active) in
    match pattern_generator self, data_pattern self with
    | Some gen, Some data =>
        exists chi2 ll : option num,
          chi_square_call self v enable_scale
            = Ok (with_sim_pattern self
                    (make_pattern gen dx' dy' phi' (background :: active)
                                  total_cts' sigma' ideal), chi2) /\
          log_likelihood_call self v enable_scale
            = Ok (with_sim_pattern self
                    (make_pattern gen dx' dy' phi' (background :: active)
                                  n1 sigma' ideal), ll)
    | Some _, None =>
        chi_square_call self v enable_scale = Raise TypeError /\
        log_likelihood_call self v enable_scale = Raise TypeError
    | None, _ =>
        chi_square_call self v enable_scale = Raise AttributeError /\
        log_likelihood_call self v enable_scale = Raise AttributeError
    end.
Proof.
  intros Hlen.
  destruct (rebuild_params_physical self v enable_scale Hlen
              _parameters_order [] [] eq_refl) as (vals & Hrun & Hvals).
  rewrite filter_nil in Hrun. cbn [length app] in Hrun.
  unfold _parameters_order in Hvals.
  apply Forall2_cons_inv_l in Hvals as (dx' & vals1 & Hdx & Hvals & ->).
  apply Forall2_cons_inv_l in Hvals as (dy' & vals2 & Hdy & Hvals & ->).
  apply Forall2_cons_inv_l in Hvals as (phi' & vals3 & Hphi & Hvals & ->).
  apply Forall2_cons_inv_l in Hvals as (tc & vals4 & Htc & Hvals & ->).
  apply Forall2_cons_inv_l in Hvals as (sg & vals5 & Hsg & Hvals & ->).
  apply Forall2_cons_inv_l in Hvals as (f1 & vals6 & Hf1 & Hvals & ->).
  apply Forall2_cons_inv_l in Hvals as (f2 & vals7 & Hf2 & Hvals & ->).
  apply Forall2_cons_inv_l in Hvals as (f3 & vals8 & Hf3 & Hvals & ->).
  apply Forall2_nil_inv_l in Hvals as ->.
  exists dx', dy', phi', tc, sg, f1, f2, f3.
  repeat (split; [assumption|]).
  assert (Hchi : chi_square_call self v enable_scale
                 = chi_square self dx' dy' phi' tc
                     (select_fractions self f1 f2 f3) sg).
  { unfold chi_square_call. rewrite Hrun. reflexivity. }
  assert (Hll : log_likelihood_call self v enable_scale
                = log_likelihood self dx' dy' phi'
                    (select_fractions self f1 f2 f3) sg).
  { unfold log_likelihood_call. rewrite Hrun. reflexivity. }
  cbv zeta. rewrite Hchi, Hll, <- select_fractions_in_use.
  unfold chi_square, log_likelihood, np_sum.
  destruct (pattern_generator self) as [gen|]; simpl.
  - destruct (data_pattern self) as [data|]; simpl.
    + eexists _, _. split; reflexivity.
    + split; reflexivity.
  - split; reflexivity.
Qed.

(** *** The two scores, cell by cell *)

(** The cells that are valid (unmasked) in both patterns, as pairs
    (observed, synthetic). *)
Fixpoint valid_cells (data sim : pattern) : list (num * num) :=
  match data, sim with
  | d :: data', s :: sim' =>
      match d, s with
      | Some o, Some y => (o, y) :: valid_cells data' sim'
      | _, _ => valid_cells data' sim'
      end
  | _, _ => []
  end.

(** [(observed - synthetic)^2 / |synthetic|]: the divisor is the absolute
    synthetic value itself. *)
Definition pearson_term (c : num * num) : num :=
  ndiv (nsquare (nsub (fst c) (snd c))) (nabs (snd c)).

(** [observed * log(synthetic)]. *)
Definition likelihood_term (c : num * num) : num :=
  nmul (fst c) (nlog (snd c)).

(** The valid cells that stay in the chi-square sum: the square and the
    quotient are finite, and the divisor is not negligible against the
    square ([|divisor| <= |square| * tiny] fails; a zero divisor never
    passes). *)
Definition pearson_kept (c : num * num) : bool :=
  n_isfinite (nsquare (nsub (fst c) (snd c))) &&
  n_isfinite (ndiv (nsquare (nsub (fst c) (snd c))) (nabs (snd c))) &&
  negb (nle (nabs (nabs (snd c)))
            (nmul (nabs (nsquare (nsub (fst c) (snd c)))) n_tiny)).

(** The valid cells that stay in the log-likelihood sum: the synthetic
    value is not [<= 0]. *)
Definition likelihood_kept (c : num * num) : bool := negb (nle (snd c) n0).

(** The sum of a term over the cells that are left; the constant
    [numpy.ma.masked] ([None]) when no cell is left. *)
Definition sum_of_cells (term : num * num -> num) (cells : list (num * num))
  : option num :=
  match cells with
  | [] => None
  | _ :: _ => Some (foldl nadd n0 (map term cells))
  end.

(** The statistic as spec section 4.2 asks for it: the sum over the valid
    cells, every synthetic value below a small positive floor being raised
    to the floor before the term is computed. *)
Definition clamped_pearson_chi2 (floor : num) (data sim : pattern) : num :=
  foldl nadd n0
        (map (fun c => pearson_term
                         (fst c, if nlt (snd c) floor then floor else snd c))
             (valid_cells data sim)).

(** The score as spec section 4.2 words it: minus the sum over all valid
    cells of [observed * log(synthetic)]. *)
Definition unrestricted_log_likelihood (data sim : pattern) : num :=
  nneg (foldl nadd n0 (map likelihood_term (valid_cells data sim))).

Lemma ma_sum_cells (term : num * num -> num) (a : pattern)
    (cells : list (num * num)) :
  ma_compressed a = map term cells -> ma_sum a = sum_of_cells term cells.
Proof.
  intros Ha. unfold ma_sum, sum_of_cells, np_sum. rewrite Ha.
  destruct cells; reflexivity.
Qed.

Lemma pearson_compressed (data sim : pattern) :
  ma_compressed (ma_divide (ma_square (ma_zip nsub data sim))
                           (ma_map nabs sim))
  = map pearson_term (List.filter pearson_kept (valid_cells data sim)).
Proof.
  revert sim. induction data as [|d data IH]; intros sim.
  - reflexivity.
  - destruct sim as [|s sim]; [reflexivity|].
    specialize (IH sim).
    unfold ma_compressed, ma_divide, ma_square, ma_zip, ma_map in *.
    cbn [zip_with map option_map valid_cells].
    destruct d as [o|], s as [y|]; cbn [omap]; try exact IH.
    cbn [List.filter]. unfold pearson_kept at 1, ma_divide_domain.
    cbn [fst snd option_map].
    destruct (n_isfinite (nsquare (nsub o y))); cbn [andb];
      [|cbn; exact IH].
    destruct (n_isfinite (ndiv (nsquare (nsub o y)) (nabs y)));
      cbn [andb negb orb]; [|cbn; exact IH].
    destruct (nle (nabs (nabs y)) (nmul (nabs (nsquare (nsub o y))) n_tiny));
      cbn [negb]; [cbn; exact IH|].
    cbn [map]. unfold pearson_term at 1. cbn [fst snd].
    change (omap id ?l) with (list_omap _ _ id l) in IH.
    cbn [list_omap id]. f_equal. exact IH.
Qed.

Lemma likelihood_compressed (data sim : pattern) :
  ma_compressed (ma_zip nmul data (ma_log sim))
  = map likelihood_term (List.filter likelihood_kept (valid_cells data sim)).
Proof.
  revert sim. induction data as [|d data IH]; intros sim.
  - reflexivity.
  - destruct sim as [|s sim]; [reflexivity|].
    specialize (IH sim).
    unfold ma_compressed, ma_zip, ma_log in *.
    cbn [zip_with map valid_cells].
    destruct d as [o|], s as [y|]; cbn [omap]; try exact IH.
    cbn [List.filter]. unfold likelihood_kept at 1. cbn [snd].
    destruct (nle y n0); cbn [negb]; [cbn; exact IH|].
    cbn [map]. unfold likelihood_term at 1. cbn [fst snd].
    change (omap id ?l) with (list_omap _ _ id l) in IH.
    cbn [list_omap id]. f_equal. exact IH.
Qed.

Lemma pearson_chi2_cells (data sim : pattern) :
  pearson_chi2 data sim
  = sum_of_cells pearson_term
                 (List.filter pearson_kept (valid_cells data sim)).
Proof. apply ma_sum_cells, pearson_compressed. Qed.

Lemma likelihood_cells (data sim : pattern) :
  ma_sum (ma_zip nmul data (ma_log sim))
  = sum_of_cells likelihood_term
                 (List.filter likelihood_kept (valid_cells data sim)).
Proof. apply ma_sum_cells, likelihood_compressed. Qed.

(** C2 (as the code has it).  The score of a chi-square evaluation is the
    sum of [(observed - synthetic)^2 / |synthetic|], for the pattern the
    generator returns, over the cells that are unmasked in both patterns
    and that the masked-array square and division keep.  No floor is put
    under the synthetic values: a cell whose divisor is zero (or
    negligible, or whose square or quotient is not finite) is masked and
    left out of the sum, and with no cell left the score is the constant
    [numpy.ma.masked].  The evaluation fails only when no generator or no
    data pattern is set. *)
Theorem chi_square_is_unclamped_pearson_sum (self : fits)
    (dx' dy' phi' total_events : num) (fractions_sims : list num)
    (sigma' : num) :
  match chi_square self dx' dy' phi' total_events fractions_sims sigma' with
  | Ok (self', score) =>
      exists (gen : generator) (data : pattern),
        pattern_generator self = Some gen /\
        data_pattern self = Some data /\
        let sim := make_pattern gen dx' dy' phi'
                     (nsub n1 (foldl nadd n0 fractions_sims)
                      :: fractions_sims)
                     total_events sigma' ideal in
        self' = with_sim_pattern self sim /\
        score = match List.filter pearson_kept (valid_cells data sim) with
                | [] => None
                | cells =>
                    Some (foldl nadd n0
                            (map (fun c => ndiv (nsquare (nsub (fst c)
                                                               (snd c)))
                                                (nabs (snd c)))
                                 cells))
                end
  | Raise e =>
      (e = AttributeError /\ pattern_generator self = None) \/
      (e = TypeError /\ data_pattern self = None)
  end.
Proof.
  unfold chi_square.
  destruct (pattern_generator self) as [gen|] eqn:Hgen; simpl.
  - destruct (data_pattern self) as [data|] eqn:Hdata; simpl.
    + exists gen, data. repeat split. rewrite pearson_chi2_cells.
      unfold np_sum.
      destruct (List.filter pearson_kept _); reflexivity.
    + right. split; reflexivity.
  - left. split; reflexivity.
Qed.

(** *** What an evaluation leaves untouched *)

(** A library routine keeps every invariant that the function it
    evaluates keeps. *)
Lemma run_search_invariant {S R : Type} (I : S -> Prop)
    (f : S -> list num -> result (S * option num)) :
  (forall s x s' y, I s -> f s x = Ok (s', y) -> I s') ->
  forall (t : search R) (s s' : S) (r : R),
    I s -> run_search f s t = Ok (s', r) -> I s'.
Proof.
  intros Hf t.
  induction t as [r0|x k IH]; intros s s' r Hs Hrun; simpl in Hrun.
  - inversion Hrun; subst. exact Hs.
  - destruct (f s x) as [[s1 y]|e] eqn:Hfx; [|discriminate].
    eapply IH; [|exact Hrun]. eapply Hf; eassumption.
Qed.

Lemma chi_square_parameters (self self' : fits)
    (a b c t : num) (fr : list num) (sg : num) (y : option num) :
  chi_square self a b c t fr sg = Ok (self', y) ->
  parameters_dict self' = parameters_dict self.
Proof.
  unfold chi_square.
  destruct (pattern_generator self); simpl; [|discriminate].
  destruct (data_pattern self); simpl; [|discriminate].
  intros Heq. inversion Heq; subst. reflexivity.
Qed.

Lemma log_likelihood_parameters (self self' : fits)
    (a b c : num) (fr : list num) (sg : num) (y : option num) :
  log_likelihood self a b c fr sg = Ok (self', y) ->
  parameters_dict self' = parameters_dict self.
Proof.
  unfold log_likelihood.
  destruct (pattern_generator self); simpl; [|discriminate].
  destruct (data_pattern self); simpl; [|discriminate].
  intros Heq. inversion Heq; subst. reflexivity.
Qed.

Lemma chi_square_call_parameters (self self' : fits) (v : list num)
    (enable_scale : bool) (y : option num) :
  chi_square_call self v enable_scale = Ok (self', y) ->
  parameters_dict self' = parameters_dict self.
Proof.
  unfold chi_square_call.
  destruct (rebuild_params _ _ _ _ _ _) as [l|e]; simpl; [|discriminate].
  do 8 (destruct l as [|? l]; [discriminate|]).
  destruct l; [|discriminate].
  apply chi_square_parameters.
Qed.

Lemma log_likelihood_call_parameters (self self' : fits) (v : list num)
    (enable_scale : bool) (y : option num) :
  log_likelihood_call self v enable_scale = Ok (self', y) ->
  parameters_dict self' = parameters_dict self.
Proof.
  unfold log_likelihood_call.
  destruct (rebuild_params _ _ _ _ _ _) as [l|e]; simpl; [|discriminate].
  do 8 (destruct l as [|? l]; [discriminate|]).
  destruct l; [|discriminate].
  apply log_likelihood_parameters.
Qed.

Lemma make_generator_parameters (self self' : fits) :
  make_generator self = Ok self' ->
  parameters_dict self' = parameters_dict self.
Proof.
  unfold make_generator. destruct (data_pattern self); simpl; [|discriminate].
  intros Heq. inversion Heq; subst. reflexivity.
Qed.

(** *** The write-back loop *)

(** Two dictionaries with the same configuration: the loop changes values
    only. *)
Definition same_config (d d0 : key -> parameter) : Prop :=
  forall k, use (d k) = use (d0 k) /\ scale (d k) = scale (d0 k) /\
            p0 (d k) = p0 (d0 k).

Lemma same_config_set_value (d d0 : key -> parameter) (k : key)
    (v : option num) :
  same_config d d0 -> same_config (set_value d k v) d0.
Proof.
  intros Hd k'. unfold set_value, dict_set.
  destruct (decide (k' = k)) as [->|]; [simpl|]; apply Hd.
Qed.

Lemma set_value_other (d : key -> parameter) (k k' : key) (v : option num) :
  k' <> k -> set_value d k v k' = d k'.
Proof. intros Hne. unfold set_value, dict_set. now rewrite decide_False. Qed.

Lemma set_value_same (d : key -> parameter) (k : key) (v : option num) :
  value (set_value d k v k) = v.
Proof. unfold set_value, dict_set. now rewrite decide_True. Qed.

Lemma write_back_spec (d0 : key -> parameter) :
  forall (keys pre : list key) (x : list num) (d : key -> parameter),
    NoDup (pre ++ keys) ->
    same_config d d0 ->
    (length (filter (fun k => use (d0 k) = true) (pre ++ keys))
     <= length x)%nat ->
    exists (x' : list num) (d' : key -> parameter),
      write_back keys (length (filter (fun k => use (d0 k) = true) pre)) x d
        = Ok (x', d') /\
      same_config d' d0 /\
      length x' = length x /\
      (forall j, (j < length (filter (fun k => use (d0 k) = true) pre))%nat ->
                 x' !! j = x !! j) /\
      (forall k, k ∉ keys -> d' k = d k) /\
      (forall k, k ∈ keys -> use (d0 k) = false ->
                 value (d' k) = Some (p0 (d0 k))) /\
      (forall k, k ∈ keys -> use (d0 k) = true ->
         exists xi : num,
           x !! length (filter (fun k => use (d0 k) = true)
                               (pre ++ keys_before k keys)) = Some xi /\
           value (d' k) = Some (nmul xi (scale (d0 k))) /\
           x' !! length (filter (fun k => use (d0 k) = true)
                                (pre ++ keys_before k keys))
             = Some (nmul xi (scale (d0 k)))).
Proof.
  intros keys.
  induction keys as [|k keys IH]; intros pre x d Hnd Hcfg Hlen.
  - exists x, d. simpl. repeat split; try assumption; try apply Hcfg.
    + intros k Hk. inversion Hk.
    + intros k Hk. inversion Hk.
  - assert (Hk_pre : k ∉ pre).
    { apply NoDup_app in Hnd as (_ & Hdisj & _). intros Hin.
      apply (Hdisj k Hin). now left. }
    assert (Hk_keys : k ∉ keys).
    { apply NoDup_app in Hnd as (_ & _ & Hkk).
      apply NoDup_cons in Hkk as [Hkk _]. exact Hkk. }
    assert (Hnd' : NoDup ((pre ++ [k]) ++ keys)).
    { now rewrite <- app_assoc. }
    assert (Hlen' : (length (filter (fun k => use (d0 k) = true)
                                    ((pre ++ [k]) ++ keys))
                     <= length x)%nat).
    { now rewrite <- app_assoc. }
    destruct (Hcfg k) as (Huse & Hscale & Hp0).
    simpl. rewrite Huse.
    destruct (use (d0 k)) eqn:Hfree.
    + (* a free parameter *)
      assert (Hdi : (length (filter (fun k => use (d0 k) = true) pre)
                     < length x)%nat).
      { rewrite filter_app, filter_cons_True, length_app in Hlen
          by exact Hfree.
        simpl in Hlen. lia. }
      destruct (lookup_lt_is_Some_2 x _ Hdi) as [xi Hxi].
      rewrite (index_Some _ _ _ Hxi). cbn [mbind result_bind].
      set (di := length (filter (fun k => use (d0 k) = true) pre)) in *.
      set (xi' := nmul xi (scale (d k))).
      assert (Hdi' : length (filter (fun k => use (d0 k) = true)
                                    (pre ++ [k])) = S di).
      { rewrite filter_app, filter_cons_True, length_app by exact Hfree.
        simpl. subst di. lia. }
      destruct (IH (pre ++ [k]) (<[di := xi']> x)
                   (set_value d k (Some xi')) Hnd'
                   (same_config_set_value _ _ _ _ Hcfg))
        as (x' & d' & Hrun & Hcfg' & Hlx & Hlow & Hout & Hfix & Hfr).
      { rewrite length_insert. exact Hlen'. }
      rewrite Hdi' in Hrun, Hlow.
      exists x', d'. split; [exact Hrun|]. split; [exact Hcfg'|].
      split; [now rewrite Hlx, length_insert|].
      split; [|split; [|split]].
      * intros j Hj. rewrite Hlow by lia.
        apply list_lookup_insert_ne. lia.
      * intros k' Hk'. rewrite Hout.
        -- apply set_value_other. intros ->. apply Hk'. now left.
        -- intros Hin. apply Hk'. now right.
      * intros k' Hk' Hk'free.
        apply elem_of_cons in Hk' as [->|Hk'].
        -- congruence.
        -- now apply Hfix.
      * intros k' Hk' Hk'free.
        apply elem_of_cons in Hk' as [->|Hk'].
        -- exists xi. simpl. rewrite decide_True by reflexivity.
           rewrite app_nil_r. fold di.
           split; [exact Hxi|].
           split.
           ++ rewrite Hout by exact Hk_keys.
              rewrite set_value_same. subst xi'. now rewrite Hscale.
           ++ rewrite Hlow by lia.
              rewrite list_lookup_insert_eq by exact Hdi.
              subst xi'. now rewrite Hscale.
        -- assert (Hne : k <> k') by (intros ->; contradiction).
           destruct (Hfr k' Hk' Hk'free) as (xj & Hxj & Hval & Hx').
           simpl. rewrite decide_False by exact Hne.
           replace (pre ++ k :: keys_before k' keys)
             with ((pre ++ [k]) ++ keys_before k' keys)
             by now rewrite <- app_assoc.
           exists xj. split; [|split; assumption].
           rewrite list_lookup_insert_ne in Hxj; [exact Hxj|].
           rewrite filter_app, length_app, Hdi'. lia.
    + (* a fixed parameter *)
      assert (Hdi' : length (filter (fun k => use (d0 k) = true)
                                    (pre ++ [k]))
                     = length (filter (fun k => use (d0 k) = true) pre)).
      { rewrite filter_app, filter_cons_False, filter_nil, app_nil_r
          by (rewrite Hfree; discriminate).
        reflexivity. }
      destruct (IH (pre ++ [k]) x (set_value d k (Some (p0 (d k)))) Hnd'
                   (same_config_set_value _ _ _ _ Hcfg) Hlen')
        as (x' & d' & Hrun & Hcfg' & Hlx & Hlow & Hout & Hfix & Hfr).
      rewrite Hdi' in Hrun, Hlow.
      exists x', d'. split; [exact Hrun|]. split; [exact Hcfg'|].
      split; [exact Hlx|]. split; [exact Hlow|].
      split; [|split].
      * intros k' Hk'. rewrite Hout.
        -- apply set_value_other. intros ->. apply Hk'. now left.
        -- intros Hin. apply Hk'. now right.
      * intros k' Hk' Hk'free.
        apply elem_of_cons in Hk' as [->|Hk'].
        -- rewrite Hout by exact Hk_keys.
           rewrite set_value_same. now rewrite Hp0.
        -- now apply Hfix.
      * intros k' Hk' Hk'free.
        apply elem_of_cons in Hk' as [->|Hk'].
        -- congruence.
        -- assert (Hne : k <> k') by (intros ->; contradiction).
           destruct (Hfr k' Hk' Hk'free) as (xj & Hxj & Hval & Hx').
           simpl. rewrite decide_False by exact Hne.
           replace (pre ++ k :: keys_before k' keys)
             with ((pre ++ [k]) ++ keys_before k' keys)
             by now rewrite <- app_assoc.
           exists xj. repeat split; assumption.
Qed.

(** *** The two drivers *)

Inductive driver : Type := Chi2 | Likelihood.

(** The registry a driver minimizes with: the likelihood driver first
    takes total_cts out of the free parameters. *)
Definition configured (dr : driver) (self : fits) : fits :=
  match dr with
  | Chi2 => self
  | Likelihood =>
      with_parameters_dict self
        (set_use (parameters_dict self) total_cts false)
  end.

Definition run_driver (dr : driver) (self : fits) : result fits :=
  match dr with
  | Chi2 => minimize_chi2 self
  | Likelihood => maximize_likelyhood self
  end.

Definition cost_of (dr : driver) (s : fits) (x : list num)
  : result (fits * option num) :=
  match dr with
  | Chi2 => chi_square_call s x true
  | Likelihood => log_likelihood_call s x true
  end.

Definition options_of (dr : driver) (s : fits) : fit_options :=
  match dr with
  | Chi2 => _chi2_fit_options s
  | Likelihood => _ml_fit_options s
  end.

(** The registry [after] holds the fitted values for the coordinates [x]
    returned by the optimizer: a free parameter its coordinate times its
    scale, a fixed parameter its configured value (p0), and no configured
    value has changed. *)
Definition written_back (before after : fits) (x : list num) : Prop :=
  forall k, k ∈ _parameters_order ->
    p0 (parameters_dict after k) = p0 (parameters_dict before k) /\
    use (parameters_dict after k) = use (parameters_dict before k) /\
    if use (parameters_dict before k)
    then exists xi : num,
           x !! reduced_index before k = Some xi /\
           value (parameters_dict after k)
             = Some (nmul xi (scale (parameters_dict before k)))
    else value (parameters_dict after k)
           = Some (p0 (parameters_dict before k)).

Lemma NoDup_parameters_order : NoDup _parameters_order.
Proof.
  apply (bool_decide_unpack (NoDup _parameters_order)).
  vm_compute. exact I.
Qed.

Lemma store_results_written_back (self s : fits) (res : OptimizeResult) :
  parameters_dict s = parameters_dict self ->
  length (res_x res) = length (free_keys self) ->
  exists self' : fits,
    store_results s res = Ok self' /\ written_back self self' (res_x res).
Proof.
  intros Hd Hlen.
  destruct (write_back_spec (parameters_dict self) _parameters_order []
              (res_x res) (parameters_dict s))
    as (x' & d' & Hrun & Hcfg & _ & _ & _ & Hfix & Hfr).
  - exact NoDup_parameters_order.
  - intros k. now rewrite Hd.
  - simpl. fold (free_keys self). lia.
  - rewrite filter_nil in Hrun. cbn [length] in Hrun.
    unfold store_results. rewrite Hrun. cbn [mbind result_bind].
    eexists. split; [reflexivity|].
    intros k Hk. simpl.
    destruct (Hcfg k) as (Huse & _ & Hp0).
    split; [exact Hp0|]. split; [exact Huse|].
    destruct (use (parameters_dict self k)) eqn:Hfree.
    + destruct (Hfr k Hk Hfree) as (xi & Hxi & Hval & _).
      exists xi. split; [exact Hxi | exact Hval].
    + now apply Hfix.
Qed.

(** C7.  When the optimizer returns, the driver (chi-square or likelihood)
    completes, and in the registry it leaves each free parameter's fitted
    value is the returned coordinate times the parameter's scale, while
    each fixed parameter's fitted value is its configured value. *)
Theorem driver_writes_back (dr : driver) (self self1 s : fits)
    (res : OptimizeResult) :
  make_generator (configured dr self) = Ok self1 ->
  run_search (cost_of dr) self1
    (op_minimize (_get_p0 (configured dr self))
                 (free_bounds (configured dr self))
                 (options_of dr self1))
    = Ok (s, res) ->
  length (res_x res) = length (free_keys (configured dr self)) ->
  exists self' : fits,
    run_driver dr self = Ok self' /\
    written_back (configured dr self) self' (res_x res).
Proof.
  intros Hgen Hrun Hlen.
  assert (Hd : parameters_dict s = parameters_dict (configured dr self)).
  { rewrite <- (make_generator_parameters _ _ Hgen).
    apply (run_search_invariant
             (fun s' => parameters_dict s' = parameters_dict self1)
             (cost_of dr)) with (t := op_minimize
                                        (_get_p0 (configured dr self))
                                        (free_bounds (configured dr self))
                                        (options_of dr self1))
                                (s := self1) (r := res);
      [|reflexivity|exact Hrun].
    intros s0 x s0' y Hs0 Hcost. rewrite <- Hs0.
    destruct dr; simpl in Hcost.
    - eapply chi_square_call_parameters; eassumption.
    - eapply log_likelihood_call_parameters; eassumption. }
  destruct (store_results_written_back _ s res Hd Hlen)
    as (self' & Hstore & Hwb).
  exists self'. split; [|exact Hwb].
  destruct dr; unfold cost_of, options_of, run_driver, configured in *.
  - unfold minimize_chi2. rewrite Hgen. cbn [mbind result_bind].
    rewrite Hrun. exact Hstore.
  - unfold maximize_likelyhood. rewrite Hgen. cbn [mbind result_bind].
    rewrite Hrun. exact Hstore.
Qed.

Lemma write_back_config (keys : list key) :
  forall (di : nat) (x x' : list num) (d d' : key -> parameter),
    write_back keys di x d = Ok (x', d') -> same_config d' d.
Proof.
  induction keys as [|k keys IH]; intros di x x' d d' Hrun; simpl in Hrun.
  - inversion Hrun; subst. intros k. repeat split.
  - destruct (use (d k)).
    + destruct (index x di) as [xi|e]; simpl in Hrun; [|discriminate].
      apply IH in Hrun. intros k'.
      destruct (Hrun k') as (Hu & Hs & Hp).
      destruct (same_config_set_value d d k (Some (nmul xi (scale (d k))))
                  (fun _ => conj eq_refl (conj eq_refl eq_refl)) k')
        as (Hu' & Hs' & Hp').
      repeat split; congruence.
    + apply IH in Hrun. intros k'.
      destruct (Hrun k') as (Hu & Hs & Hp).
      destruct (same_config_set_value d d k (Some (p0 (d k)))
                  (fun _ => conj eq_refl (conj eq_refl eq_refl)) k')
        as (Hu' & Hs' & Hp').
      repeat split; congruence.
Qed.

Lemma write_back_fixed (keys : list key) :
  forall (di : nat) (x x' : list num) (d d' : key -> parameter),
    NoDup keys ->
    write_back keys di x d = Ok (x', d') ->
    (forall k, k ∉ keys -> d' k = d k) /\
    (forall k, k ∈ keys -> use (d k) = false ->
               value (d' k) = Some (p0 (d k))).
Proof.
  induction keys as [|k keys IH]; intros di x x' d d' Hnd Hrun;
    simpl in Hrun.
  - inversion Hrun; subst. split; [reflexivity|].
    intros k Hk. inversion Hk.
  - apply NoDup_cons in Hnd as [Hk_keys Hnd].
    destruct (use (d k)) eqn:Huse.
    + destruct (index x di) as [xi|e]; simpl in Hrun; [|discriminate].
      destruct (IH _ _ _ _ _ Hnd Hrun) as (Hout & Hfix). split.
      * intros k' Hk'. rewrite Hout by (intros Hin; apply Hk'; now right).
        apply set_value_other. intros ->. apply Hk'. now left.
      * intros k' Hk' Hk'fix.
        apply elem_of_cons in Hk' as [->|Hk']; [congruence|].
        assert (Hne : k' <> k) by (intros ->; contradiction).
        rewrite Hfix; rewrite ?set_value_other by exact Hne; auto.
    + destruct (IH _ _ _ _ _ Hnd Hrun) as (Hout & Hfix). split.
      * intros k' Hk'. rewrite Hout by (intros Hin; apply Hk'; now right).
        apply set_value_other. intros ->. apply Hk'. now left.
      * intros k' Hk' Hk'fix.
        apply elem_of_cons in Hk' as [->|Hk'].
        -- rewrite Hout by exact Hk_keys. now rewrite set_value_same.
        -- assert (Hne : k' <> k) by (intros ->; contradiction).
           rewrite Hfix; rewrite ?set_value_other by exact Hne; auto.
Qed.

(** C3 (as the code has it).  A log-likelihood evaluation asks the
    generator for the pattern with total_counts = 1 and returns minus the
    sum of [observed * log(synthetic)] over the cells that are unmasked in
    both patterns and whose synthetic value is positive: the logarithm of
    a masked array masks every cell that is [<= 0], so such a cell is left
    out, and with no cell left the score is the constant
    [numpy.ma.masked].  The likelihood driver takes total_cts out of the
    free parameters before it builds the reduced start vector, so that
    vector has no total_cts coordinate, and total_cts is still not free
    (and is reported at its configured value) when the driver returns. *)
Theorem likelihood_mode (self : fits) (dx' dy' phi' : num)
    (fractions_sims : list num) (sigma' : num) :
  match log_likelihood self dx' dy' phi' fractions_sims sigma' with
  | Ok (self', score) =>
      exists (gen : generator) (data : pattern),
        pattern_generator self = Some gen /\
        data_pattern self = Some data /\
        let sim := make_pattern gen dx' dy' phi'
                     (nsub n1 (foldl nadd n0 fractions_sims)
                      :: fractions_sims)
                     n1 sigma' ideal in
        self' = with_sim_pattern self sim /\
        score = match List.filter (fun c => negb (nle (snd c) n0))
                                  (valid_cells data sim) with
                | [] => None
                | cells =>
                    Some (nneg (foldl nadd n0
                                  (map (fun c => nmul (fst c) (nlog (snd c)))
                                       cells)))
                end
  | Raise e =>
      (e = AttributeError /\ pattern_generator self = None) \/
      (e = TypeError /\ data_pattern self = None)
  end /\
  let forced := with_parameters_dict self
                  (set_use (parameters_dict self) total_cts false) in
  use (parameters_dict forced total_cts) = false /\
  (total_cts ∉ free_keys forced) /\
  length (_get_p0 forced) = length (free_keys forced) /\
  maximize_likelyhood self
    = (self1 ← make_generator forced;
       '(s, res) ← run_search (fun s x => log_likelihood_call s x true) self1
                     (op_minimize (_get_p0 forced) (free_bounds forced)
                                  (_ml_fit_options self1));
       store_results s res) /\
  forall self' : fits,
    maximize_likelyhood self = Ok self' ->
    use (parameters_dict self' total_cts) = false /\
    value (parameters_dict self' total_cts)
      = Some (p0 (parameters_dict self total_cts)).
Proof.
  split.
  { unfold log_likelihood.
    destruct (pattern_generator self) as [gen|] eqn:Hgen; simpl.
    - destruct (data_pattern self) as [data|] eqn:Hdata; simpl.
      + exists gen, data. repeat split. rewrite likelihood_cells.
        unfold np_sum. fold likelihood_kept.
        destruct (List.filter likelihood_kept _); reflexivity.
      + right. split; reflexivity.
    - left. split; reflexivity. }
  cbv zeta.
  set (forced := with_parameters_dict self
                   (set_use (parameters_dict self) total_cts false)).
  assert (Hforced : use (parameters_dict forced total_cts) = false).
  { reflexivity. }
  split; [exact Hforced|].
  split.
  { unfold free_keys. intros Hin. apply list_elem_of_filter in Hin as [Hu _].
    rewrite Hforced in Hu. discriminate. }
  split.
  { unfold _get_p0, free_keys. now rewrite length_map. }
  split; [reflexivity|].
  intros self' Hmax.
  unfold maximize_likelyhood in Hmax. fold forced in Hmax.
  destruct (make_generator forced) as [self1|e] eqn:Hgen;
    cbn [mbind result_bind] in Hmax; [|discriminate].
  destruct (run_search _ self1 _) as [[s res]|e] eqn:Hrun;
    cbn [mbind result_bind] in Hmax; [|discriminate].
  assert (Hd : parameters_dict s = parameters_dict forced).
  { rewrite <- (make_generator_parameters _ _ Hgen).
    apply (run_search_invariant
             (fun s' => parameters_dict s' = parameters_dict self1) _
             (fun s0 x s0' y Hs0 Hcost =>
                eq_trans (log_likelihood_call_parameters _ _ _ _ _ Hcost)
                         Hs0)
             _ _ _ _ eq_refl Hrun). }
  unfold store_results in Hmax.
  destruct (write_back _ _ _ _) as [[x' d']|e] eqn:Hwb;
    cbn [mbind result_bind] in Hmax; [|discriminate].
  inversion Hmax; subst self'. simpl.
  pose proof (write_back_config _ _ _ _ _ _ Hwb total_cts)
    as (Hu & _ & Hp).
  rewrite Hd in Hu, Hp. split; [now rewrite Hu|].
  destruct (write_back_fixed _ _ _ _ _ _ NoDup_parameters_order Hwb)
    as (_ & Hfix).
  rewrite (Hfix total_cts).
  - rewrite Hd. reflexivity.
  - unfold _parameters_order. rewrite !elem_of_cons. tauto.
  - rewrite Hd. exact Hforced.
Qed.

(** *** The error estimate *)










End Theory.
End FitsTheory.

(** * The fit engine on concrete inputs *)

Module FitsExamples.
Import Fits FitsTheory Concrete.
#[local] Open Scope Q_scope.
#[local] Existing Instance xq_numeric.
#[local] Existing Instance toy_engine.

(** The reduced vector (1, 4) stands for dx = 1 * 2 and f_p1 = 4 * 0.1:
    the generator gets the fractions (0.6, 0.4) and 100 events, and the
    Pearson statistic against the data (70, 20) is 100/60 + 400/40. *)
Example chi_square_call_example :
  match chi_square_call toy_fits [qz 1; qz 4] true with
  | Ok (self', score) => Some (sim_pattern self', score)
  | Raise _ => None
  end = Some (Some [Some (qz 60); Some (qz 40)], Some (Some (35 # 3))).
Proof. vm_compute. reflexivity. Qed.

Lemma cost_call_reconstructs_witness :
  length [qz 1; qz 4] = length (free_keys toy_fits) /\
  exists dx' dy' phi' total_cts' sigma' f1 f2 f3 : xq,
    physical_value toy_fits [qz 1; qz 4] true dx = Some dx' /\
    physical_value toy_fits [qz 1; qz 4] true dy = Some dy' /\
    physical_value toy_fits [qz 1; qz 4] true phi = Some phi' /\
    physical_value toy_fits [qz 1; qz 4] true total_cts = Some total_cts' /\
    physical_value toy_fits [qz 1; qz 4] true sigma = Some sigma' /\
    physical_value toy_fits [qz 1; qz 4] true f_p1 = Some f1 /\
    physical_value toy_fits [qz 1; qz 4] true f_p2 = Some f2 /\
    physical_value toy_fits [qz 1; qz 4] true f_p3 = Some f3 /\
    exists chi2 ll : option xq,
      chi_square_call toy_fits [qz 1; qz 4] true
        = Ok (with_sim_pattern toy_fits
                (toy_make_pattern tt dx' dy' phi'
                   [xq_lift2 Qminus (qz 1) (xq_lift2 Qplus (qz 0) f1); f1]
                   total_cts' sigma' ideal), chi2) /\
      log_likelihood_call toy_fits [qz 1; qz 4] true
        = Ok (with_sim_pattern toy_fits
                (toy_make_pattern tt dx' dy' phi'
                   [xq_lift2 Qminus (qz 1) (xq_lift2 Qplus (qz 0) f1); f1]
                   (qz 1) sigma' ideal), ll).
Proof.
  split; [reflexivity|].
  exact (cost_call_reconstructs_parameters toy_fits [qz 1; qz 4] true
           eq_refl).
Defined.

(** The values behind the witness: dx = 2, f_p1 = 2/5, so that the
    background fraction is 3/5 and the generator makes the pattern
    (60, 40) of 100 events. *)
Example cost_call_reconstructs_values :
  physical_value toy_fits [qz 1; qz 4] true dx = Some (qz 2) /\
  physical_value toy_fits [qz 1; qz 4] true f_p1 = Some (Some (2 # 5)) /\
  physical_value toy_fits [qz 1; qz 4] true total_cts = Some (qz 100) /\
  toy_make_pattern tt (qz 2) (qz 3) (qz 5) [Some (3 # 5); Some (2 # 5)]
                   (qz 100) (qz 0) ideal
  = [Some (qz 60); Some (qz 40)].
Proof. vm_compute. repeat split. Qed.

(** With the coordinate of f_p1 at 0 the second synthetic cell is exactly
    zero: the masked division leaves the cell out, and the score is the
    term of the first cell, (70 - 100)^2 / 100. *)
Example chi_square_call_zero_cell :
  match chi_square_call toy_fits [qz 1; qz 0] true with
  | Ok (self', score) => Some (sim_pattern self', score)
  | Raise _ => None
  end = Some (Some [Some (qz 100); Some (qz 0)], Some (qz 9)).
Proof. vm_compute. reflexivity. Qed.

(** When the division leaves no cell, the score is [numpy.ma.masked]. *)
Example pearson_chi2_all_masked :
  pearson_chi2 toy_data [Some (qz 0); None] = None /\
  pearson_chi2 [] [] = None.
Proof. split; vm_compute; reflexivity. Qed.

Lemma xq_sum_eq (a b c : Q) :
  xq_lift2 Qplus (Some a) (Some b) = Some c -> a + b == c.
Proof.
  unfold xq_lift2. intros Heq. inversion Heq as [Hred].
  now rewrite Qred_correct.
Qed.

(** With a floor between 0 and 1 under the synthetic values, the cell
    whose synthetic value is zero adds (20 - floor)^2 / floor to the
    statistic, which is not zero. *)
Lemma clamped_chi2_counts_zero_cell (floor : Q) :
  0 < floor -> floor <= 1 ->
  clamped_pearson_chi2 (Some floor) toy_data [Some (qz 100); Some (qz 0)]
  <> qz 9.
Proof.
  intros Hpos Hle.
  assert (H0 : xq_lt (qz 0) (Some floor) = true).
  { pose proof (proj1 (Qlt_alt 0 floor) Hpos) as Hcmp.
    unfold xq_lt, qz. change (inject_Z 0) with 0. now rewrite Hcmp. }
  assert (H100 : xq_lt (qz 100) (Some floor) = false).
  { assert (Hgt : floor < 100) by lra.
    pose proof (proj1 (Qgt_alt 100 floor) Hgt) as Hcmp.
    unfold xq_lt, qz. change (inject_Z 100) with 100. now rewrite Hcmp. }
  unfold clamped_pearson_chi2, toy_data.
  cbn [valid_cells map foldl fst snd nlt xq_numeric].
  rewrite H0, H100.
  change (nadd n0 (@pearson_term xq_numeric (qz 70, qz 100))) with (qz 9).
  unfold pearson_term.
  cbn [ndiv nsquare nsub nabs nadd xq_numeric fst snd xq_lift1 qz].
  unfold xq_lift2 at 2. unfold xq_lift1, xq_div, qz.
  destruct (Qeq_bool (Qred (Qabs floor)) 0) eqn:Hz; [discriminate|].
  intros Heq. apply xq_sum_eq in Heq.
  rewrite !Qred_correct in Heq.
  rewrite Qabs_pos in Heq by lra.
  change (inject_Z 9) with 9 in Heq. change (inject_Z 20) with 20 in Heq.
  assert (Hquot : (20 - floor) * (20 - floor) / floor == 0) by lra.
  unfold Qdiv in Hquot.
  apply Qmult_integral in Hquot as [Hnum | Hinv].
  - apply Qmult_integral in Hnum as [Hnum | Hnum]; lra.
  - assert (Hone : floor * / floor == 1) by (apply Qmult_inv_r; lra).
    rewrite Hinv in Hone. lra.
Qed.

(** Against C2 as stated: on a synthetic pattern with a cell that is
    exactly zero the evaluation leaves that cell out and returns the term
    of the other cell, 9, while the statistic with a small positive floor
    under the synthetic values counts the cell and is not 9, whatever the
    floor. *)
Lemma chi_square_skips_zero_cell :
  (exists self' : fits,
     chi_square_call toy_fits [qz 1; qz 0] true = Ok (self', Some (qz 9)) /\
     sim_pattern self' = Some [Some (qz 100); Some (qz 0)]) /\
  (forall floor : Q, 0 < floor -> floor <= 1 ->
     clamped_pearson_chi2 (Some floor) toy_data
       [Some (qz 100); Some (qz 0)] <> qz 9).
Proof.
  split.
  - exists (with_sim_pattern toy_fits [Some (qz 100); Some (qz 0)]).
    split; reflexivity.
  - exact clamped_chi2_counts_zero_cell.
Qed.

(** Against C3 as stated: with the whole pattern in site 1 the background
    probability is zero; the evaluation leaves that cell out and returns
    -(20 * log 1) = 0, while the sum over all valid cells has the term
    70 * log 0 and is not 0. *)
Lemma log_likelihood_skips_nonpositive_cell :
  (exists self' : fits,
     log_likelihood_call toy_fits [qz 1; qz 10] true
       = Ok (self', Some (qz 0)) /\
     sim_pattern self' = Some [Some (qz 0); Some (qz 1)]) /\
  unrestricted_log_likelihood toy_data [Some (qz 0); Some (qz 1)] <> qz 0.
Proof.
  split.
  - exists (with_sim_pattern toy_fits [Some (qz 0); Some (qz 1)]).
    split; reflexivity.
  - vm_compute. discriminate.
Qed.

(** The likelihood of the same point: the generator is asked for one
    event, and total_cts, free in this registry, is no longer free after
    the likelihood driver has run. *)
Example log_likelihood_call_example :
  match log_likelihood_call toy_fits [qz 1; qz 4] true with
  | Ok (self', _) => sim_pattern self'
  | Raise _ => None
  end = Some [Some (Some (3 # 5)); Some (Some (2 # 5))].
Proof. vm_compute. reflexivity. Qed.

Example maximize_likelyhood_example :
  use (parameters_dict toy_fits_counts total_cts) = true /\
  match maximize_likelyhood toy_fits_counts with
  | Ok self' =>
      Some (map (fun k => (use (parameters_dict self' k),
                           value (parameters_dict self' k)))
                [dx; total_cts; f_p1])
  | Raise _ => None
  end = Some [(true, Some (qz 3)); (false, Some (qz 100));
              (true, Some (Some (7 # 20)))].
Proof. split; vm_compute; reflexivity. Qed.

(** The chi-square driver on the toy registry: the optimizer returns the
    coordinates (3/2, 7/2); dx, of scale 2, is reported as 3 and f_p1, of
    scale 1/10, as 7/20; the fixed dy keeps its 3. *)
Example minimize_chi2_example :
  match minimize_chi2 toy_fits with
  | Ok self' =>
      Some (map (fun k => value (parameters_dict self' k)) [dx; dy; f_p1])
  | Raise _ => None
  end = Some [Some (qz 3); Some (qz 3); Some (Some (7 # 20))].
Proof. vm_compute. reflexivity. Qed.

Lemma driver_writes_back_witness :
  exists (self1 s : fits) (res : OptimizeResult),
    make_generator (configured Chi2 toy_fits) = Ok self1 /\
    run_search (cost_of Chi2) self1
      (op_minimize (_get_p0 (configured Chi2 toy_fits))
                   (free_bounds (configured Chi2 toy_fits))
                   (options_of Chi2 self1))
      = Ok (s, res) /\
    length (res_x res) = length (free_keys (configured Chi2 toy_fits)) /\
    exists self' : fits,
      run_driver Chi2 toy_fits = Ok self' /\
      written_back (configured Chi2 toy_fits) self' (res_x res).
Proof.
  eexists _, _, _.
  split; [reflexivity|].
  split; [reflexivity|].
  split; [reflexivity|].
  eapply driver_writes_back.
  - reflexivity.
  - reflexivity.
  - reflexivity.
Defined.

(** The error estimate on the toy registry: the Hessian is diag(8, 8),
    half of it is inverted to diag(1/4, 1/4), and the standard errors are
    1/2 times the scales 2 and 1/10. *)
Example get_variance_example :
  match get_variance_from_hessian toy_fits (Floats [qz 2; Some (2 # 5)])
          true "chi_square" with
  | Ok (_, var) => Some var
  | Raise _ => None
  end = Some [qz 1; Some (1 # 20)].
Proof. vm_compute. reflexivity. Qed.

(** With no curvature the inverse does not exist and the call raises. *)
Example get_variance_singular :
  match get_variance_from_hessian toy_fits_flat
          (Floats [qz 2; Some (2 # 5)]) true "chi_square" with
  | Ok (_, var) => Some (Some var)
  | Raise LinAlgError => Some None
  | Raise _ => None
  end = Some None.
Proof. vm_compute. reflexivity. Qed.


End FitsExamples.

(** * Properties of the orchestrator (fitmanager.py) *)

Module FitManagerTheory.
Import FitManager.
Section Theory.
Context `{FitCollaborators}.

(** The cartesian product of the candidate lists, first slot slowest. *)
Fixpoint product (patterns_list : list (list Z)) : list (list Z) :=
  match patterns_list with
  | [] => [[]]
  | p :: rest => concat (map (fun s => map (cons s) (product rest)) p)
  end.

(** One fit per site selection, in order, until one raises. *)
Definition fit_each (get_errors pass_results : bool) (verbose : Z)
    (sites : list Z) (combos : list (list Z)) (self : manager) : outcome :=
  for_each combos
    (fun combo s =>
       _single_fit s (sites ++ combo) get_errors pass_results verbose false)
    self.

Lemma returned_manager_of (o : outcome) :
  exception_of o = None -> o = Returned (manager_of o).
Proof. destruct o; [reflexivity | discriminate]. Qed.

Lemma raised_manager_of (o : outcome) (e : exn) :
  exception_of o = Some e -> o = Raised e (manager_of o).
Proof. destruct o; [discriminate|]. intros Heq. now inversion Heq. Qed.

Lemma for_each_app {A : Type} (xs ys : list A)
    (body : A -> manager -> outcome) (self : manager) :
  for_each (xs ++ ys) body self
  = match for_each xs body self with
    | Returned self' => for_each ys body self'
    | Raised e self' => Raised e self'
    end.
Proof.
  revert self. induction xs as [|x xs IH]; intros self; simpl.
  - reflexivity.
  - destruct (body x self); [apply IH | reflexivity].
Qed.

Lemma for_each_map {A B : Type} (f : A -> B) (xs : list A)
    (body : B -> manager -> outcome) (self : manager) :
  for_each (map f xs) body self = for_each xs (fun x => body (f x)) self.
Proof.
  revert self. induction xs as [|x xs IH]; intros self; simpl.
  - reflexivity.
  - destruct (body (f x) self); [apply IH | reflexivity].
Qed.

Lemma for_each_ext {A : Type} (xs : list A)
    (body body' : A -> manager -> outcome) (self : manager) :
  (forall x s, body x s = body' x s) ->
  for_each xs body self = for_each xs body' self.
Proof.
  intros Hext. revert self.
  induction xs as [|x xs IH]; intros self; simpl.
  - reflexivity.
  - rewrite Hext. destruct (body' x self); [apply IH | reflexivity].
Qed.

Lemma for_each_concat {A : Type} (ls : list (list A))
    (body : A -> manager -> outcome) (self : manager) :
  for_each (concat ls) body self
  = for_each ls (fun l => for_each l body) self.
Proof.
  revert self. induction ls as [|l ls IH]; intros self.
  - reflexivity.
  - simpl. rewrite for_each_app.
    destruct (for_each l body self); [apply IH | reflexivity].
Qed.

(** The recursion of [run_fits] is a single loop over the product. *)
Lemma recursive_call_product (get_errors pass_results : bool) (verbose : Z)
    (patterns_list : list (list Z)) :
  forall (sites : list Z) (self : manager),
    recursive_call get_errors pass_results verbose patterns_list sites self
    = fit_each get_errors pass_results verbose sites (product patterns_list)
               self.
Proof.
  unfold fit_each.
  induction patterns_list as [|p rest IH]; intros sites self.
  - simpl. rewrite app_nil_r.
    now destruct (_single_fit self sites get_errors pass_results verbose
                              false).
  - cbn [recursive_call product]. rewrite for_each_concat, for_each_map.
    apply for_each_ext. intros s st. rewrite IH, for_each_map.
    apply for_each_ext. intros combo st'.
    now rewrite <- app_assoc.
Qed.

Lemma length_product (patterns_list : list (list Z)) :
  length (product patterns_list)
  = foldr (fun p n => (length p * n)%nat) 1%nat patterns_list.
Proof.
  induction patterns_list as [|p rest IH]; [reflexivity|].
  cbn [product foldr]. rewrite <- IH. clear IH.
  induction p as [|x p IHp]; [reflexivity|].
  cbn [map concat]. rewrite length_app, length_map, IHp. reflexivity.
Qed.

Lemma product_one (b : list Z) : product [b] = map (fun y => [y]) b.
Proof.
  induction b as [|y b IH]; [reflexivity|].
  simpl in *. now f_equal.
Qed.

(** Row-major order for two slots: the selection (a[i], b[j]) is the
    one numbered i * len(b) + j. *)
Lemma product_two_lookup (a b : list Z) (i j : nat) (x y : Z) :
  a !! i = Some x -> b !! j = Some y ->
  product [a; b] !! (i * length b + j)%nat = Some [x; y].
Proof.
  change (product [a; b])
    with (concat (map (fun s => map (cons s) (product [b])) a)).
  rewrite product_one. revert i.
  induction a as [|x0 a IH]; intros i Hx Hy; [discriminate|].
  cbn [map concat]. destruct i as [|i].
  - simpl in Hx. inversion Hx; subst x0.
    rewrite lookup_app_l
      by (rewrite !length_map; now apply lookup_lt_Some in Hy).
    rewrite map_map, list_lookup_fmap. simpl. rewrite Hy. reflexivity.
  - rewrite lookup_app_r by (rewrite !length_map; simpl; lia).
    rewrite !length_map.
    replace (S i * length b + j - length b)%nat
      with (i * length b + j)%nat by (simpl; lia).
    now apply IH.
Qed.

(** *** One combination *)

(** The settings of a manager that fitting never changes. *)
Definition same_settings (self self' : manager) : Prop :=
  _n_sites self' = _n_sites self /\
  _sub_pixels self' = _sub_pixels self /\
  _cost_function self' = _cost_function self /\
  _fit_options self' = _fit_options self /\
  parameter_keys self' = parameter_keys self /\
  _scale self' = _scale self /\
  _bounds self' = _bounds self /\
  p_initial_values self' = p_initial_values self /\
  p_fixed_values self' = p_fixed_values self /\
  dp_pattern self' = dp_pattern self /\
  lib self' = lib self /\
  warned self' = warned self.

Lemma same_settings_refl (self : manager) : same_settings self self.
Proof. repeat split. Qed.

Lemma same_settings_trans (s1 s2 s3 : manager) :
  same_settings s1 s2 -> same_settings s2 s3 -> same_settings s1 s3.
Proof.
  unfold same_settings. intros H12 H23.
  destruct H12 as (?&?&?&?&?&?&?&?&?&?&?&?).
  destruct H23 as (?&?&?&?&?&?&?&?&?&?&?&?).
  repeat split; congruence.
Qed.

(** The cost of a fit object: [ft.results['fun']]. *)
Definition cost (ft : Fit) : num := res_fun (Fit_results ft).

Lemma fill_horizontal_ok (self self1 : manager) (ft : Fit)
    (get_errors : bool) (sites : list Z) :
  _fill_horizontal_results_dict self ft get_errors sites = Ok self1 ->
  exists infos : list site_info,
    self1 = with_tables self
              (df_horizontal self ++ [mk_row ft get_errors sites infos])
              (df_vertical self).
Proof.
  unfold _fill_horizontal_results_dict. intros Hfill.
  destruct (dp_pattern self); simpl in Hfill; [|discriminate].
  destruct (match take (_n_sites self) sites with
            | [] => Ok []
            | _ => _
            end) as [infos|]; simpl in Hfill; [|discriminate].
  exists infos. now inversion Hfill.
Qed.

Lemma fill_vertical_ok (self self1 : manager) (ft : Fit)
    (get_errors : bool) (sites : list Z) :
  _fill_vertical_results_dict self ft get_errors sites = Ok self1 ->
  exists vrows : list vrow,
    self1 = with_tables self (df_horizontal self)
              (df_vertical self ++ vrows).
Proof.
  unfold _fill_vertical_results_dict. intros Hfill.
  destruct (dp_pattern self); simpl in Hfill; [|discriminate].
  destruct (match take (_n_sites self) sites with
            | [] => Ok []
            | _ => _
            end) as [infos|]; simpl in Hfill; [|discriminate].
  eexists. now inversion Hfill.
Qed.

(** A combination that completes appends one row for its sites, becomes
    the last fit, competes for the best fit and clears the current-fit
    handle. *)
Lemma single_fit_returned (self self' : manager) (sites : list Z)
    (get_errors pass_results : bool) (verbose : Z) (verbose_graphics : bool) :
  _single_fit self sites get_errors pass_results verbose verbose_graphics
    = Returned self' ->
  exists (ft : Fit) (infos : list site_info),
    length sites = _n_sites self /\
    df_horizontal self'
      = df_horizontal self ++ [mk_row ft get_errors sites infos] /\
    last_fit self' = Some ft /\
    current_fit_obj self' = None /\
    min_value self' = min_value (keep_best_fit self ft) /\
    best_fit self' = best_fit (keep_best_fit self ft) /\
    same_settings self self'.
Proof.
  unfold _single_fit. intros Hfit.
  destruct (decide (length sites <> _n_sites self)) as [|Hlen];
    [discriminate|].
  apply dec_stable in Hlen.
  destruct (dp_pattern self) as [dp|] eqn:Hdp; [|discriminate].
  destruct (_build_fits_obj self sites verbose_graphics pass_results)
    as [ft0|]; simpl in Hfit; [|discriminate].
  destruct (Fit_minimize_cost_function ft0 _) as [ft1|]; simpl in Hfit;
    [|discriminate].
  destruct (if get_errors then _ else _) as [ft2|]; simpl in Hfit;
    [|discriminate].
  destruct (_fill_horizontal_results_dict _ ft2 get_errors sites)
    as [s1|] eqn:Hh; simpl in Hfit; [|discriminate].
  destruct (_fill_vertical_results_dict s1 ft2 get_errors sites)
    as [s2|] eqn:Hv; simpl in Hfit; [|discriminate].
  apply fill_horizontal_ok in Hh as (infos & ->).
  apply fill_vertical_ok in Hv as (vrows & ->).
  inversion Hfit; subst self'; clear Hfit.
  exists ft2, infos. split; [exact Hlen|].
  unfold keep_best_fit.
  destruct ((0 <? verbose)%Z && negb (done_param_verbose _));
    simpl; destruct (min_value self) as [m|]; simpl;
    try destruct (nlt (res_fun (Fit_results ft2)) m); simpl;
    repeat split; reflexivity.
Qed.

(** A combination that raises leaves the minimum, the best fit and the
    last fit as they were; at most its own row was added to the horizontal
    table before the exception. *)
Lemma single_fit_raised (self s_err : manager) (e : exn) (sites : list Z)
    (get_errors pass_results : bool) (verbose : Z) (verbose_graphics : bool) :
  _single_fit self sites get_errors pass_results verbose verbose_graphics
    = Raised e s_err ->
  min_value s_err = min_value self /\
  best_fit s_err = best_fit self /\
  last_fit s_err = last_fit self /\
  (df_horizontal s_err = df_horizontal self \/
   exists r : row,
     df_horizontal s_err = df_horizontal self ++ [r] /\
     row_sites r = sites) /\
  same_settings self s_err.
Proof.
  unfold _single_fit. intros Hfit.
  destruct (decide (length sites <> _n_sites self)) as [|Hlen].
  { inversion Hfit; subst. repeat split. now left. }
  destruct (dp_pattern self) as [dp|] eqn:Hdp.
  2:{ inversion Hfit; subst. repeat split. now left. }
  destruct (_build_fits_obj self sites verbose_graphics pass_results)
    as [ft0|]; simpl in Hfit.
  2:{ inversion Hfit; subst. repeat split. now left. }
  destruct (Fit_minimize_cost_function ft0 _) as [ft1|]; simpl in Hfit.
  2:{ inversion Hfit; subst.
      destruct ((0 <? verbose)%Z && negb (done_param_verbose _));
        repeat split; now left. }
  destruct (if get_errors then _ else _) as [ft2|]; simpl in Hfit.
  2:{ inversion Hfit; subst.
      destruct ((0 <? verbose)%Z && negb (done_param_verbose _));
        repeat split; now left. }
  destruct (_fill_horizontal_results_dict _ ft2 get_errors sites)
    as [s1|] eqn:Hh; simpl in Hfit.
  2:{ inversion Hfit; subst.
      destruct ((0 <? verbose)%Z && negb (done_param_verbose _));
        repeat split; now left. }
  destruct (_fill_vertical_results_dict s1 ft2 get_errors sites)
    as [s2|] eqn:Hv; simpl in Hfit; [discriminate|].
  apply fill_horizontal_ok in Hh as (infos & ->).
  inversion Hfit; subst.
  destruct ((0 <? verbose)%Z && negb (done_param_verbose _));
    repeat split; right; eexists; split; reflexivity.
Qed.

(** *** A sweep that completes *)

(** The running minimum and the best fit after one more fit. *)
Definition keep_step (st : option num * option Fit) (ft : Fit)
  : option num * option Fit :=
  match fst st with
  | None => (Some (cost ft), Some ft)
  | Some m => if nlt (cost ft) m then (Some (cost ft), Some ft) else st
  end.

Lemma keep_best_fit_step (self : manager) (ft : Fit) :
  (min_value (keep_best_fit self ft), best_fit (keep_best_fit self ft))
  = keep_step (min_value self, best_fit self) ft.
Proof.
  unfold keep_best_fit, keep_step, cost. simpl.
  destruct (min_value self) as [m|] eqn:Hm; [|reflexivity].
  destruct (nlt (res_fun (Fit_results ft)) m); [reflexivity|].
  now rewrite Hm.
Qed.

(** The last fit after the fits [fts], when it was [l] before. *)
Definition last_after (l : option Fit) (fts : list Fit) : option Fit :=
  match last fts with
  | Some ft => Some ft
  | None => l
  end.

Lemma last_after_cons (l : option Fit) (ft : Fit) (fts : list Fit) :
  last_after l (ft :: fts) = last_after (Some ft) fts.
Proof.
  unfold last_after. destruct fts as [|ft' fts]; [reflexivity|].
  rewrite last_cons_cons.
  destruct (last (ft' :: fts)) eqn:Hl; [reflexivity|].
  apply last_None in Hl. discriminate.
Qed.

Lemma fit_each_returned (get_errors pass_results : bool) (verbose : Z)
    (sites : list Z) (combos : list (list Z)) :
  forall self self' : manager,
    fit_each get_errors pass_results verbose sites combos self
      = Returned self' ->
    exists rows : list row,
      df_horizontal self' = df_horizontal self ++ rows /\
      map row_sites rows = map (app sites) combos /\
      (min_value self', best_fit self')
        = foldl keep_step (min_value self, best_fit self)
                (map row_fit rows) /\
      last_fit self' = last_after (last_fit self) (map row_fit rows) /\
      same_settings self self'.
Proof.
  unfold fit_each.
  induction combos as [|combo combos IH]; intros self self' Hrun;
    simpl in Hrun.
  - inversion Hrun; subst. exists []. rewrite app_nil_r.
    repeat split.
  - destruct (_single_fit self (sites ++ combo) get_errors pass_results
                          verbose false) as [s1|e s1] eqn:Hfit;
      [|discriminate].
    apply single_fit_returned in Hfit
      as (ft & infos & _ & Hrows & Hlast & _ & Hmin & Hbest & Hset).
    apply IH in Hrun as (rows & Hrows' & Hsites & Hkeep & Hlast' & Hset').
    exists (mk_row ft get_errors (sites ++ combo) infos :: rows).
    split; [now rewrite Hrows', Hrows, <- app_assoc|].
    split; [simpl; now rewrite Hsites|].
    split.
    { simpl. rewrite Hkeep, Hmin, Hbest. now rewrite keep_best_fit_step. }
    split.
    { rewrite Hlast', Hlast. simpl. now rewrite last_after_cons. }
    eapply same_settings_trans; eassumption.
Qed.

(** The running minimum over a list of fits, for an order that is
    irreflexive and transitive: it is the cost of a fit of the list that
    no fit of the list undercuts. *)
Section RunningBest.
Hypothesis nlt_irrefl : forall a : num, nlt a a = false.
Hypothesis nlt_trans :
  forall a b c : num, nlt a b = true -> nlt b c = true -> nlt a c = true.

Lemma foldl_keep_step_best (fts : list Fit) :
  forall (pre : list Fit) (b : Fit) (i0 : nat),
    pre !! i0 = Some b ->
    (forall ft, ft ∈ pre -> nlt (cost ft) (cost b) = false) ->
    exists (i : nat) (b' : Fit),
      (pre ++ fts) !! i = Some b' /\
      foldl keep_step (Some (cost b), Some b) fts
        = (Some (cost b'), Some b') /\
      forall ft, ft ∈ pre ++ fts -> nlt (cost ft) (cost b') = false.
Proof.
  induction fts as [|ft fts IH]; intros pre b i0 Hb Hmin.
  - exists i0, b. rewrite app_nil_r. repeat split; assumption.
  - simpl. unfold keep_step at 2. simpl.
    replace (pre ++ ft :: fts) with ((pre ++ [ft]) ++ fts)
      by now rewrite <- app_assoc.
    destruct (nlt (cost ft) (cost b)) eqn:Hlt.
    + apply (IH (pre ++ [ft]) ft (length pre)).
      * rewrite lookup_app_r by lia. now rewrite Nat.sub_diag.
      * intros ft' Hin. apply elem_of_app in Hin as [Hin|Hin].
        -- destruct (nlt (cost ft') (cost ft)) eqn:Hlt'; [|reflexivity].
           rewrite <- (Hmin ft' Hin). symmetry.
           eapply nlt_trans; eassumption.
        -- apply list_elem_of_singleton in Hin as ->. apply nlt_irrefl.
    + apply (IH (pre ++ [ft]) b i0).
      * now apply lookup_app_l_Some.
      * intros ft' Hin. apply elem_of_app in Hin as [Hin|Hin].
        -- now apply Hmin.
        -- now apply list_elem_of_singleton in Hin as ->.
Qed.

Lemma foldl_keep_step_from_none (o : option Fit) (fts : list Fit) :
  fts <> [] ->
  exists (i : nat) (b : Fit),
    fts !! i = Some b /\
    foldl keep_step (None, o) fts = (Some (cost b), Some b) /\
    forall ft, ft ∈ fts -> nlt (cost ft) (cost b) = false.
Proof.
  destruct fts as [|ft fts]; [congruence|]. intros _.
  simpl. unfold keep_step at 2. simpl.
  apply (foldl_keep_step_best fts [ft] ft 0%nat).
  - reflexivity.
  - intros ft' Hin. apply list_elem_of_singleton in Hin as ->.
    apply nlt_irrefl.
Qed.
End RunningBest.

Lemma map_app_nil (l : list (list Z)) : map (app []) l = l.
Proof. induction l as [|c l IH]; [reflexivity|]. simpl. now f_equal. Qed.

(** The candidate set an argument of [run_fits] stands for: a sequence of
    indices stands for itself, a single index for the set that holds it. *)
Inductive candidates : site_arg -> list Z -> Prop :=
  | candidates_sequence (l : list Z) : candidates (Sequence l) l
  | candidates_scalar (n : Z) : candidates (Scalar n) [n].

Lemma atleast_1d_candidates (args : list site_arg) (lists : list (list Z)) :
  Forall2 candidates args lists -> map atleast_1d args = lists.
Proof.
  induction 1 as [|arg l args lists Harg _ IH]; [reflexivity|].
  simpl. rewrite IH. now destruct Harg.
Qed.

(** A sweep adds rows for a prefix of its selections, in order, and for
    all of them when no selection raises. *)
Lemma fit_each_prefix (get_errors pass_results : bool) (verbose : Z)
    (sites : list Z) (combos : list (list Z)) :
  forall self : manager,
    exists (rows : list row) (n : nat),
      df_horizontal
        (manager_of (fit_each get_errors pass_results verbose sites combos
                              self))
      = df_horizontal self ++ rows /\
      map row_sites rows = map (app sites) (take n combos) /\
      (exception_of (fit_each get_errors pass_results verbose sites combos
                              self) = None ->
       map row_sites rows = map (app sites) combos).
Proof.
  unfold fit_each.
  induction combos as [|combo combos IH]; intros self.
  - exists [], 0%nat. simpl. rewrite app_nil_r. repeat split.
  - simpl.
    destruct (_single_fit self (sites ++ combo) get_errors pass_results
                          verbose false) as [s1|e s1] eqn:Hfit.
    + apply single_fit_returned in Hfit
        as (ft & infos & _ & Hrows & _).
      destruct (IH s1) as (rows & n & Hrows' & Hsites & Hall).
      exists (mk_row ft get_errors (sites ++ combo) infos :: rows), (S n).
      split; [now rewrite Hrows', Hrows, <- app_assoc|].
      split; [simpl; now rewrite Hsites|].
      intros Hnone. simpl. now rewrite Hall.
    + apply single_fit_raised in Hfit
        as (_ & _ & _ & [Hrows | (r & Hrows & Hr)] & _).
      * exists [], 0%nat. simpl. rewrite app_nil_r.
        split; [exact Hrows|]. split; [reflexivity | discriminate].
      * exists [r], 1%nat. simpl.
        split; [exact Hrows|]. split; [now rewrite Hr | discriminate].
Qed.

(** C5 (as the code has it).  The candidate sets of the slots being
    [lists], the recursion of run_fits is one loop over their cartesian
    product, depth first in input order (first slot slowest).  When the
    data pattern is in range, run_fits returns having added one row per
    selection for a prefix of that product: it fits the selections in
    order until one raises.  When no selection raises, the rows are
    exactly the product; for two slots that is len(a) * len(b)
    selections, the selection (a[i], b[j]) being the one numbered
    i * len(b) + j. *)
Theorem run_fits_enumerates_product (self : manager) (args : list site_arg)
    (lists : list (list Z)) (pass_results : bool) (verbose : Z)
    (get_errors : bool) :
  Forall2 candidates args lists ->
  is_datapattern_inrange self = Ok true ->
  args <> [] ->
  (forall sites st,
     recursive_call get_errors pass_results verbose lists sites st
     = fit_each get_errors pass_results verbose sites (product lists) st) /\
  exists (self' : manager) (rows : list row) (n : nat),
    run_fits self args pass_results verbose get_errors = Returned self' /\
    df_horizontal self' = df_horizontal self ++ rows /\
    map row_sites rows = take n (product lists) /\
    ((exists done : manager,
        fit_each get_errors pass_results verbose [] (product lists)
                 (with_done_param_verbose self false) = Returned done) ->
     map row_sites rows = product lists /\
     forall a b : list Z,
       lists = [a; b] ->
       length rows = (length a * length b)%nat /\
       forall (i j : nat) (x y : Z),
         a !! i = Some x -> b !! j = Some y ->
         row_sites <$> rows !! (i * length b + j)%nat = Some [x; y]).
Proof.
  intros Hlists Hrange Hargs.
  split; [apply recursive_call_product|].
  apply atleast_1d_candidates in Hlists.
  destruct (fit_each_prefix get_errors pass_results verbose []
              (product lists) (with_done_param_verbose self false))
    as (rows & n & Hrows & Hsites & Hall).
  rewrite map_app_nil in Hsites. rewrite map_app_nil in Hall.
  assert (Hrun : run_fits self args pass_results verbose get_errors
                 = match fit_each get_errors pass_results verbose []
                           (product lists)
                           (with_done_param_verbose self false) with
                   | Returned s => Returned s
                   | Raised _ s => Returned (with_current_fit_obj s None)
                   end).
  { unfold run_fits. rewrite Hrange, Hlists. simpl.
    destruct (decide (length lists < 1)%nat) as [Hlt|_].
    - subst lists. destruct args; [congruence | simpl in Hlt; lia].
    - now rewrite recursive_call_product. }
  destruct (fit_each get_errors pass_results verbose [] (product lists)
                     (with_done_param_verbose self false))
    as [s|e s] eqn:Hfit; simpl in Hrows, Hall.
  - exists s, rows, n. split; [exact Hrun|]. split; [exact Hrows|].
    split; [exact Hsites|]. intros _.
    specialize (Hall eq_refl). split; [exact Hall|].
    intros a b Hab. rewrite Hab in Hall. split.
    + rewrite <- (length_map row_sites rows), Hall, length_product.
      simpl. lia.
    + intros i j x y Hx Hy. rewrite <- list_lookup_fmap.
      change (row_sites <$> rows) with (map row_sites rows).
      rewrite Hall. now apply product_two_lookup.
  - exists (with_current_fit_obj s None), rows, n.
    split; [exact Hrun|]. split; [exact Hrows|]. split; [exact Hsites|].
    intros (done & Hdone). discriminate.
Qed.

(** C6.  For costs ordered by an irreflexive and transitive [<]: a
    combination that completes always becomes the last fit, and becomes the
    best fit only when there was none or its cost is strictly lower than the
    running minimum.  After a sweep that completes, started with no
    minimum, "last" is the final combination and "best" is a combination
    that none undercuts; when the costs of the sweep are pairwise
    comparable (distinct), its cost is strictly lower than every other. *)
Theorem best_and_last_tracking (get_errors pass_results : bool)
    (verbose : Z) :
  (forall a : num, nlt a a = false) ->
  (forall a b c : num,
     nlt a b = true -> nlt b c = true -> nlt a c = true) ->
  (forall (self self' : manager) (sites : list Z) (verbose_graphics : bool),
     _single_fit self sites get_errors pass_results verbose verbose_graphics
       = Returned self' ->
     exists ft : Fit,
       last_fit self' = Some ft /\
       match min_value self with
       | None =>
           best_fit self' = Some ft /\ min_value self' = Some (cost ft)
       | Some m =>
           if nlt (cost ft) m
           then best_fit self' = Some ft /\ min_value self' = Some (cost ft)
           else best_fit self' = best_fit self /\ min_value self' = Some m
       end) /\
  (forall (patterns_list : list (list Z)) (self self' : manager),
     min_value self = None ->
     product patterns_list <> [] ->
     recursive_call get_errors pass_results verbose patterns_list [] self
       = Returned self' ->
     exists rows : list row,
       df_horizontal self' = df_horizontal self ++ rows /\
       map row_sites rows = product patterns_list /\
       last_fit self' = last (map row_fit rows) /\
       exists (i : nat) (b : Fit),
         map row_fit rows !! i = Some b /\
         best_fit self' = Some b /\
         min_value self' = Some (cost b) /\
         (forall ft, ft ∈ map row_fit rows ->
                     nlt (cost ft) (cost b) = false) /\
         ((forall (j k : nat) (fj fk : Fit),
             map row_fit rows !! j = Some fj ->
             map row_fit rows !! k = Some fk ->
             j <> k ->
             nlt (cost fj) (cost fk) = true \/
             nlt (cost fk) (cost fj) = true) ->
          forall (j : nat) (fj : Fit),
            map row_fit rows !! j = Some fj -> j <> i ->
            nlt (cost b) (cost fj) = true)).
Proof.
  intros Hirrefl Htrans. split.
  - intros self self' sites vg Hfit.
    apply single_fit_returned in Hfit
      as (ft & infos & _ & _ & Hlast & _ & Hmin & Hbest & _).
    exists ft. split; [exact Hlast|].
    pose proof (keep_best_fit_step self ft) as Hstep.
    rewrite <- Hmin, <- Hbest in Hstep. unfold keep_step in Hstep.
    simpl in Hstep.
    destruct (min_value self) as [m|] eqn:Hm.
    + destruct (nlt (cost ft) m); inversion Hstep; split; congruence.
    + inversion Hstep. split; congruence.
  - intros patterns_list self self' Hnone Hne Hrun.
    rewrite recursive_call_product in Hrun.
    apply fit_each_returned in Hrun
      as (rows & Hrows & Hsites & Hkeep & Hlast & _).
    rewrite map_app_nil in Hsites.
    assert (Hfts : map row_fit rows <> []).
    { intros Hnil. apply Hne. rewrite <- Hsites.
      destruct rows; [reflexivity | discriminate]. }
    exists rows. split; [exact Hrows|]. split; [exact Hsites|].
    split.
    { rewrite Hlast. unfold last_after.
      destruct (last (map row_fit rows)) eqn:Hl; [reflexivity|].
      apply last_None in Hl. contradiction. }
    rewrite Hnone in Hkeep.
    destruct (foldl_keep_step_from_none Hirrefl Htrans (best_fit self)
                (map row_fit rows) Hfts) as (i & b & Hb & Hfold & Hminimal).
    rewrite Hfold in Hkeep. inversion Hkeep as [[Hmv Hbf]].
    exists i, b. split; [exact Hb|]. split; [exact Hbf|].
    split; [exact Hmv|]. split; [exact Hminimal|].
    intros Hconn j fj Hj Hji.
    destruct (Hconn j i fj b Hj Hb Hji) as [Hlt|Hlt]; [|exact Hlt].
    rewrite Hminimal in Hlt; [discriminate|].
    eapply list_elem_of_lookup_2. exact Hj.
Qed.

(** *** A combination that raises *)

(** C4 (as the code has it).  The try of run_fits encloses the whole
    recursion: when a combination raises, run_fits returns without raising
    and with the current-fit handle reset to None, the minimum, the best
    and the last fit are those of the combinations completed before it,
    and the combinations after it are not processed (the manager returned
    is the one the failing combination left, handle apart). *)
Theorem run_fits_exception_ends_sweep (self s1 s_err : manager)
    (args : list site_arg) (pass_results : bool) (verbose : Z)
    (get_errors : bool) (before after : list (list Z)) (c : list Z)
    (e : exn) :
  is_datapattern_inrange self = Ok true ->
  args <> [] ->
  product (map atleast_1d args) = before ++ c :: after ->
  fit_each get_errors pass_results verbose [] before
           (with_done_param_verbose self false) = Returned s1 ->
  _single_fit s1 c get_errors pass_results verbose false = Raised e s_err ->
  run_fits self args pass_results verbose get_errors
    = Returned (with_current_fit_obj s_err None) /\
  min_value s_err = min_value s1 /\
  best_fit s_err = best_fit s1 /\
  last_fit s_err = last_fit s1 /\
  exists rows : list row,
    df_horizontal s1 = df_horizontal self ++ rows /\
    map row_sites rows = before /\
    (df_horizontal s_err = df_horizontal s1 \/
     exists r : row,
       df_horizontal s_err = df_horizontal s1 ++ [r] /\ row_sites r = c).
Proof.
  intros Hrange Hargs Hsplit Hbefore Hraise.
  pose proof (single_fit_raised _ _ _ _ _ _ _ _ Hraise)
    as (Hmin & Hbest & Hlast & Hrow & _).
  pose proof (fit_each_returned _ _ _ _ _ _ _ Hbefore)
    as (rows & Hrows & Hsites & _).
  rewrite map_app_nil in Hsites.
  split.
  { unfold run_fits. rewrite Hrange. simpl.
    destruct (decide (length (map atleast_1d args) < 1)%nat) as [Hlt|_].
    - destruct args; [congruence | simpl in Hlt; lia].
    - rewrite recursive_call_product, Hsplit.
      unfold fit_each in *. rewrite for_each_app, Hbefore. simpl.
      now rewrite Hraise. }
  repeat (split; [assumption|]).
  exists rows. repeat split; assumption.
Qed.

(** What [run_single_fit] does after the range check. *)
Definition single_fit_after_check (self : manager) (args : list site_arg)
    (verbose : Z) (verbose_graphics get_errors : bool) : outcome :=
  on_result (single_fit_sites args []) self (fun sites =>
  match _single_fit (with_done_param_verbose self false) sites get_errors
                    false verbose verbose_graphics with
  | Returned s => Returned s
  | Raised _ s => Returned (with_current_fit_obj s None)
  end).

(** C9 (as the code has it).  run_single_fit goes on after the range
    check whatever its result, having issued the warning when the data
    pattern is out of range; run_fits issues the same warning and then
    raises ValueError, so that no combination is fitted. *)
Theorem out_of_range_check (self : manager) (args : list site_arg)
    (pass_results : bool) (verbose : Z) (verbose_graphics get_errors : bool)
    (inrange : bool) :
  is_datapattern_inrange self = Ok inrange ->
  run_single_fit self args verbose verbose_graphics get_errors
    = single_fit_after_check
        (if inrange then self else with_warning self out_of_range_warning)
        args verbose verbose_graphics get_errors /\
  (inrange = false ->
   run_fits self args pass_results verbose get_errors
     = Raised ValueError (with_warning self out_of_range_warning)).
Proof.
  intros Hrange. split.
  - unfold run_single_fit, single_fit_after_check. rewrite Hrange. simpl.
    now destruct inrange.
  - intros ->. unfold run_fits. now rewrite Hrange.
Qed.

(** *** Initial values *)

(** Whether the user fixed a parameter. *)
Definition user_fixed (p_fixed_values : gmap string num) (k : string)
  : bool :=
  match p_fixed_values !! k with
  | Some _ => true
  | None => false
  end.

(** The keys that precede [k] in a list of keys. *)
Fixpoint names_before (k : string) (l : list string) : list string :=
  match l with
  | [] => []
  | k' :: l' => if decide (k' = k) then [] else k' :: names_before k l'
  end.

(** The keys the user did not fix, in order: the ones [pass_results]
    seeds. *)
Definition seeded_keys (p_fixed_values : gmap string num)
    (keys : list string) : list string :=
  filter (fun k => user_fixed p_fixed_values k = false) keys.

(** The position, in the previous result vector, that the loop reads for
    the key [k]. *)
Definition seed_index (p_fixed_values : gmap string num)
    (keys : list string) (k : string) : nat :=
  length (seeded_keys p_fixed_values (names_before k keys)).

Lemma pass_last_results_spec (fixed : gmap string num) (x : list num) :
  forall (keys pre : list string) (m : gmap string num),
    NoDup (pre ++ keys) ->
    (length (seeded_keys fixed (pre ++ keys)) <= length x)%nat ->
    exists m' : gmap string num,
      pass_last_results keys fixed x (length (seeded_keys fixed pre)) m
        = Ok m' /\
      (forall k, k ∉ keys -> m' !! k = m !! k) /\
      (forall k, k ∈ keys -> user_fixed fixed k = true ->
                 m' !! k = m !! k) /\
      (forall k, k ∈ keys -> user_fixed fixed k = false ->
         exists xj : num,
           x !! length (seeded_keys fixed (pre ++ names_before k keys))
             = Some xj /\
           m' !! k = Some (nadd xj n_1e5)).
Proof.
  unfold seeded_keys. intros keys.
  induction keys as [|k keys IH]; intros pre m Hnd Hlen.
  - exists m. simpl. split; [reflexivity|]. split; [reflexivity|].
    split; intros k Hk; inversion Hk.
  - assert (Hk_keys : k ∉ keys).
    { apply NoDup_app in Hnd as (_ & _ & Hkk).
      apply NoDup_cons in Hkk as [Hkk _]. exact Hkk. }
    assert (Hnd' : NoDup ((pre ++ [k]) ++ keys)).
    { now rewrite <- app_assoc. }
    assert (Hlen' : (length (filter (fun k => user_fixed fixed k = false)
                                    ((pre ++ [k]) ++ keys))
                     <= length x)%nat).
    { now rewrite <- app_assoc. }
    simpl. unfold user_fixed in *.
    destruct (fixed !! k) as [v|] eqn:Hfix.
    + assert (Hdi' : length (filter (fun k => match fixed !! k with
                                              | Some _ => true
                                              | None => false
                                              end = false) (pre ++ [k]))
                     = length (filter (fun k => match fixed !! k with
                                                | Some _ => true
                                                | None => false
                                                end = false) pre)).
      { rewrite filter_app, filter_cons_False, filter_nil, app_nil_r
          by (rewrite Hfix; discriminate).
        reflexivity. }
      destruct (IH (pre ++ [k]) m Hnd' Hlen')
        as (m' & Hrun & Hout & Hfixed & Hfree).
      rewrite Hdi' in Hrun.
      exists m'. split; [exact Hrun|]. split; [|split].
      * intros k' Hk'. apply Hout. intros Hin. apply Hk'. now right.
      * intros k' Hk' Hk'fix.
        apply elem_of_cons in Hk' as [->|Hk'].
        -- now apply Hout.
        -- now apply Hfixed.
      * intros k' Hk' Hk'free.
        apply elem_of_cons in Hk' as [->|Hk'].
        -- rewrite Hfix in Hk'free. discriminate.
        -- assert (Hne : k <> k') by (intros ->; contradiction).
           destruct (Hfree k' Hk' Hk'free) as (xj & Hxj & Hval).
           simpl. rewrite decide_False by exact Hne.
           replace (pre ++ k :: names_before k' keys)
             with ((pre ++ [k]) ++ names_before k' keys)
             by now rewrite <- app_assoc.
           exists xj. split; assumption.
    + assert (Hkfree : match fixed !! k with
                       | Some _ => true
                       | None => false
                       end = false) by now rewrite Hfix.
      assert (Hdi : (length (filter (fun k => match fixed !! k with
                                              | Some _ => true
                                              | None => false
                                              end = false) pre)
                     < length x)%nat).
      { rewrite filter_app, filter_cons_True, length_app in Hlen
          by exact Hkfree.
        simpl in Hlen. lia. }
      destruct (lookup_lt_is_Some_2 x _ Hdi) as [xi Hxi].
      rewrite (FitsTheory.index_Some _ _ _ Hxi). cbn [mbind result_bind].
      assert (Hdi' : length (filter (fun k => match fixed !! k with
                                              | Some _ => true
                                              | None => false
                                              end = false) (pre ++ [k]))
                     = S (length (filter (fun k => match fixed !! k with
                                                   | Some _ => true
                                                   | None => false
                                                   end = false) pre))).
      { rewrite filter_app, filter_cons_True, length_app by exact Hkfree.
        simpl. lia. }
      destruct (IH (pre ++ [k]) (<[k := nadd xi n_1e5]> m) Hnd' Hlen')
        as (m' & Hrun & Hout & Hfixed & Hfree).
      rewrite Hdi' in Hrun.
      exists m'. split; [exact Hrun|]. split; [|split].
      * intros k' Hk'. rewrite Hout by (intros Hin; apply Hk'; now right).
        apply lookup_insert_ne. intros ->. apply Hk'. now left.
      * intros k' Hk' Hk'fix.
        apply elem_of_cons in Hk' as [->|Hk'].
        -- rewrite Hfix in Hk'fix. discriminate.
        -- rewrite Hfixed by assumption.
           apply lookup_insert_ne. intros ->. contradiction.
      * intros k' Hk' Hk'free.
        apply elem_of_cons in Hk' as [->|Hk'].
        -- exists xi. simpl. rewrite decide_True by reflexivity.
           rewrite app_nil_r. split; [exact Hxi|].
           rewrite Hout by exact Hk_keys. apply lookup_insert_eq.
        -- assert (Hne : k <> k') by (intros ->; contradiction).
           destruct (Hfree k' Hk' Hk'free) as (xj & Hxj & Hval).
           simpl. rewrite decide_False by exact Hne.
           replace (pre ++ k :: names_before k' keys)
             with ((pre ++ [k]) ++ names_before k' keys)
             by now rewrite <- app_assoc.
           exists xj. split; assumption.
Qed.

Lemma fraction_key_inj (i j : nat) :
  fraction_key i = fraction_key j -> i = j.
Proof.
  unfold fraction_key. intros Heq.
  apply (inj (String.app "f_p")) in Heq.
  apply (inj pretty) in Heq. lia.
Qed.

Lemma NoDup_compute_parameter_keys (n_sites : nat) :
  NoDup (compute_parameter_keys n_sites).
Proof.
  unfold compute_parameter_keys. apply NoDup_app. split; [|split].
  - apply (bool_decide_unpack
             (NoDup ["dx"; "dy"; "phi"; "total_cts"; "sigma"])).
    vm_compute. exact I.
  - intros k Hk Hin. apply list_elem_of_fmap in Hin as (i & -> & _).
    unfold fraction_key in Hk. simpl in Hk.
    rewrite !elem_of_cons in Hk.
    destruct Hk as [Hk|[Hk|[Hk|[Hk|[Hk|Hk]]]]];
      try discriminate Hk. inversion Hk.
  - apply NoDup_fmap_2_strong; [|apply NoDup_seq].
    intros i j _ _. apply fraction_key_inj.
Qed.

Lemma initial_fit_values_loop_spec (dp : option DataPattern) (n : nat)
    (fixed init : gmap string num) :
  forall (keys : list string) (p0 : list num) (p_fix : list bool),
    Forall (fun k => exists vf,
                initial_fit_value dp n fixed init k = Ok vf) keys ->
    exists vfs : list (num * bool),
      Forall2 (fun k vf => initial_fit_value dp n fixed init k = Ok vf)
              keys vfs /\
      initial_fit_values_loop dp n fixed init keys p0 p_fix
        = Ok (p0 ++ map fst vfs, p_fix ++ map snd vfs).
Proof.
  induction keys as [|k keys IH]; intros p0 p_fix Hall.
  - exists []. simpl. rewrite !app_nil_r. split; [constructor|reflexivity].
  - apply Forall_cons in Hall as [[[v f] Hk] Hall].
    destruct (IH (p0 ++ [v]) (p_fix ++ [f]) Hall) as (vfs & Hvfs & Hrun).
    exists ((v, f) :: vfs). split; [now constructor|].
    simpl. rewrite Hk. cbn [mbind result_bind].
    rewrite Hrun, <- !app_assoc. reflexivity.
Qed.

(** What [_get_initial_values] does when the previous result vector has
    an entry for every key the user did not fix.  With pass_results, the
    initial values are taken from the previous fit only when there is one
    and it reported success: then a parameter the user fixed keeps its
    fixed value, and every other parameter starts at the entry of the
    previous result vector that the loop reads for it, plus 1e-5.  In
    every other case the configured initial values are used as they
    are. *)
Theorem initial_values_from_previous_fit (self : manager)
    (pass_results : bool) :
  parameter_keys self = compute_parameter_keys (_n_sites self) ->
  ((pass_results = false \/ last_fit self = None \/
    (exists ft, last_fit self = Some ft /\
                res_success (Fit_results ft) = false)) ->
   _get_initial_values self pass_results
   = compute_initial_fit_values (dp_pattern self) (_n_sites self)
       (p_fixed_values self) (p_initial_values self)) /\
  (forall ft : Fit,
     pass_results = true ->
     last_fit self = Some ft ->
     res_success (Fit_results ft) = true ->
     (length (seeded_keys (p_fixed_values self) (parameter_keys self))
      <= length (res_x (Fit_results ft)))%nat ->
     exists (p0 : list num) (p_fix : list bool),
       _get_initial_values self pass_results = Ok (p0, p_fix) /\
       length p0 = length (parameter_keys self) /\
       length p_fix = length (parameter_keys self) /\
       forall (i : nat) (k : string),
         parameter_keys self !! i = Some k ->
         match p_fixed_values self !! k with
         | Some v => p0 !! i = Some v /\ p_fix !! i = Some true
         | None =>
             exists xj : num,
               res_x (Fit_results ft)
                 !! seed_index (p_fixed_values self) (parameter_keys self) k
                 = Some xj /\
               p0 !! i = Some (nadd xj n_1e5) /\
               p_fix !! i = Some false
         end).
Proof.
  intros Hkeys. split.
  - intros Hcase. unfold _get_initial_values.
    destruct Hcase as [-> | [Hlast | (ft & Hlast & Hfail)]].
    + reflexivity.
    + rewrite Hlast. now rewrite andb_false_r.
    + rewrite Hlast, Hfail. now rewrite andb_false_r.
  - intros ft -> Hlast Hok Hlen.
    unfold _get_initial_values. rewrite Hlast, Hok. simpl.
    assert (Hnd : NoDup (parameter_keys self)).
    { rewrite Hkeys. apply NoDup_compute_parameter_keys. }
    destruct (pass_last_results_spec (p_fixed_values self)
                (res_x (Fit_results ft)) (parameter_keys self) []
                (p_initial_values self))
      as (m' & Hrun & _ & _ & Hfree); [exact Hnd | exact Hlen |].
    simpl in Hrun. rewrite Hrun. cbn [mbind result_bind].
    unfold compute_initial_fit_values. rewrite <- Hkeys.
    assert (Hvalue : forall k, k ∈ parameter_keys self ->
              initial_fit_value (dp_pattern self) (_n_sites self)
                (p_fixed_values self) m' k
              = match p_fixed_values self !! k with
                | Some v => Ok (v, true)
                | None =>
                    match m' !! k with
                    | Some v => Ok (v, false)
                    | None => Raise AttributeError
                    end
                end /\
              (p_fixed_values self !! k = None ->
               exists xj : num,
                 res_x (Fit_results ft)
                   !! seed_index (p_fixed_values self)
                        (parameter_keys self) k = Some xj /\
                 m' !! k = Some (nadd xj n_1e5))).
    { intros k Hk. unfold initial_fit_value.
      destruct (p_fixed_values self !! k) as [v|] eqn:Hfix.
      - split; [reflexivity | discriminate].
      - destruct (Hfree k Hk) as (xj & Hxj & Hm).
        { unfold user_fixed. now rewrite Hfix. }
        split; [now rewrite Hm|].
        intros _. exists xj. split; [exact Hxj | exact Hm]. }
    destruct (initial_fit_values_loop_spec (dp_pattern self)
                (_n_sites self) (p_fixed_values self) m'
                (parameter_keys self) [] [])
      as (vfs & Hvfs & Hloop).
    { apply Forall_forall. intros k Hk.
      destruct (Hvalue k Hk) as (Heq & Hseed). rewrite Heq.
      destruct (p_fixed_values self !! k) as [v|]; [eauto|].
      destruct (Hseed eq_refl) as (xj & _ & ->). eauto. }
    rewrite Hloop. simpl.
    exists (map fst vfs), (map snd vfs). split; [reflexivity|].
    pose proof (Forall2_length _ _ _ Hvfs) as Hl.
    split; [now rewrite length_map|]. split; [now rewrite length_map|].
    intros i k Hi.
    destruct (Forall2_lookup_l _ _ _ _ _ Hvfs Hi) as (vf & Hvf & Hk).
    assert (Hin : k ∈ parameter_keys self)
      by (eapply list_elem_of_lookup_2; exact Hi).
    destruct (Hvalue k Hin) as (Heq & Hseed).
    rewrite Heq in Hk. rewrite !list_lookup_fmap, Hvf. simpl.
    destruct (p_fixed_values self !! k) as [v|].
    + inversion Hk; subst. split; reflexivity.
    + destruct (Hseed eq_refl) as (xj & Hxj & Hm).
      rewrite Hm in Hk. inversion Hk; subst.
      exists xj. repeat split. exact Hxj.
Qed.

End Theory.
End FitManagerTheory.

(** * The orchestrator on concrete inputs *)

Module FitManagerExamples.
Import FitManager FitManagerTheory Concrete.
#[local] Existing Instance xq_numeric.
#[local] Existing Instance toy_fit_engine.
#[local] Open Scope Z_scope.

(** What the examples look at in the manager a call leaves: the sites of
    the rows, of the best and of the last fit, the minimum, whether the
    current-fit handle is None, and the warnings. *)
Definition summary (s : manager)
  : list (list Z) * option (list Z) * option (list Z) * option xq * bool
    * list string :=
  (map row_sites (df_horizontal s), toy_sites <$> best_fit s,
   toy_sites <$> last_fit s, min_value s,
   match current_fit_obj s with None => true | Some _ => false end,
   warned s).

Definition returned (o : outcome) : option manager :=
  match o with
  | Returned s => Some s
  | Raised _ _ => None
  end.

Definition raised (o : outcome) : option (exn * manager) :=
  match o with
  | Returned _ => None
  | Raised e s => Some (e, s)
  end.

(** A sweep over the sites 1, 3, 4, 6 (costs 9, 1, 0, 4). *)
Example run_fits_one_slot :
  summary <$> returned (run_fits (toy_manager 1 (qz 0, qz 0))
                                 [Sequence [1; 3; 4; 6]] false 0 false)
  = Some ([[1]; [3]; [4]; [6]], Some [4], Some [6], Some (qz 0), true, []).
Proof. vm_compute. reflexivity. Qed.

(** Two slots with 2 and 3 candidates: six selections, row-major. *)
Example run_fits_two_slots :
  summary <$> returned (run_fits (toy_manager 2 (qz 0, qz 0))
                                 [Sequence [1; 2]; Sequence [5; 6; 7]]
                                 false 0 false)
  = Some ([[1; 5]; [1; 6]; [1; 7]; [2; 5]; [2; 6]; [2; 7]],
          Some [1; 5], Some [2; 7], Some (qz 15), true, []).
Proof. vm_compute. reflexivity. Qed.

Lemma run_fits_enumerates_witness :
  Forall2 candidates [Sequence [1; 2]; Sequence [5; 6; 7]]
          [[1; 2]; [5; 6; 7]] /\
  is_datapattern_inrange (toy_manager 2 (qz 0, qz 0)) = Ok true /\
  [Sequence [1; 2]; Sequence [5; 6; 7]] <> [] /\
  exists (self' : manager) (rows : list row),
    run_fits (toy_manager 2 (qz 0, qz 0))
             [Sequence [1; 2]; Sequence [5; 6; 7]] false 0 false
      = Returned self' /\
    df_horizontal self'
      = df_horizontal (toy_manager 2 (qz 0, qz 0)) ++ rows /\
    map row_sites rows = product [[1; 2]; [5; 6; 7]] /\
    length rows = (2 * 3)%nat /\
    forall (i j : nat) (x y : Z),
      [1; 2] !! i = Some x -> [5; 6; 7] !! j = Some y ->
      row_sites <$> rows !! (i * 3 + j)%nat = Some [x; y].
Proof.
  assert (Hlists : Forall2 candidates [Sequence [1; 2]; Sequence [5; 6; 7]]
                           [[1; 2]; [5; 6; 7]]).
  { repeat constructor. }
  assert (Hrange : is_datapattern_inrange (toy_manager 2 (qz 0, qz 0))
                   = Ok true) by (vm_compute; reflexivity).
  assert (Hdone : exists done : manager,
            fit_each false false 0 [] (product [[1; 2]; [5; 6; 7]])
              (with_done_param_verbose (toy_manager 2 (qz 0, qz 0)) false)
            = Returned done).
  { eexists. apply returned_manager_of. vm_compute. reflexivity. }
  split; [exact Hlists|]. split; [exact Hrange|]. split; [discriminate|].
  destruct (run_fits_enumerates_product (toy_manager 2 (qz 0, qz 0))
              [Sequence [1; 2]; Sequence [5; 6; 7]] [[1; 2]; [5; 6; 7]]
              false 0 false Hlists Hrange)
    as (_ & self' & rows & n & Hrun & Hrows & _ & Hfull); [discriminate|].
  destruct (Hfull Hdone) as (Hall & Htwo).
  destruct (Htwo [1; 2] [5; 6; 7] eq_refl) as (Hlen & Hlookup).
  exists self', rows. repeat split; assumption.
Defined.

(** A single index stands for the candidate set that holds it. *)
Example run_fits_scalar_slot :
  Forall2 candidates [Scalar 1; Sequence [5; 6]] [[1]; [5; 6]] /\
  summary <$> returned (run_fits (toy_manager 2 (qz 0, qz 0))
                                 [Scalar 1; Sequence [5; 6]] false 0 false)
  = Some ([[1; 5]; [1; 6]], Some [1; 5], Some [1; 6], Some (qz 15), true,
          []).
Proof. split; [repeat constructor | vm_compute; reflexivity]. Qed.

(** Against C5 as stated: the library of the toy manager has nine spectra,
    so the selection (1, 10) raises and the sweep over the four selections
    of (1, 2) x (5, 10) ends with (1, 5) alone fitted; run_fits returns
    all the same.  So does the sweep over (1, 2) x (5, 6) that passes the
    results on, whose second selection raises while its initial values
    are computed. *)
Lemma run_fits_stops_at_first_exception :
  length (product [[1; 2]; [5; 10]]) = 4%nat /\
  exception_of (run_fits (toy_manager 2 (qz 0, qz 0))
                         [Sequence [1; 2]; Sequence [5; 10]] false 0 false)
  = None /\
  map row_sites
      (df_horizontal
         (manager_of (run_fits (toy_manager 2 (qz 0, qz 0))
                               [Sequence [1; 2]; Sequence [5; 10]]
                               false 0 false)))
  = [[1; 5]] /\
  map row_sites
      (df_horizontal
         (manager_of (run_fits (toy_manager 2 (qz 0, qz 0))
                               [Sequence [1; 2]; Sequence [5; 6]]
                               true 0 false)))
  = [[1; 5]].
Proof. repeat split; vm_compute; reflexivity. Qed.

Lemma xq_lt_irrefl (a : xq) : xq_lt a a = false.
Proof.
  destruct a as [a|]; [|reflexivity]. unfold xq_lt.
  destruct (a ?= a)%Q eqn:Hc; try reflexivity.
  apply Qlt_alt in Hc. now apply Qlt_irrefl in Hc.
Qed.

Lemma xq_lt_trans (a b c : xq) :
  xq_lt a b = true -> xq_lt b c = true -> xq_lt a c = true.
Proof.
  destruct a as [a|], b as [b|], c as [c|]; try discriminate.
  unfold xq_lt.
  destruct (a ?= b)%Q eqn:Hab; try discriminate.
  destruct (b ?= c)%Q eqn:Hbc; try discriminate.
  intros _ _. apply Qlt_alt in Hab. apply Qlt_alt in Hbc.
  pose proof (proj1 (Qlt_alt a c) (Qlt_trans _ _ _ Hab Hbc)) as Hac.
  now rewrite Hac.
Qed.

(** The manager after the sweep over the sites 1, 3, 4, 6. *)
#[local] Abbreviation toy_swept :=
  (manager_of (recursive_call false false 0 [[1; 3; 4; 6]] []
                              (toy_manager 1 (qz 0, qz 0)))).

Lemma best_and_last_witness :
  (forall a : num, nlt a a = false) /\
  (forall a b c : num,
     nlt a b = true -> nlt b c = true -> nlt a c = true) /\
  min_value (toy_manager 1 (qz 0, qz 0)) = None /\
  product [[1; 3; 4; 6]] <> [] /\
  recursive_call false false 0 [[1; 3; 4; 6]] []
                 (toy_manager 1 (qz 0, qz 0)) = Returned toy_swept /\
  exists rows : list row,
    df_horizontal toy_swept
      = df_horizontal (toy_manager 1 (qz 0, qz 0)) ++ rows /\
    map row_sites rows = product [[1; 3; 4; 6]] /\
    last_fit toy_swept = last (map row_fit rows) /\
    exists (i : nat) (b : Fit),
      map row_fit rows !! i = Some b /\
      best_fit toy_swept = Some b /\
      min_value toy_swept = Some (cost b) /\
      (forall ft, ft ∈ map row_fit rows ->
                  nlt (cost ft) (cost b) = false) /\
      ((forall (j k : nat) (fj fk : Fit),
          map row_fit rows !! j = Some fj ->
          map row_fit rows !! k = Some fk ->
          j <> k ->
          nlt (cost fj) (cost fk) = true \/
          nlt (cost fk) (cost fj) = true) ->
       forall (j : nat) (fj : Fit),
         map row_fit rows !! j = Some fj -> j <> i ->
         nlt (cost b) (cost fj) = true).
Proof.
  assert (Hrun : recursive_call false false 0 [[1; 3; 4; 6]] []
                   (toy_manager 1 (qz 0, qz 0)) = Returned toy_swept).
  { apply returned_manager_of. vm_compute. reflexivity. }
  assert (Hnone : min_value (toy_manager 1 (qz 0, qz 0)) = None)
    by reflexivity.
  assert (Hne : product [[1; 3; 4; 6]] <> []) by discriminate.
  split; [exact xq_lt_irrefl|]. split; [exact xq_lt_trans|].
  split; [exact Hnone|]. split; [exact Hne|]. split; [exact Hrun|].
  exact (proj2 (best_and_last_tracking false false 0
                  xq_lt_irrefl xq_lt_trans)
               [[1; 3; 4; 6]] (toy_manager 1 (qz 0, qz 0)) toy_swept
               Hnone Hne Hrun).
Defined.

(** The sweep over the sites 1, 2, 3, where the fit of site 2 raises:
    run_fits returns, but site 3, which fits when asked for alone, was
    never fitted. *)
Example run_fits_aborted_sweep :
  summary <$> returned (run_fits (toy_manager 1 (qz 0, qz 0))
                                 [Sequence [1; 2; 3]] false 0 false)
  = Some ([[1]], Some [1], Some [1], Some (qz 9), true, []) /\
  summary <$> returned (run_fits (toy_manager 1 (qz 0, qz 0))
                                 [Scalar 3] false 0 false)
  = Some ([[3]], Some [3], Some [3], Some (qz 1), true, []).
Proof. split; vm_compute; reflexivity. Qed.

(** Against C4 as stated: after the exception of one combination the
    remaining combinations of the sweep are not processed. *)
Lemma run_fits_does_not_continue :
  exception_of (_single_fit (toy_manager 1 (qz 0, qz 0)) [2]
                            false false 0 false) = Some FitError /\
  exception_of (_single_fit (toy_manager 1 (qz 0, qz 0)) [3]
                            false false 0 false) = None /\
  map row_sites
      (df_horizontal
         (manager_of (run_fits (toy_manager 1 (qz 0, qz 0))
                               [Sequence [1; 2; 3]] false 0 false)))
  = [[1]] /\
  exception_of (run_fits (toy_manager 1 (qz 0, qz 0))
                         [Sequence [1; 2; 3]] false 0 false) = None.
Proof. repeat split; vm_compute; reflexivity. Qed.

(** The manager after site 1 of that sweep, and as the failing fit of
    site 2 leaves it. *)
#[local] Abbreviation toy_after_site_1 :=
  (manager_of (fit_each false false 0 [] [[1]]
                 (with_done_param_verbose (toy_manager 1 (qz 0, qz 0))
                                          false))).

#[local] Abbreviation toy_failed_site_2 :=
  (manager_of (_single_fit toy_after_site_1 [2] false false 0 false)).

Lemma run_fits_exception_witness :
  is_datapattern_inrange (toy_manager 1 (qz 0, qz 0)) = Ok true /\
  [Sequence [1; 2; 3]] <> [] /\
  product (map atleast_1d [Sequence [1; 2; 3]]) = [[1]] ++ [2] :: [[3]] /\
  fit_each false false 0 [] [[1]]
           (with_done_param_verbose (toy_manager 1 (qz 0, qz 0)) false)
    = Returned toy_after_site_1 /\
  _single_fit toy_after_site_1 [2] false false 0 false
    = Raised FitError toy_failed_site_2 /\
  run_fits (toy_manager 1 (qz 0, qz 0)) [Sequence [1; 2; 3]] false 0 false
    = Returned (with_current_fit_obj toy_failed_site_2 None) /\
  min_value toy_failed_site_2 = min_value toy_after_site_1 /\
  best_fit toy_failed_site_2 = best_fit toy_after_site_1 /\
  last_fit toy_failed_site_2 = last_fit toy_after_site_1 /\
  exists rows : list row,
    df_horizontal toy_after_site_1
      = df_horizontal (toy_manager 1 (qz 0, qz 0)) ++ rows /\
    map row_sites rows = [[1]] /\
    (df_horizontal toy_failed_site_2 = df_horizontal toy_after_site_1 \/
     exists r : row,
       df_horizontal toy_failed_site_2
         = df_horizontal toy_after_site_1 ++ [r] /\
       row_sites r = [2]).
Proof.
  assert (Hrange : is_datapattern_inrange (toy_manager 1 (qz 0, qz 0))
                   = Ok true) by (vm_compute; reflexivity).
  assert (Hbefore : fit_each false false 0 [] [[1]]
                      (with_done_param_verbose
                         (toy_manager 1 (qz 0, qz 0)) false)
                    = Returned toy_after_site_1).
  { apply returned_manager_of. vm_compute. reflexivity. }
  assert (Hraise : _single_fit toy_after_site_1 [2] false false 0 false
                   = Raised FitError toy_failed_site_2).
  { apply raised_manager_of. vm_compute. reflexivity. }
  split; [exact Hrange|]. split; [discriminate|]. split; [reflexivity|].
  split; [exact Hbefore|]. split; [exact Hraise|].
  apply (run_fits_exception_ends_sweep (toy_manager 1 (qz 0, qz 0))
           toy_after_site_1 toy_failed_site_2 [Sequence [1; 2; 3]]
           false 0 false [[1]] [[3]] [2] FitError Hrange);
    [discriminate | reflexivity | exact Hbefore | exact Hraise].
Defined.

(** Against C9 as stated: with the data pattern out of the simulation
    range run_fits raises ValueError after its warning and fits nothing,
    while run_single_fit warns and fits. *)
Lemma run_fits_out_of_range_raises :
  is_datapattern_inrange (toy_manager 1 (qz 2, qz 0)) = Ok false /\
  exception_of (run_fits (toy_manager 1 (qz 2, qz 0)) [Scalar 3]
                         false 0 false) = Some ValueError /\
  summary (manager_of (run_fits (toy_manager 1 (qz 2, qz 0)) [Scalar 3]
                                false 0 false))
  = ([], None, None, None, true, [out_of_range_warning]) /\
  summary <$> returned (run_single_fit (toy_manager 1 (qz 2, qz 0))
                                       [Scalar 3] 0 false false)
  = Some ([[3]], Some [3], Some [3], Some (qz 1), true,
          [out_of_range_warning]).
Proof. repeat split; vm_compute; reflexivity. Qed.

Lemma out_of_range_check_witness :
  is_datapattern_inrange (toy_manager 1 (qz 2, qz 0)) = Ok false /\
  run_single_fit (toy_manager 1 (qz 2, qz 0)) [Scalar 3] 0 false false
    = single_fit_after_check
        (with_warning (toy_manager 1 (qz 2, qz 0)) out_of_range_warning)
        [Scalar 3] 0 false false /\
  (false = false ->
   run_fits (toy_manager 1 (qz 2, qz 0)) [Scalar 3] false 0 false
     = Raised ValueError
         (with_warning (toy_manager 1 (qz 2, qz 0)) out_of_range_warning)).
Proof.
  assert (Hrange : is_datapattern_inrange (toy_manager 1 (qz 2, qz 0))
                   = Ok false) by (vm_compute; reflexivity).
  split; [exact Hrange|].
  exact (out_of_range_check (toy_manager 1 (qz 2, qz 0)) [Scalar 3]
           false 0 false false false Hrange).
Defined.

(** Seeding from the previous fit.  The user fixed total_cts = 500 and
    sigma = 1/20; the fit of site 3 returned (0, 0, 0, 3/20) for dx, dy,
    phi and the fraction; the next initial values are those plus 1e-5, and
    the two fixed values as they are. *)
Example get_initial_values_seeded :
  _get_initial_values toy_manager_after_fit true
  = Ok ([Some (1 # 100000); Some (1 # 100000); Some (1 # 100000);
         qz 500; Some (1 # 20); Some (15001 # 100000)],
        [false; false; false; true; true; false]).
Proof. vm_compute. reflexivity. Qed.

#[local] Abbreviation toy_previous_fit :=
  (default (mk_toy_fit [] ∅ ∅ (mk_OptimizeResult [] None false []))
           (last_fit toy_manager_after_fit)).

Lemma last_fit_default (s : manager) (d : toy_fit) :
  match last_fit s with Some _ => true | None => false end = true ->
  last_fit s = Some (default d (last_fit s)).
Proof. destruct (last_fit s); [reflexivity | discriminate]. Qed.

Lemma initial_values_witness :
  parameter_keys toy_manager_after_fit
    = compute_parameter_keys (_n_sites toy_manager_after_fit) /\
  last_fit toy_manager_after_fit = Some toy_previous_fit /\
  res_success (Fit_results toy_previous_fit) = true /\
  (length (seeded_keys (p_fixed_values toy_manager_after_fit)
                       (parameter_keys toy_manager_after_fit))
   <= length (res_x (Fit_results toy_previous_fit)))%nat /\
  exists (p0 : list num) (p_fix : list bool),
    _get_initial_values toy_manager_after_fit true = Ok (p0, p_fix) /\
    length p0 = length (parameter_keys toy_manager_after_fit) /\
    length p_fix = length (parameter_keys toy_manager_after_fit) /\
    forall (i : nat) (k : string),
      parameter_keys toy_manager_after_fit !! i = Some k ->
      match p_fixed_values toy_manager_after_fit !! k with
      | Some v => p0 !! i = Some v /\ p_fix !! i = Some true
      | None =>
          exists xj : num,
            res_x (Fit_results toy_previous_fit)
              !! seed_index (p_fixed_values toy_manager_after_fit)
                   (parameter_keys toy_manager_after_fit) k
              = Some xj /\
            p0 !! i = Some (nadd xj n_1e5) /\
            p_fix !! i = Some false
      end.
Proof.
  assert (Hkeys : parameter_keys toy_manager_after_fit
                  = compute_parameter_keys (_n_sites toy_manager_after_fit))
    by (vm_compute; reflexivity).
  assert (Hlast : last_fit toy_manager_after_fit = Some toy_previous_fit)
    by (apply last_fit_default; vm_compute; reflexivity).
  assert (Hok : res_success (Fit_results toy_previous_fit) = true)
    by (vm_compute; reflexivity).
  assert (Hlen : (length (seeded_keys (p_fixed_values toy_manager_after_fit)
                            (parameter_keys toy_manager_after_fit))
                  <= length (res_x (Fit_results toy_previous_fit)))%nat)
    by (vm_compute; lia).
  split; [exact Hkeys|]. split; [exact Hlast|]. split; [exact Hok|].
  split; [exact Hlen|].
  exact (proj2 (initial_values_from_previous_fit toy_manager_after_fit true
                  Hkeys)
               toy_previous_fit eq_refl Hlast Hok Hlen).
Defined.

(** The default one-site manager after a sweep over site 3 alone. *)
#[local] Abbreviation toy_default_fitted :=
  (manager_of (run_fits (toy_manager 1 (qz 0, qz 0)) [Scalar 3]
                        true 0 false)).

(** C10 (the code at a failing input).  In the default configuration the
    user fixed nothing, and total_cts and sigma are fixed by default: the
    fit of site 3 succeeds and its result vector holds the four free
    parameters dx, dy, phi and f_p1.  The seeding loop reads that vector
    with a counter that advances on every key the user did not fix:
    total_cts is given the optimum of f_p1 (plus 1e-5), and sigma asks for
    entry 4 of the four, so that [_get_initial_values] raises IndexError
    where, without pass_results, it returns the configured values.  In a
    sweep that passes the results on, the selection after the first is
    therefore not fitted. *)
Theorem seeding_fails_in_default_configuration :
  p_fixed_values toy_default_fitted = ∅ /\
  parameter_keys toy_default_fitted
  = ["dx"; "dy"; "phi"; "total_cts"; "sigma"; "f_p1"]%string /\
  (fun ft => (res_success (Fit_results ft), res_x (Fit_results ft),
              map (fun k => toy_fixed ft !! k)
                  (parameter_keys toy_default_fitted)))
    <$> last_fit toy_default_fitted
  = Some (true, [qz 0; qz 0; qz 0; Some (3 # 20)%Q],
          [Some false; Some false; Some false; Some true; Some true;
           Some false]) /\
  match pass_last_results ["dx"; "dy"; "phi"; "total_cts"]%string ∅
                          [qz 0; qz 0; qz 0; Some (3 # 20)%Q] 0 ∅ with
  | Ok seeded => seeded !! "total_cts"%string
  | Raise _ => None
  end = Some (Some (15001 # 100000)%Q) /\
  _get_initial_values toy_default_fitted true = Raise IndexError /\
  _get_initial_values toy_default_fitted false
  = Ok ([qz 0; qz 0; qz 0; qz 1000; Some (1 # 10)%Q; Some (3 # 20)%Q],
        [false; false; false; true; true; false]) /\
  map row_sites
      (df_horizontal
         (manager_of (run_fits (toy_manager 1 (qz 0, qz 0))
                               [Sequence [3; 4]] true 0 false)))
  = [[3]] /\
  map row_sites
      (df_horizontal
         (manager_of (run_fits (toy_manager 1 (qz 0, qz 0))
                               [Sequence [3; 4]] false 0 false)))
  = [[3]; [4]].
Proof. repeat split; vm_compute; reflexivity. Qed.

End FitManagerExamples.

(** * Further properties of the fit engine (fits.py) *)

Module FitsExtra.
Import Fits FitsTheory.
Section Theory.
Context `{Collaborators}.

(** ** Reduced vectors of the wrong length *)

Lemma rebuild_params_short (self : fits) (params p0_scale : list num) :
  forall (keys : list key) (di : nat) (acc : list num),
    (length params - di
     < length (filter (fun k => use (parameters_dict self k) = true)
                      keys))%nat ->
    rebuild_params self params p0_scale keys di acc = Raise IndexError.
Proof.
  induction keys as [|k keys IH]; intros di acc Hshort.
  - simpl in Hshort. lia.
  - simpl. destruct (use (parameters_dict self k)) eqn:Huse.
    + rewrite filter_cons_True in Hshort by exact Huse. simpl in Hshort.
      unfold index.
      destruct (params !! di) as [v|] eqn:Hv; [|reflexivity].
      apply lookup_lt_Some in Hv. cbn [mbind result_bind].
      destruct (p0_scale !! di) as [s|]; [|reflexivity].
      cbn [mbind result_bind]. apply IH. lia.
    + rewrite filter_cons_False in Hshort by (rewrite Huse; discriminate).
      apply IH. exact Hshort.
Qed.

(** X1. A reduced vector with fewer coordinates than there are free parameters
    makes both evaluators raise IndexError. *)
Theorem short_vector_raises (self : fits) (v : list num)
    (enable_scale : bool) :
  (length v < length (free_keys self))%nat ->
  chi_square_call self v enable_scale = Raise IndexError /\
  log_likelihood_call self v enable_scale = Raise IndexError.
Proof.
  intros Hshort. unfold chi_square_call, log_likelihood_call.
  rewrite rebuild_params_short by (fold (free_keys self); lia).
  split; reflexivity.
Qed.

Lemma rebuild_params_agree (self : fits) (v v' ps ps' : list num) (n : nat) :
  (forall j, (j < n)%nat -> v !! j = v' !! j /\ ps !! j = ps' !! j) ->
  forall (keys : list key) (di : nat) (acc : list num),
    (di + length (filter (fun k => use (parameters_dict self k) = true) keys)
     <= n)%nat ->
    rebuild_params self v ps keys di acc
    = rebuild_params self v' ps' keys di acc.
Proof.
  intros Hagree keys.
  induction keys as [|k keys IH]; intros di acc Hn; [reflexivity|].
  simpl. destruct (use (parameters_dict self k)) eqn:Huse.
  - rewrite filter_cons_True in Hn by exact Huse. simpl in Hn.
    destruct (Hagree di) as [Hv Hps]; [lia|].
    unfold index. rewrite Hv, Hps.
    destruct (v' !! di); [|reflexivity]. cbn [mbind result_bind].
    destruct (ps' !! di); [|reflexivity]. cbn [mbind result_bind].
    apply IH. lia.
  - rewrite filter_cons_False in Hn by (rewrite Huse; discriminate).
    apply IH. exact Hn.
Qed.

(** X2. Coordinates beyond the free parameters are never read: a longer vector
    scores as its first coordinates do. *)
Theorem extra_coordinates_ignored (self : fits) (v extra : list num)
    (enable_scale : bool) :
  length v = length (free_keys self) ->
  chi_square_call self (v ++ extra) enable_scale
    = chi_square_call self v enable_scale /\
  log_likelihood_call self (v ++ extra) enable_scale
    = log_likelihood_call self v enable_scale.
Proof.
  intros Hlen.
  assert (Hsame :
    rebuild_params self (v ++ extra)
      (if enable_scale then _get_p0_scale self
       else np_ones (length (v ++ extra))) _parameters_order 0 []
    = rebuild_params self v
        (if enable_scale then _get_p0_scale self else np_ones (length v))
        _parameters_order 0 []).
  { apply (rebuild_params_agree self _ _ _ _ (length v)).
    - intros j Hj. split; [now apply lookup_app_l|].
      destruct enable_scale; [reflexivity|].
      unfold np_ones. rewrite !lookup_replicate_2; [reflexivity|lia|].
      rewrite length_app. lia.
    - simpl. fold (free_keys self). lia. }
  unfold chi_square_call, log_likelihood_call. rewrite Hsame.
  split; reflexivity.
Qed.

(** ** What an evaluation changes *)

Lemma with_sim_pattern_twice (self : fits) (a b : pattern) :
  with_sim_pattern (with_sim_pattern self a) b = with_sim_pattern self b.
Proof. reflexivity. Qed.

Lemma evaluation_sets_sim_pattern (self self' : fits) (v : list num)
    (enable_scale : bool) (y : option num) :
  chi_square_call self v enable_scale = Ok (self', y) \/
  log_likelihood_call self v enable_scale = Ok (self', y) ->
  exists sim : pattern, self' = with_sim_pattern self sim.
Proof.
  unfold chi_square_call, log_likelihood_call, chi_square, log_likelihood.
  intros [Heq|Heq];
    destruct (rebuild_params _ _ _ _ _ _) as [l|e]; simpl in Heq;
    try discriminate;
    do 8 (destruct l as [|? l]; [discriminate|]);
    (destruct l; [|discriminate]);
    (destruct (pattern_generator self); simpl in Heq; [|discriminate]);
    (destruct (data_pattern self); simpl in Heq; [|discriminate]);
    inversion Heq; subst; eexists; reflexivity.
Qed.

(** X3. However many points a library routine (the minimizer, the numeric
    Hessian) evaluates, and whichever evaluator it is given, the object it
    leaves differs from the one it started on in [sim_pattern] at most. *)
Theorem evaluations_only_touch_sim_pattern {R : Type} (likelihood : bool)
    (enable_scale : bool) (t : search R) (self s : fits) (r : R) :
  run_search (fun s0 x => if likelihood
                          then log_likelihood_call s0 x enable_scale
                          else chi_square_call s0 x enable_scale) self t
    = Ok (s, r) ->
  s = self \/ exists sim : pattern, s = with_sim_pattern self sim.
Proof.
  intros Hrun.
  eapply (run_search_invariant
            (fun s' => s' = self \/
                       exists sim : pattern, s' = with_sim_pattern self sim)
            (fun s0 x => if likelihood
                         then log_likelihood_call s0 x enable_scale
                         else chi_square_call s0 x enable_scale));
    [|left; reflexivity|exact Hrun].
  intros s0 x s0' y Hs0 Hcost.
  assert (Hsim : exists sim : pattern, s0' = with_sim_pattern s0 sim).
  { apply (evaluation_sets_sim_pattern s0 s0' x enable_scale y).
    destruct likelihood; [now right | now left]. }
  destruct Hsim as (sim & ->). right. exists sim.
  destruct Hs0 as [->|(sim0 & ->)]; reflexivity.
Qed.

(** ** The start vector *)

Lemma free_map_lookup {A : Type} (self : fits) (g : key -> A)
    (pre post : list key) (k : key) :
  use (parameters_dict self k) = true ->
  map g (filter (fun k => use (parameters_dict self k) = true)
                (pre ++ k :: post))
  !! length (filter (fun k => use (parameters_dict self k) = true) pre)
  = Some (g k).
Proof.
  intros Hk. rewrite filter_app, filter_cons_True by exact Hk.
  rewrite map_app. simpl.
  rewrite lookup_app_r by (rewrite length_map; lia).
  rewrite length_map, Nat.sub_diag. reflexivity.
Qed.

Lemma rebuild_params_start (self : fits) :
  forall (keys pre : list key) (acc : list num),
    (forall k, k ∈ keys -> use (parameters_dict self k) = true ->
       nmul (ndiv (p0 (parameters_dict self k))
                  (scale (parameters_dict self k)))
            (scale (parameters_dict self k))
       = p0 (parameters_dict self k)) ->
    rebuild_params self
      (map (fun k => ndiv (p0 (parameters_dict self k))
                          (scale (parameters_dict self k)))
           (filter (fun k => use (parameters_dict self k) = true)
                   (pre ++ keys)))
      (map (fun k => scale (parameters_dict self k))
           (filter (fun k => use (parameters_dict self k) = true)
                   (pre ++ keys)))
      keys
      (length (filter (fun k => use (parameters_dict self k) = true) pre))
      acc
    = Ok (acc ++ map (fun k => p0 (parameters_dict self k)) keys).
Proof.
  induction keys as [|k keys IH]; intros pre acc Hexact.
  - simpl. now rewrite app_nil_r.
  - simpl. destruct (use (parameters_dict self k)) eqn:Huse.
    + rewrite (index_Some _ _ _ (free_map_lookup self _ pre keys k Huse)).
      cbn [mbind result_bind].
      rewrite (index_Some _ _ _ (free_map_lookup self _ pre keys k Huse)).
      cbn [mbind result_bind].
      rewrite Hexact by (try left; auto).
      specialize (IH (pre ++ [k]) (acc ++ [p0 (parameters_dict self k)])).
      assert (Hlen :
        length (filter (fun k => use (parameters_dict self k) = true)
                       (pre ++ [k]))
        = S (length (filter (fun k => use (parameters_dict self k) = true)
                            pre))).
      { rewrite filter_app, filter_cons_True, filter_nil, length_app
          by exact Huse.
        simpl. lia. }
      rewrite Hlen in IH. rewrite <- !app_assoc in IH. simpl in IH.
      apply IH. intros k' Hk'. apply Hexact. now right.
    + specialize (IH (pre ++ [k]) (acc ++ [p0 (parameters_dict self k)])).
      assert (Hlen :
        length (filter (fun k => use (parameters_dict self k) = true)
                       (pre ++ [k]))
        = length (filter (fun k => use (parameters_dict self k) = true)
                         pre)).
      { rewrite filter_app, filter_cons_False, filter_nil, app_nil_r
          by (rewrite Huse; discriminate).
        reflexivity. }
      rewrite Hlen in IH. rewrite <- !app_assoc in IH. simpl in IH.
      apply IH. intros k' Hk'. apply Hexact. now right.
Qed.

(** X4. Where dividing by a scale and multiplying by it again gives the number
    back, the start vector [_get_p0] stands for the configured initial values:
    evaluating a cost function at it, with scaling on, evaluates the model at
    the p0 of every parameter. *)
Theorem start_vector_round_trip (self : fits) :
  (forall k, k ∈ free_keys self ->
     nmul (ndiv (p0 (parameters_dict self k)) (scale (parameters_dict self k)))
          (scale (parameters_dict self k))
     = p0 (parameters_dict self k)) ->
  let at_p0 (k : key) := p0 (parameters_dict self k) in
  chi_square_call self (_get_p0 self) true
    = chi_square self (at_p0 dx) (at_p0 dy) (at_p0 phi) (at_p0 total_cts)
        (select_fractions self (at_p0 f_p1) (at_p0 f_p2) (at_p0 f_p3))
        (at_p0 sigma) /\
  log_likelihood_call self (_get_p0 self) true
    = log_likelihood self (at_p0 dx) (at_p0 dy) (at_p0 phi)
        (select_fractions self (at_p0 f_p1) (at_p0 f_p2) (at_p0 f_p3))
        (at_p0 sigma).
Proof.
  intros Hexact at_p0.
  pose proof (rebuild_params_start self _parameters_order [] []) as Hstart.
  rewrite filter_nil in Hstart. cbn [length app] in Hstart.
  unfold chi_square_call, log_likelihood_call, _get_p0, _get_p0_scale.
  rewrite Hstart.
  - split; reflexivity.
  - intros k Hk Huse. apply Hexact. unfold free_keys.
    apply list_elem_of_filter. split; assumption.
Qed.

(** ** Configuring the start vector *)

Lemma map_filter_zip {A : Type} (P : key -> Prop) `{!forall k, Decision (P k)}
    (g : key -> A) (l : list key) :
  map g (filter P l)
  = map snd (filter (fun kv => P (fst kv)) (zip l (map g l))).
Proof.
  induction l as [|k l IH]; [reflexivity|].
  simpl. destruct (decide (P k)) as [Hk|Hk].
  - rewrite filter_cons_True by exact Hk.
    rewrite (filter_cons_True (fun kv => P (fst kv))) by exact Hk.
    simpl. now rewrite IH.
  - rewrite filter_cons_False by exact Hk.
    rewrite (filter_cons_False (fun kv => P (fst kv))) by exact Hk.
    exact IH.
Qed.

(** X5. After [set_inicial_values] and [set_scale_values] the free parameters
    are the ones that were free before, and the start vector lists, in
    canonical order, the quotient of the given initial value and the given
    scale of each free parameter. *)
Theorem configured_start_vector (self : fits)
    (a b c t s f1 f2 f3 sa sb sc st ss sf1 sf2 sf3 : num) :
  let self' := set_scale_values
                 (set_inicial_values self a b c t s f1 f2 f3)
                 sa sb sc st ss sf1 sf2 sf3 in
  let free (kv : key * num) := use (parameters_dict self (fst kv)) = true in
  free_keys self' = free_keys self /\
  _get_p0 self'
    = map snd (filter free
                 (zip _parameters_order
                      (zip_with ndiv [a; b; c; t; s; f1; f2; f3]
                                [sa; sb; sc; st; ss; sf1; sf2; sf3]))) /\
  _get_p0_scale self'
    = map snd (filter free
                 (zip _parameters_order
                      [sa; sb; sc; st; ss; sf1; sf2; sf3])) /\
  free_bounds self' = free_bounds self.
Proof.
  intros self' free.
  assert (Huse : forall k,
             use (parameters_dict self' k) = use (parameters_dict self k)).
  { intros k. destruct k; reflexivity. }
  assert (Hfilter : forall l : list key,
             filter (fun k => use (parameters_dict self' k) = true) l
             = filter (fun k => use (parameters_dict self k) = true) l).
  { intros l. apply list_filter_iff. intros k. now rewrite Huse. }
  unfold free_keys, _get_p0, _get_p0_scale, free_bounds.
  rewrite !Hfilter.
  split; [reflexivity|]. split; [|split].
  - rewrite (map_filter_zip
               (fun k => use (parameters_dict self k) = true)). reflexivity.
  - rewrite (map_filter_zip
               (fun k => use (parameters_dict self k) = true)). reflexivity.
  - apply map_ext_in. intros k Hk.
    apply list_elem_of_In, list_elem_of_filter in Hk as [_ Hk].
    unfold _parameters_order in Hk. rewrite !elem_of_cons in Hk.
    destruct Hk as [->|[->|[->|[->|[->|[->|[->|[->|Hk]]]]]]]];
      try reflexivity.
    inversion Hk.
Qed.

(** ** Free and fixed parameters *)

Lemma set_use_other (d : key -> parameter) (k k' : key) (b : bool) :
  k' <> k -> set_use d k b k' = d k'.
Proof. intros Hne. unfold set_use, dict_set. now rewrite decide_False. Qed.

Lemma set_use_same (d : key -> parameter) (k : key) (b : bool) :
  use (set_use d k b k) = b.
Proof. unfold set_use, dict_set. now rewrite decide_True. Qed.

Lemma filter_set_use_outside (d : key -> parameter) (k : key) (b : bool)
    (l : list key) :
  k ∉ l ->
  filter (fun k' => use (set_use d k b k') = true) l
  = filter (fun k' => use (d k') = true) l.
Proof.
  intros Hk. induction l as [|a l IH]; [reflexivity|].
  assert (Ha : a <> k) by (intros ->; apply Hk; now left).
  assert (Hl : k ∉ l) by (intros Hin; apply Hk; now right).
  destruct (use (d a)) eqn:Huse.
  - rewrite !filter_cons_True
      by (rewrite ?set_use_other by exact Ha; exact Huse).
    now rewrite IH.
  - rewrite !filter_cons_False
      by (rewrite ?set_use_other by exact Ha; rewrite Huse; discriminate).
    now apply IH.
Qed.

Lemma filter_set_use_inside (d : key -> parameter) (k : key) (b : bool)
    (l : list key) :
  NoDup l -> k ∈ l -> use (d k) = negb b ->
  length (filter (fun k' => use (set_use d k b k') = true) l)
    + (if b then 0 else 1)
  = length (filter (fun k' => use (d k') = true) l) + (if b then 1 else 0).
Proof.
  intros Hnd Hk Hflag. induction l as [|a l IH]; [inversion Hk|].
  apply NoDup_cons in Hnd as [Ha Hnd].
  destruct (decide (a = k)) as [->|Hne].
  - destruct b; simpl in Hflag.
    + rewrite filter_cons_True by apply set_use_same.
      rewrite (filter_cons_False (fun k' => use (d k') = true))
        by (rewrite Hflag; discriminate).
      rewrite filter_set_use_outside by exact Ha. simpl. lia.
    + rewrite filter_cons_False
        by (rewrite set_use_same; discriminate).
      rewrite (filter_cons_True (fun k' => use (d k') = true))
        by exact Hflag.
      rewrite filter_set_use_outside by exact Ha. simpl. lia.
  - apply elem_of_cons in Hk as [->|Hk]; [contradiction|].
    specialize (IH Hnd Hk).
    destruct (use (d a)) eqn:Huse.
    + rewrite !filter_cons_True
        by (rewrite ?set_use_other by exact Hne; exact Huse).
      simpl. lia.
    + rewrite !filter_cons_False
        by (rewrite ?set_use_other by exact Hne; rewrite Huse; discriminate).
      exact IH.
Qed.

(** X6. Start vector, scale vector and bounds always have one entry per free
    parameter. Switching the [use] flag of one fit parameter lengthens or
    shortens them by exactly one entry; the flag of any other key (a site or
    sub_pixels) does not matter to them. *)
Theorem use_flag_and_vector_length (self : fits) (k : key) (b : bool) :
  use (parameters_dict self k) = negb b ->
  let self' := with_parameters_dict self
                 (set_use (parameters_dict self) k b) in
  length (_get_p0_scale self') = length (_get_p0 self') /\
  length (free_bounds self') = length (_get_p0 self') /\
  if decide (k ∈ _parameters_order)
  then length (_get_p0 self') + (if b then 0 else 1)
       = length (_get_p0 self) + (if b then 1 else 0)
  else _get_p0 self' = _get_p0 self.
Proof.
  intros Hflag self'.
  unfold _get_p0_scale, _get_p0, free_bounds. rewrite !length_map.
  split; [reflexivity|]. split; [reflexivity|].
  destruct (decide (k ∈ _parameters_order)) as [Hk|Hk].
  - apply (filter_set_use_inside (parameters_dict self) k b);
      [exact NoDup_parameters_order | exact Hk | exact Hflag].
  - simpl. rewrite filter_set_use_outside by exact Hk.
    apply map_ext_in. intros k' Hk'.
    apply list_elem_of_In, list_elem_of_filter in Hk' as [_ Hk'].
    rewrite set_use_other; [reflexivity|]. intros ->. contradiction.
Qed.



(** ** Unknown cost name *)



(** ** Masked cells *)

Lemma valid_cells_app (d1 d2 s1 s2 : pattern) :
  length d1 = length s1 ->
  valid_cells (d1 ++ d2) (s1 ++ s2)
  = valid_cells d1 s1 ++ valid_cells d2 s2.
Proof.
  revert s1. induction d1 as [|d d1 IH]; intros [|s s1] Hlen;
    try discriminate; [reflexivity|].
  simpl in Hlen. injection Hlen as Hlen. simpl.
  destruct d, s; simpl; rewrite IH by exact Hlen; reflexivity.
Qed.

(** X9. A cell that is masked in the data or in the simulation contributes
    nothing to the chi-square: the score is that of the patterns without the
    cell. *)
Theorem masked_cell_is_skipped (d1 d2 s1 s2 : pattern) (d s : option num) :
  length d1 = length s1 ->
  d = None \/ s = None ->
  pearson_chi2 (d1 ++ d :: d2) (s1 ++ s :: s2)
  = pearson_chi2 (d1 ++ d2) (s1 ++ s2).
Proof.
  intros Hlen Hmask. rewrite !pearson_chi2_cells.
  rewrite !valid_cells_app by exact Hlen.
  do 3 f_equal. simpl.
  destruct Hmask as [->| ->]; [reflexivity|].
  destruct d; reflexivity.
Qed.

(** ** The drivers, from their result alone *)

Lemma run_driver_inv (dr : driver) (self self' : fits) :
  run_driver dr self = Ok self' ->
  exists (self1 s : fits) (res : OptimizeResult),
    make_generator (configured dr self) = Ok self1 /\
    run_search (cost_of dr) self1
      (op_minimize (_get_p0 (configured dr self))
                   (free_bounds (configured dr self))
                   (options_of dr self1)) = Ok (s, res) /\
    parameters_dict s = parameters_dict (configured dr self) /\
    store_results s res = Ok self'.
Proof.
  intros Hrun.
  assert (Hshape :
    (self1 ← make_generator (configured dr self);
     '(s, res) ← run_search (cost_of dr) self1
                   (op_minimize (_get_p0 (configured dr self))
                                (free_bounds (configured dr self))
                                (options_of dr self1));
     store_results s res) = Ok self').
  { destruct dr; exact Hrun. }
  destruct (make_generator (configured dr self)) as [self1|e] eqn:Hgen;
    [|discriminate].
  cbn [mbind result_bind] in Hshape.
  destruct (run_search _ _ _) as [[s res]|e] eqn:Hsearch; [|discriminate].
  exists self1, s, res. repeat split; try assumption.
  rewrite <- (make_generator_parameters _ _ Hgen).
  eapply (run_search_invariant
            (fun s' => parameters_dict s' = parameters_dict self1)
            (cost_of dr)); [|reflexivity|exact Hsearch].
  intros s0 x s0' y Hs0 Hcost. rewrite <- Hs0.
  destruct dr; simpl in Hcost.
  - eapply chi_square_call_parameters; eassumption.
  - eapply log_likelihood_call_parameters; eassumption.
Qed.

Lemma filter_use_set_value (d : key -> parameter) (k : key) (v : option num)
    (l : list key) :
  filter (fun k' => use (set_value d k v k') = true) l
  = filter (fun k' => use (d k') = true) l.
Proof.
  apply list_filter_iff. intros k'.
  destruct (same_config_set_value d d k v
              (fun _ => conj eq_refl (conj eq_refl eq_refl)) k') as (-> & _).
  reflexivity.
Qed.

(** A write-back loop that completes found a coordinate for every free
    parameter. *)
Lemma write_back_enough (keys : list key) :
  forall (di : nat) (x x' : list num) (d d' : key -> parameter),
    write_back keys di x d = Ok (x', d') ->
    filter (fun k => use (d k) = true) keys = [] \/
    (di + length (filter (fun k => use (d k) = true) keys) <= length x)%nat.
Proof.
  induction keys as [|k keys IH]; intros di x x' d d' Hrun; [now left|].
  simpl in Hrun. destruct (use (d k)) eqn:Huse.
  - right. rewrite filter_cons_True by exact Huse.
    unfold index in Hrun.
    destruct (x !! di) as [xi|] eqn:Hxi; [|discriminate].
    apply lookup_lt_Some in Hxi. cbn [mbind result_bind] in Hrun.
    apply IH in Hrun. rewrite filter_use_set_value in Hrun.
    rewrite length_insert in Hrun.
    destruct Hrun as [->|Hrun]; simpl; lia.
  - rewrite filter_cons_False by (rewrite Huse; discriminate).
    apply IH in Hrun. now rewrite filter_use_set_value in Hrun.
Qed.

Lemma store_results_inv (self s self' : fits) (res : OptimizeResult) :
  parameters_dict s = parameters_dict self ->
  store_results s res = Ok self' ->
  exists r : OptimizeResult,
    results self' = Some r /\
    res_fun r = res_fun res /\ res_success r = res_success res /\
    res_jac r = res_jac res /\ length (res_x r) = length (res_x res) /\
    same_config (parameters_dict self') (parameters_dict self) /\
    (forall k, k ∉ _parameters_order ->
               parameters_dict self' k = parameters_dict self k) /\
    (forall k, k ∈ _parameters_order ->
       use (parameters_dict self k) = false ->
       value (parameters_dict self' k) = Some (p0 (parameters_dict self k))) /\
    (forall k, k ∈ free_keys self ->
       exists xi : num,
         res_x res !! reduced_index self k = Some xi /\
         res_x r !! reduced_index self k
           = Some (nmul xi (scale (parameters_dict self k))) /\
         value (parameters_dict self' k)
           = Some (nmul xi (scale (parameters_dict self k)))).
Proof.
  intros Hd Hstore. unfold store_results in Hstore. rewrite Hd in Hstore.
  destruct (write_back _ _ _ _) as [[x d]|e] eqn:Hwb; [|discriminate].
  cbn [mbind result_bind] in Hstore. inversion Hstore; subst self'.
  clear Hstore.
  destruct (write_back_spec (parameters_dict self) _parameters_order []
              (res_x res) (parameters_dict self))
    as (x' & d' & Hrun & Hcfg & Hlen & _ & Hout & Hfix & Hfr).
  - exact NoDup_parameters_order.
  - intros k. repeat split.
  - apply write_back_enough in Hwb. cbn [app].
    destruct Hwb as [->|Hwb]; simpl in *; lia.
  - rewrite filter_nil in Hrun. cbn [length] in Hrun.
    rewrite Hwb in Hrun. inversion Hrun; subst x' d'. clear Hrun.
    eexists. split; [reflexivity|]. simpl.
    repeat split; try assumption; try apply Hcfg.
    intros k Hk. apply list_elem_of_filter in Hk as [Hfree Hk].
    destruct (Hfr k Hk Hfree) as (xi & Hxi & Hval & Hx').
    exists xi. repeat split; assumption.
Qed.

(** X10. When a driver returns, the stored [results] are the optimizer's with
    its vector rescaled in place: for every free parameter the entry of
    [results['x']] is the returned coordinate times the scale, the very number
    the parameter's [value] holds; the other entries of the result are
    untouched. *)
Theorem results_hold_physical_values (dr : driver) (self self' : fits) :
  run_driver dr self = Ok self' ->
  let cfg := configured dr self in
  exists (self1 s : fits) (res r : OptimizeResult),
    make_generator cfg = Ok self1 /\
    run_search (cost_of dr) self1
      (op_minimize (_get_p0 cfg) (free_bounds cfg) (options_of dr self1))
      = Ok (s, res) /\
    results self' = Some r /\
    res_fun r = res_fun res /\ res_success r = res_success res /\
    res_jac r = res_jac res /\ length (res_x r) = length (res_x res) /\
    (length (free_keys cfg) <= length (res_x res))%nat /\
    forall k, k ∈ free_keys cfg ->
      exists xi : num,
        res_x res !! reduced_index cfg k = Some xi /\
        res_x r !! reduced_index cfg k
          = Some (nmul xi (scale (parameters_dict cfg k))) /\
        value (parameters_dict self' k) = res_x r !! reduced_index cfg k.
Proof.
  intros Hrun cfg.
  destruct (run_driver_inv dr self self' Hrun)
    as (self1 & s & res & Hgen & Hsearch & Hd & Hstore).
  destruct (store_results_inv cfg s self' res Hd Hstore)
    as (r & Hr & Hfun & Hsucc & Hjac & Hlen & _ & _ & _ & Hfree).
  exists self1, s, res, r. repeat split; try assumption.
  - unfold store_results in Hstore. rewrite Hd in Hstore.
    destruct (write_back _ _ _ _) as [[x d]|e] eqn:Hwb; [|discriminate].
    apply write_back_enough in Hwb. unfold free_keys. subst cfg.
    destruct Hwb as [->|Hwb]; simpl in *; lia.
  - intros k Hk. destruct (Hfree k Hk) as (xi & Hxi & Hrx & Hval).
    exists xi. repeat split; congruence.
Qed.

(** X11. The likelihood driver does not restore the flag it clears: on the
    object it returns, total_cts is fixed, and whichever driver runs next on
    that object keeps it fixed and reports the configured total_cts (its p0)
    as the fitted value. *)
Theorem likelihood_leaves_total_cts_fixed (dr : driver)
    (self s1 s2 : fits) :
  maximize_likelyhood self = Ok s1 ->
  run_driver dr s1 = Ok s2 ->
  use (parameters_dict s1 total_cts) = false /\
  (total_cts ∉ free_keys (configured dr s1)) /\
  use (parameters_dict s2 total_cts) = false /\
  value (parameters_dict s2 total_cts)
    = Some (p0 (parameters_dict self total_cts)).
Proof.
  intros Hml Hnext.
  assert (Htc : total_cts ∈ _parameters_order).
  { unfold _parameters_order. rewrite !elem_of_cons. tauto. }
  destruct (run_driver_inv Likelihood self s1 Hml)
    as (a1 & a & res & _ & _ & Hd & Hstore).
  destruct (store_results_inv (configured Likelihood self) a s1 res Hd Hstore)
    as (_ & _ & _ & _ & _ & _ & Hcfg & _ & _ & _).
  change (parameters_dict (configured Likelihood self))
    with (set_use (parameters_dict self) total_cts false) in Hcfg.
  destruct (Hcfg total_cts) as (Huse1 & _ & Hp1).
  rewrite set_use_same in Huse1.
  unfold set_use, dict_set in Hp1. rewrite decide_True in Hp1 by reflexivity.
  simpl in Hp1.
  assert (Hcfg_use : use (parameters_dict (configured dr s1) total_cts)
                     = false).
  { destruct dr; [exact Huse1 | reflexivity]. }
  assert (Hcfg_p0 : p0 (parameters_dict (configured dr s1) total_cts)
                    = p0 (parameters_dict self total_cts)).
  { destruct dr; exact Hp1. }
  destruct (run_driver_inv dr s1 s2 Hnext)
    as (b1 & b & res' & _ & _ & Hd' & Hstore').
  destruct (store_results_inv (configured dr s1) b s2 res' Hd' Hstore')
    as (_ & _ & _ & _ & _ & _ & Hcfg' & _ & Hfix & _).
  split; [exact Huse1|]. split; [|split].
  - unfold free_keys. rewrite list_elem_of_filter. intros [Hfree _].
    congruence.
  - destruct (Hcfg' total_cts) as (-> & _). exact Hcfg_use.
  - rewrite (Hfix total_cts Htc Hcfg_use). now rewrite Hcfg_p0.
Qed.


End Theory.
End FitsExtra.

(** * Further properties of the orchestrator (fitmanager.py) *)

Module FitManagerExtra.
Import FitManager FitManagerTheory.
Section Theory.
Context `{FitCollaborators}.

(** ** The setters *)

Lemma for_each_stores {V : Type} (store : manager -> string -> V -> manager)
    (unknown : exn) (stop : string -> V -> manager -> option exn) :
  (forall s k v, parameter_keys (store s k v) = parameter_keys s) ->
  forall (pre rest : list (string * V)) (self : manager),
    Forall (fun kv => fst kv ∈ parameter_keys self /\
                      forall s, stop (fst kv) (snd kv) s = None) pre ->
    for_each (pre ++ rest)
      (fun kv s =>
         if decide (fst kv ∈ parameter_keys s)
         then match stop (fst kv) (snd kv) s with
              | None => Returned (store s (fst kv) (snd kv))
              | Some e => Raised e s
              end
         else Raised unknown s) self
    = for_each rest
        (fun kv s =>
           if decide (fst kv ∈ parameter_keys s)
           then match stop (fst kv) (snd kv) s with
                | None => Returned (store s (fst kv) (snd kv))
                | Some e => Raised e s
                end
           else Raised unknown s)
        (foldl (fun s kv => store s (fst kv) (snd kv)) self pre).
Proof.
  intros Hkeys pre rest.
  induction pre as [|[k v] pre IH]; intros self Hpre; [reflexivity|].
  apply Forall_cons in Hpre as [[Hk Hstop] Hpre].
  cbn [app for_each foldl fst snd].
  rewrite decide_True by exact Hk. rewrite Hstop.
  apply IH. rewrite Hkeys. exact Hpre.
Qed.

Lemma foldl_parameter_keys {V : Type}
    (store : manager -> string -> V -> manager) :
  (forall s k v, parameter_keys (store s k v) = parameter_keys s) ->
  forall (pre : list (string * V)) (self : manager),
    parameter_keys (foldl (fun s kv => store s (fst kv) (snd kv)) self pre)
    = parameter_keys self.
Proof.
  intros Hkeys pre.
  induction pre as [|[k v] pre IH]; intros self; [reflexivity|].
  simpl. rewrite IH. apply Hkeys.
Qed.

(** The entries a setter has stored after the keyword arguments [pre]. *)
Definition stored {V : Type} (pre : list (string * V)) (d : gmap string V)
  : gmap string V :=
  foldl (fun d kv => <[fst kv := snd kv]> d) d pre.

Lemma foldl_initial_values (pre : list (string * num)) :
  forall self : manager,
    foldl (fun s kv => with_p_initial_values s
                         (<[fst kv := snd kv]> (p_initial_values s)))
          self pre
    = with_p_initial_values self (stored pre (p_initial_values self)).
Proof.
  induction pre as [|[k v] pre IH]; intros self.
  - destruct self; reflexivity.
  - simpl. rewrite IH. reflexivity.
Qed.

Lemma foldl_fixed_values (pre : list (string * num)) :
  forall self : manager,
    foldl (fun s kv => with_p_fixed_values s
                         (<[fst kv := snd kv]> (p_fixed_values s)))
          self pre
    = with_p_fixed_values self (stored pre (p_fixed_values self)).
Proof.
  induction pre as [|[k v] pre IH]; intros self.
  - destruct self; reflexivity.
  - simpl. rewrite IH. reflexivity.
Qed.

Lemma foldl_scale (pre : list (string * num)) :
  forall self : manager,
    foldl (fun s kv => with_scale s (<[fst kv := snd kv]> (_scale s)))
          self pre
    = with_scale self (stored pre (_scale self)).
Proof.
  induction pre as [|[k v] pre IH]; intros self.
  - destruct self; reflexivity.
  - simpl. rewrite IH. reflexivity.
Qed.

Lemma foldl_bounds (pre : list (string * bound)) :
  forall self : manager,
    foldl (fun s kv => with_bounds s (<[fst kv := snd kv]> (_bounds s)))
          self pre
    = with_bounds self (stored pre (_bounds self)).
Proof.
  induction pre as [|[k v] pre IH]; intros self.
  - destruct self; reflexivity.
  - simpl. rewrite IH. reflexivity.
Qed.

(** X12. A setter takes its keyword arguments in order and stops at the first
    key that is not a parameter key: the entries before it are stored already
    when the exception leaves the call. The exception is ValueError, except
    for [set_initial_values], whose [raise] of a tuple ends in TypeError. *)
Theorem setters_store_until_unknown_key (self : manager)
    (pre post : list (string * num)) (bad : string) (v : num) :
  Forall (fun kv => fst kv ∈ parameter_keys self) pre ->
  bad ∉ parameter_keys self ->
  (set_initial_values self pre
   = Returned (with_p_initial_values self
                 (stored pre (p_initial_values self))) /\
   set_initial_values self (pre ++ (bad, v) :: post)
   = Raised TypeError (with_p_initial_values self
                         (stored pre (p_initial_values self)))) /\
  (set_fixed_values self pre
   = Returned (with_p_fixed_values self (stored pre (p_fixed_values self))) /\
   set_fixed_values self (pre ++ (bad, v) :: post)
   = Raised ValueError (with_p_fixed_values self
                          (stored pre (p_fixed_values self)))) /\
  (set_step_modifier self pre
   = Returned (with_scale self (stored pre (_scale self))) /\
   set_step_modifier self (pre ++ (bad, v) :: post)
   = Raised ValueError (with_scale self (stored pre (_scale self)))).
Proof.
  intros Hpre Hbad.
  assert (Hpre' : Forall (fun kv : string * num =>
                            fst kv ∈ parameter_keys self /\
                            forall s : manager,
                              (fun _ _ _ => @None exn) (fst kv) (snd kv) s
                              = None) pre).
  { eapply Forall_impl; [exact Hpre|]. intros kv Hkv. now split. }
  unfold set_initial_values, set_fixed_values, set_step_modifier.
  repeat split.
  - rewrite <- (app_nil_r pre) at 1.
    rewrite (for_each_stores
               (fun s k x => with_p_initial_values s
                               (<[k := x]> (p_initial_values s)))
               TypeError (fun _ _ _ => None) (fun _ _ _ => eq_refl)
               pre [] self Hpre').
    simpl. now rewrite foldl_initial_values.
  - rewrite (for_each_stores
               (fun s k x => with_p_initial_values s
                               (<[k := x]> (p_initial_values s)))
               TypeError (fun _ _ _ => None) (fun _ _ _ => eq_refl)
               pre ((bad, v) :: post) self Hpre').
    rewrite foldl_initial_values. cbn [for_each fst snd].
    rewrite decide_False by exact Hbad. reflexivity.
  - rewrite <- (app_nil_r pre) at 1.
    rewrite (for_each_stores
               (fun s k x => with_p_fixed_values s
                               (<[k := x]> (p_fixed_values s)))
               ValueError (fun _ _ _ => None) (fun _ _ _ => eq_refl)
               pre [] self Hpre').
    simpl. now rewrite foldl_fixed_values.
  - rewrite (for_each_stores
               (fun s k x => with_p_fixed_values s
                               (<[k := x]> (p_fixed_values s)))
               ValueError (fun _ _ _ => None) (fun _ _ _ => eq_refl)
               pre ((bad, v) :: post) self Hpre').
    rewrite foldl_fixed_values. cbn [for_each fst snd].
    rewrite decide_False by exact Hbad. reflexivity.
  - rewrite <- (app_nil_r pre) at 1.
    rewrite (for_each_stores
               (fun s k x => with_scale s (<[k := x]> (_scale s)))
               ValueError (fun _ _ _ => None) (fun _ _ _ => eq_refl)
               pre [] self Hpre').
    simpl. now rewrite foldl_scale.
  - rewrite (for_each_stores
               (fun s k x => with_scale s (<[k := x]> (_scale s)))
               ValueError (fun _ _ _ => None) (fun _ _ _ => eq_refl)
               pre ((bad, v) :: post) self Hpre').
    rewrite foldl_scale. cbn [for_each fst snd].
    rewrite decide_False by exact Hbad. reflexivity.
Qed.

Lemma set_bounds_app (pre : list (string * bound))
    (rest : list (string * list (option num))) :
  forall self : manager,
    Forall (fun kv => fst kv ∈ parameter_keys self) pre ->
    set_bounds self
      (map (fun kv => (fst kv, [fst (snd kv); snd (snd kv)])) pre ++ rest)
    = set_bounds
        (foldl (fun s kv => with_bounds s (<[fst kv := snd kv]> (_bounds s)))
               self pre) rest.
Proof.
  unfold set_bounds.
  induction pre as [|[k [lo hi]] pre IH]; intros self Hpre; [reflexivity|].
  apply Forall_cons in Hpre as [Hk Hpre].
  cbn [map app for_each foldl fst snd].
  rewrite decide_True by exact Hk.
  apply IH. exact Hpre.
Qed.

(** X13. [set_bounds] also stops at a value that is not a pair, with
    ValueError, keeping what it stored before. *)
Theorem set_bounds_checks_each_tuple (self : manager)
    (pre : list (string * bound)) (key : string) (t : list (option num))
    (post : list (string * list (option num))) :
  Forall (fun kv => fst kv ∈ parameter_keys self) pre ->
  key ∉ parameter_keys self \/ length t <> 2%nat ->
  let as_kwargs :=
    map (fun kv : string * bound =>
           (fst kv, [fst (snd kv); snd (snd kv)])) pre in
  set_bounds self as_kwargs
  = Returned (with_bounds self (stored pre (_bounds self))) /\
  set_bounds self (as_kwargs ++ (key, t) :: post)
  = Raised ValueError (with_bounds self (stored pre (_bounds self))).
Proof.
  intros Hpre Hbad as_kwargs. subst as_kwargs. split.
  - rewrite <- (app_nil_r (map _ pre)).
    rewrite set_bounds_app by exact Hpre.
    rewrite foldl_bounds. reflexivity.
  - rewrite set_bounds_app by exact Hpre.
    rewrite foldl_bounds. unfold set_bounds. cbn [for_each fst snd].
    destruct (decide (key ∈ parameter_keys _)) as [Hin|]; [|reflexivity].
    destruct Hbad as [Hbad|Hlen]; [contradiction|].
    destruct t as [|lo [|hi [|x t]]]; try reflexivity.
    now contradiction Hlen.
Qed.

(** ** Initial values *)

Lemma initial_fit_values_loop_inv (dp : option DataPattern) (n : nat)
    (fixed init : gmap string num) :
  forall (keys : list string) (acc p0 : list num) (acc_fix p_fix : list bool),
    initial_fit_values_loop dp n fixed init keys acc acc_fix
      = Ok (p0, p_fix) ->
    exists vfs : list (num * bool),
      Forall2 (fun k vf => initial_fit_value dp n fixed init k = Ok vf)
              keys vfs /\
      p0 = acc ++ map fst vfs /\ p_fix = acc_fix ++ map snd vfs.
Proof.
  induction keys as [|k keys IH]; intros acc p0 acc_fix p_fix Hrun.
  - simpl in Hrun. inversion Hrun; subst. exists [].
    simpl. rewrite !app_nil_r. repeat split. constructor.
  - simpl in Hrun.
    destruct (initial_fit_value dp n fixed init k) as [[v f]|e] eqn:Hk;
      [|discriminate].
    cbn [mbind result_bind] in Hrun.
    destruct (IH _ _ _ _ Hrun) as (vfs & Hvfs & -> & ->).
    exists ((v, f) :: vfs). split; [now constructor|].
    simpl. now rewrite <- !app_assoc.
Qed.

Lemma get_initial_values_inv (self : manager) (pass_results : bool)
    (p0 : list num) (p_fix : list bool) :
  _get_initial_values self pass_results = Ok (p0, p_fix) ->
  exists (init : gmap string num) (vfs : list (num * bool)),
    Forall2 (fun k vf =>
               initial_fit_value (dp_pattern self) (_n_sites self)
                 (p_fixed_values self) init k = Ok vf)
            (compute_parameter_keys (_n_sites self)) vfs /\
    p0 = map fst vfs /\ p_fix = map snd vfs.
Proof.
  unfold _get_initial_values. intros Hrun.
  destruct (if _ && _ then _ else _) as [init|e]; [|discriminate].
  cbn [mbind result_bind] in Hrun. unfold compute_initial_fit_values in Hrun.
  apply initial_fit_values_loop_inv in Hrun as (vfs & Hvfs & -> & ->).
  exists init, vfs. repeat split. exact Hvfs.
Qed.

(** X14. A value given to [set_fixed_values] wins over everything else: the
    parameter is reported fixed, at that value, whatever initial value was
    configured for it and whether or not the last fit is passed on. *)
Theorem fixed_value_overrides (self self' : manager) (k : string) (v : num)
    (pass_results : bool) (p0 : list num) (p_fix : list bool) (i : nat) :
  set_fixed_values self [(k, v)] = Returned self' ->
  _get_initial_values self' pass_results = Ok (p0, p_fix) ->
  compute_parameter_keys (_n_sites self) !! i = Some k ->
  p0 !! i = Some v /\ p_fix !! i = Some true.
Proof.
  unfold set_fixed_values. cbn [for_each fst snd].
  destruct (decide (k ∈ parameter_keys self)); [|discriminate].
  intros Hset Hget Hi. inversion Hset; subst self'. clear Hset.
  apply get_initial_values_inv in Hget as (init & vfs & Hvfs & -> & ->).
  cbn [_n_sites with_p_fixed_values p_fixed_values dp_pattern] in Hvfs.
  destruct (Forall2_lookup_l _ _ _ _ _ Hvfs Hi) as (vf & Hvf & Hval).
  unfold initial_fit_value in Hval. rewrite lookup_insert in Hval.
  rewrite decide_True in Hval by reflexivity.
  inversion Hval; subst vf.
  rewrite !list_lookup_fmap, Hvf. split; reflexivity.
Qed.

Lemma initial_fit_value_with_pattern (dp : DataPattern) (n : nat)
    (fixed init : gmap string num) (k : string) :
  exists (v : num) (f : bool),
    initial_fit_value (Some dp) n fixed init k = Ok (v, f) /\
    f = bool_decide (is_Some (fixed !! k) \/
                     (init !! k = None /\ (k = "total_cts" \/ k = "sigma"))).
Proof.
  unfold initial_fit_value.
  destruct (fixed !! k) as [v|] eqn:Hfixed.
  { exists v, true. split; [reflexivity|].
    symmetry. apply bool_decide_eq_true. left. now exists v. }
  destruct (init !! k) as [v|] eqn:Hinit.
  { exists v, false. split; [reflexivity|].
    symmetry. apply bool_decide_eq_false.
    intros [[? Hs]|[Hn _]]; discriminate. }
  repeat (destruct (decide _) as [->|?]);
    simpl; eexists; eexists; (split; [reflexivity|]); try reflexivity.
  symmetry. apply bool_decide_eq_false.
  intros [[? Hs]|[_ [?|?]]]; [discriminate|congruence|congruence].
Qed.

(** X15. With a data pattern, [compute_initial_fit_values] never raises and
    returns one value and one flag per parameter key. A parameter is flagged
    fixed exactly when the user fixed it, or when it is total_cts or sigma and
    the user gave no initial value for it. *)
Theorem initial_values_shape (dp : DataPattern) (n_sites : nat)
    (fixed init : gmap string num) :
  exists (p0 : list num) (p_fix : list bool),
    compute_initial_fit_values (Some dp) n_sites fixed init = Ok (p0, p_fix) /\
    length p0 = (5 + n_sites)%nat /\ length p_fix = (5 + n_sites)%nat /\
    forall (i : nat) (k : string),
      compute_parameter_keys n_sites !! i = Some k ->
      p_fix !! i
      = Some (bool_decide
                (is_Some (fixed !! k) \/
                 (init !! k = None /\ (k = "total_cts" \/ k = "sigma")))).
Proof.
  destruct (initial_fit_values_loop_spec (Some dp) n_sites fixed init
              (compute_parameter_keys n_sites) [] [])
    as (vfs & Hvfs & Hrun).
  { apply Forall_forall. intros k _.
    destruct (initial_fit_value_with_pattern dp n_sites fixed init k)
      as (v & f & Hk & _).
    now exists (v, f). }
  exists (map fst vfs), (map snd vfs).
  split; [exact Hrun|].
  assert (Hlen : length vfs = (5 + n_sites)%nat).
  { rewrite <- (Forall2_length _ _ _ Hvfs). unfold compute_parameter_keys.
    rewrite length_app, length_map, length_seq. reflexivity. }
  rewrite !length_map. repeat split; try exact Hlen.
  intros i k Hi.
  destruct (Forall2_lookup_l _ _ _ _ _ Hvfs Hi) as ([v f] & Hvf & Hval).
  destruct (initial_fit_value_with_pattern dp n_sites fixed init k)
    as (v' & f' & Hk & Hf).
  rewrite Hk in Hval. assert (Hff : f' = f) by (now inversion Hval).
  rewrite list_lookup_fmap, Hvf. simpl. now rewrite <- Hff, Hf.
Qed.

(** *** Without a data pattern *)

(** Whether the loop has to ask the data pattern for the value of a
    key. *)
Definition needs_pattern (fixed init : gmap string num) (k : string)
  : bool :=
  bool_decide (fixed !! k = None /\ init !! k = None) &&
  bool_decide (k ∈ ["dx"; "dy"; "phi"; "total_cts"]).

Lemma initial_fit_value_without_pattern (n : nat)
    (fixed init : gmap string num) (k : string) :
  if needs_pattern fixed init k
  then initial_fit_value None n fixed init k = Raise AttributeError
  else exists vf, initial_fit_value None n fixed init k = Ok vf.
Proof.
  unfold needs_pattern, initial_fit_value.
  destruct (fixed !! k) as [v|] eqn:Hfixed.
  { rewrite bool_decide_eq_false_2 by (intros [? _]; discriminate).
    now eexists. }
  destruct (init !! k) as [v|] eqn:Hinit.
  { rewrite bool_decide_eq_false_2 by (intros [_ ?]; discriminate).
    now eexists. }
  rewrite bool_decide_eq_true_2 by (now split). cbn [andb].
  repeat (destruct (decide (k = _)) as [->|?]); try reflexivity.
  - now eexists.
  - rewrite bool_decide_eq_false_2; [now eexists|].
    rewrite !elem_of_cons. intros [?|[?|[?|[?|Hin]]]]; try contradiction.
    inversion Hin.
Qed.

Lemma initial_fit_values_loop_without_pattern (n : nat)
    (fixed init : gmap string num) :
  forall (keys : list string) (p0 : list num) (p_fix : list bool),
    if existsb (needs_pattern fixed init) keys
    then initial_fit_values_loop None n fixed init keys p0 p_fix
         = Raise AttributeError
    else exists (q0 : list num) (q_fix : list bool),
           initial_fit_values_loop None n fixed init keys p0 p_fix
           = Ok (q0, q_fix) /\
           length q0 = (length p0 + length keys)%nat /\
           length q_fix = (length p_fix + length keys)%nat.
Proof.
  induction keys as [|k keys IH]; intros p0 p_fix.
  - simpl. exists p0, p_fix. repeat split; lia.
  - cbn [existsb initial_fit_values_loop].
    pose proof (initial_fit_value_without_pattern n fixed init k) as Hk.
    destruct (needs_pattern fixed init k).
    + rewrite Hk. reflexivity.
    + destruct Hk as ([v f] & ->). cbn [orb mbind result_bind].
      specialize (IH (p0 ++ [v]) (p_fix ++ [f])).
      destruct (existsb (needs_pattern fixed init) keys); [exact IH|].
      destruct IH as (q0 & q_fix & Hrun & Hl0 & Hlf).
      exists q0, q_fix. rewrite !length_app in *. simpl in *.
      repeat split; [exact Hrun | lia | lia].
Qed.

Lemma fraction_needs_no_pattern (fixed init : gmap string num)
    (l : list nat) :
  existsb (needs_pattern fixed init) (map fraction_key l) = false.
Proof.
  induction l as [|i l IH]; [reflexivity|].
  cbn [map existsb]. rewrite IH, orb_false_r.
  unfold needs_pattern. rewrite (bool_decide_eq_false_2 (_ ∈ _)).
  - apply andb_false_r.
  - unfold fraction_key. rewrite !elem_of_cons.
    intros [Hk|[Hk|[Hk|[Hk|Hk]]]]; try discriminate Hk. inversion Hk.
Qed.

(** X30. Without a data pattern, [compute_initial_fit_values] raises
    AttributeError exactly when dx, dy, phi or total_cts has neither a
    fixed nor an initial value from the user; sigma and the fractions never
    need the pattern.  Otherwise it returns one value and one flag per
    parameter key. *)
Theorem initial_values_without_pattern (n_sites : nat)
    (fixed init : gmap string num) :
  let unset (k : string) :=
    bool_decide (fixed !! k = None /\ init !! k = None) in
  if existsb unset ["dx"; "dy"; "phi"; "total_cts"]
  then compute_initial_fit_values None n_sites fixed init
       = Raise AttributeError
  else exists (p0 : list num) (p_fix : list bool),
         compute_initial_fit_values None n_sites fixed init = Ok (p0, p_fix) /\
         length p0 = (5 + n_sites)%nat /\ length p_fix = (5 + n_sites)%nat.
Proof.
  intros unset. unfold compute_initial_fit_values.
  pose proof (initial_fit_values_loop_without_pattern n_sites fixed init
                (compute_parameter_keys n_sites) [] []) as Hloop.
  assert (Hsame : existsb (needs_pattern fixed init)
                          (compute_parameter_keys n_sites)
                  = existsb unset ["dx"; "dy"; "phi"; "total_cts"]).
  { unfold compute_parameter_keys.
    rewrite existsb_app, fraction_needs_no_pattern, orb_false_r.
    unfold needs_pattern, unset. cbn [existsb].
    rewrite !(bool_decide_eq_true_2 (_ ∈ _))
      by (rewrite !elem_of_cons; tauto).
    rewrite (bool_decide_eq_false_2 ("sigma" ∈ _)).
    - now rewrite !andb_true_r, !andb_false_r, !orb_false_r.
    - rewrite !elem_of_cons.
      intros [Hk|[Hk|[Hk|[Hk|Hk]]]]; try discriminate Hk. inversion Hk. }
  rewrite Hsame in Hloop.
  destruct (existsb unset ["dx"; "dy"; "phi"; "total_cts"]); [exact Hloop|].
  destruct Hloop as (p0 & p_fix & Hrun & Hl0 & Hlf).
  exists p0, p_fix. split; [exact Hrun|].
  unfold compute_parameter_keys in Hl0, Hlf.
  rewrite length_app, length_map, length_seq in Hl0, Hlf.
  simpl in *. split; lia.
Qed.

(** ** The range check *)

Lemma no_cell_differs (data_mask sim_mask : list bool) :
  length sim_mask = length data_mask ->
  negb (existsb (fun b => b)
          (zip_with (fun d s => Bool.eqb (negb d) s) data_mask sim_mask))
  = bool_decide (sim_mask = data_mask).
Proof.
  revert sim_mask.
  induction data_mask as [|d data_mask IH]; intros [|s sim_mask] Hlen;
    try discriminate.
  - reflexivity.
  - simpl in Hlen. injection Hlen as Hlen. specialize (IH _ Hlen).
    simpl. rewrite negb_orb, IH.
    destruct (decide (sim_mask = data_mask)) as [->|Hne].
    + rewrite bool_decide_eq_true_2 by reflexivity.
      destruct d, s; simpl; try reflexivity;
        try (symmetry; apply bool_decide_eq_true; reflexivity);
        symmetry; apply bool_decide_eq_false; congruence.
    + rewrite (bool_decide_eq_false_2 (sim_mask = data_mask)) by exact Hne.
      rewrite andb_false_r. symmetry. apply bool_decide_eq_false.
      congruence.
Qed.

(** X16. The data pattern counts as in range exactly when the simulated
    pattern masks the same cells as the data: a cell masked in one of the two
    only, whichever it is, puts the pattern out of range. *)
Theorem in_range_iff_masks_agree (self : manager) (dp : DataPattern)
    (dx dy phi : num) (rest : list num) (p_fix : list bool) :
  dp_pattern self = Some dp ->
  _get_initial_values self false = Ok (dx :: dy :: phi :: rest, p_fix) ->
  length (range_sim_mask (lib self) dp (_sub_pixels self) dx dy phi)
    = length (dp_mask dp) ->
  is_datapattern_inrange self
  = Ok (bool_decide
          (range_sim_mask (lib self) dp (_sub_pixels self) dx dy phi
           = dp_mask dp)).
Proof.
  intros Hdp Hinit Hlen. unfold is_datapattern_inrange.
  rewrite Hinit, Hdp. cbn [mbind result_bind index require].
  simpl. now rewrite no_cell_differs.
Qed.

(** ** Site combinations *)

Lemma product_lengths (patterns_list : list (list Z)) :
  forall c : list Z,
    c ∈ product patterns_list -> length c = length patterns_list.
Proof.
  induction patterns_list as [|p rest IH]; intros c Hc.
  - apply list_elem_of_singleton in Hc as ->. reflexivity.
  - cbn [product] in Hc.
    induction p as [|s p IHp]; [inversion Hc|].
    cbn [map concat] in Hc. apply elem_of_app in Hc as [Hc|Hc].
    + apply list_elem_of_fmap in Hc as (c' & -> & Hc').
      simpl. now rewrite (IH c' Hc').
    + apply IHp. exact Hc.
Qed.

Lemma product_empty (patterns_list : list (list Z)) :
  [] ∈ patterns_list -> product patterns_list = [].
Proof.
  induction patterns_list as [|p rest IH]; intros Hin; [inversion Hin|].
  cbn [product]. apply elem_of_cons in Hin as [<-|Hin]; [reflexivity|].
  rewrite (IH Hin). clear. induction p; [reflexivity|]. simpl. assumption.
Qed.

Lemma product_nonempty (patterns_list : list (list Z)) :
  [] ∉ patterns_list -> product patterns_list <> [].
Proof.
  induction patterns_list as [|p rest IH]; intros Hin; [discriminate|].
  cbn [product].
  destruct p as [|s p]; [exfalso; apply Hin; now left|].
  assert (Hrest : product rest <> [])
    by (apply IH; intros Hr; apply Hin; now right).
  destruct (product rest) as [|c cs]; [contradiction|]. discriminate.
Qed.

Lemma single_fit_sites_length (args : list site_arg) :
  forall sites sites' : list Z,
    single_fit_sites args sites = Ok sites' ->
    length sites' = (length sites + length args)%nat.
Proof.
  induction args as [|a args IH]; intros sites sites' Hconv.
  - simpl in Hconv. inversion Hconv; subst. simpl. lia.
  - simpl in Hconv. destruct a as [n|[|n [|m l]]]; try discriminate;
      apply IH in Hconv; rewrite length_app in Hconv; simpl in *; lia.
Qed.

(** X17. A wrong number of sites does not surface: [_single_fit] raises
    ValueError before it builds anything, and both entry points swallow it.
    [run_fits] given a number of candidate lists that differs from the number
    of sites, and [run_single_fit] given that many indices, return without an
    exception, and the manager is as before the call (with
    [done_param_verbose] cleared and the current-fit handle None): no fit was
    made and no row added. *)
Theorem site_count_error_is_swallowed (self : manager)
    (args : list site_arg) (sites : list Z) (pass_results : bool)
    (verbose : Z) (verbose_graphics get_errors : bool) :
  is_datapattern_inrange self = Ok true ->
  length args <> _n_sites self ->
  let untouched :=
    with_current_fit_obj (with_done_param_verbose self false) None in
  (args <> [] -> [] ∉ map atleast_1d args ->
   run_fits self args pass_results verbose get_errors = Returned untouched) /\
  (single_fit_sites args [] = Ok sites ->
   run_single_fit self args verbose verbose_graphics get_errors
   = Returned untouched).
Proof.
  intros Hrange Hcount untouched. split.
  - intros Hargs Hcand. unfold run_fits. rewrite Hrange.
    cbn [on_result negb].
    rewrite decide_False
      by (rewrite length_map; destruct args; [contradiction|simpl; lia]).
    rewrite recursive_call_product. unfold fit_each.
    pose proof (product_nonempty _ Hcand) as Hne.
    pose proof (product_lengths (map atleast_1d args)) as Hlens.
    destruct (product (map atleast_1d args)) as [|c cs]; [contradiction|].
    cbn [for_each app]. unfold _single_fit.
    rewrite decide_True; [reflexivity|].
    rewrite (Hlens c) by (now left). rewrite length_map. exact Hcount.
  - intros Hconv. unfold run_single_fit. rewrite Hrange, Hconv.
    cbn [on_result negb]. unfold _single_fit.
    rewrite decide_True; [reflexivity|].
    apply single_fit_sites_length in Hconv. simpl in *. lia.
Qed.

(** X18. [run_fits] without any argument fails its assertion; with a candidate
    list that is empty it returns without fitting anything, whatever the other
    lists hold. *)
Theorem run_fits_without_candidates (self : manager) (args : list site_arg)
    (pass_results : bool) (verbose : Z) (get_errors : bool) :
  is_datapattern_inrange self = Ok true ->
  (args = [] ->
   run_fits self args pass_results verbose get_errors
   = Raised AssertionError (with_done_param_verbose self false)) /\
  ([] ∈ map atleast_1d args ->
   run_fits self args pass_results verbose get_errors
   = Returned (with_done_param_verbose self false)).
Proof.
  intros Hrange. unfold run_fits. rewrite Hrange. cbn [on_result negb].
  split.
  - intros ->. reflexivity.
  - intros Hin. rewrite decide_False.
    + rewrite recursive_call_product, (product_empty _ Hin). reflexivity.
    + destruct (map atleast_1d args); [inversion Hin|simpl; lia].
Qed.

(** ** What the entry points raise and leave *)

Lemma single_fit_sites_raises (args : list site_arg) :
  forall (sites : list Z) (e : exn),
    single_fit_sites args sites = Raise e -> e = ValueError.
Proof.
  induction args as [|a args IH]; intros sites e Hconv; [discriminate|].
  simpl in Hconv. destruct a as [n|[|n [|m l]]];
    try (now inversion Hconv); eapply IH; eassumption.
Qed.

Lemma fit_each_handle (get_errors pass_results : bool) (verbose : Z)
    (sites : list Z) (combos : list (list Z)) :
  forall self self' : manager,
    fit_each get_errors pass_results verbose sites combos self
      = Returned self' ->
    current_fit_obj self = None -> current_fit_obj self' = None.
Proof.
  unfold fit_each.
  induction combos as [|combo combos IH]; intros self self' Hrun Hnone;
    simpl in Hrun.
  - now inversion Hrun; subst.
  - destruct (_single_fit self (sites ++ combo) get_errors pass_results
                          verbose false) as [s1|e s1] eqn:Hfit;
      [|discriminate].
    apply single_fit_returned in Hfit as (_ & _ & _ & _ & _ & Hs1 & _).
    eapply IH; eassumption.
Qed.

(** X19. The entry points raise before any fit or not at all. [run_single_fit]
    raises only what the range check raises, or ValueError for an argument
    that is a sequence of another length than one; [run_fits] raises only what
    the range check raises, ValueError for a pattern out of range, or
    AssertionError when it has no argument. An exception of the fit itself
    never leaves them, and when they return the current-fit handle is None
    (for [run_fits], if it was None before). *)
Theorem entry_points_raise_only_before_fitting (self : manager)
    (args : list site_arg) (pass_results : bool) (verbose : Z)
    (verbose_graphics get_errors : bool) :
  let single :=
    run_single_fit self args verbose verbose_graphics get_errors in
  let sweep := run_fits self args pass_results verbose get_errors in
  (forall e, exception_of single = Some e ->
     is_datapattern_inrange self = Raise e \/
     (e = ValueError /\ single_fit_sites args [] = Raise ValueError)) /\
  (forall e, exception_of sweep = Some e ->
     is_datapattern_inrange self = Raise e \/
     (e = ValueError /\ is_datapattern_inrange self = Ok false) \/
     (e = AssertionError /\ args = [])) /\
  (exception_of single = None -> current_fit_obj (manager_of single) = None) /\
  (exception_of sweep = None -> current_fit_obj self = None ->
   current_fit_obj (manager_of sweep) = None).
Proof.
  intros single sweep. subst single sweep.
  unfold run_single_fit, run_fits.
  destruct (is_datapattern_inrange self) as [inrange|e0]; cbn [on_result].
  2:{ repeat split; try discriminate;
        intros e He; inversion He; now left. }
  split; [|split; [|split]].
  - intros e He.
    destruct (single_fit_sites args []) as [sites|e1] eqn:Hconv;
      cbn [on_result] in He.
    + destruct (_single_fit _ sites get_errors false verbose
                            verbose_graphics); discriminate.
    + inversion He; subst e1. right.
      pose proof (single_fit_sites_raises _ _ _ Hconv) as ->. now split.
  - intros e He. destruct inrange; cbn [negb] in He.
    + destruct (decide (length (map atleast_1d args) < 1)%nat) as [Hlen|].
      * inversion He; subst e. right. right. split; [reflexivity|].
        destruct args; [reflexivity|simpl in Hlen; lia].
      * destruct (recursive_call _ _ _ _ _ _); discriminate.
    + inversion He; subst e. right. left. now split.
  - intros He.
    destruct (single_fit_sites args []) as [sites|e1]; cbn [on_result] in *;
      [|discriminate He].
    clear He.
    destruct (_single_fit _ sites get_errors false verbose verbose_graphics)
      as [s1|e1 s1] eqn:Hfit; [|reflexivity].
    now apply single_fit_returned in Hfit as (_ & _ & _ & _ & _ & Hs1 & _).
  - intros He Hnone. destruct inrange; cbn [negb] in *; [|discriminate].
    destruct (decide (length (map atleast_1d args) < 1)%nat);
      [discriminate|].
    rewrite recursive_call_product.
    destruct (fit_each get_errors pass_results verbose []
                (product (map atleast_1d args)) _) as [s1|e1 s1] eqn:Hrun;
      [|reflexivity].
    apply fit_each_handle in Hrun; assumption.
Qed.

Lemma fit_each_settings (get_errors pass_results : bool) (verbose : Z)
    (sites : list Z) (combos : list (list Z)) :
  forall self : manager,
    same_settings self
      (manager_of (fit_each get_errors pass_results verbose sites combos
                            self)).
Proof.
  unfold fit_each.
  induction combos as [|combo combos IH]; intros self; simpl.
  - apply same_settings_refl.
  - destruct (_single_fit self (sites ++ combo) get_errors pass_results
                          verbose false) as [s1|e s1] eqn:Hfit.
    + apply single_fit_returned in Hfit as (_ & _ & _ & _ & _ & _ & _ & _ & Hs).
      eapply same_settings_trans; [exact Hs | apply IH].
    + now apply single_fit_raised in Hfit as (_ & _ & _ & _ & Hs).
Qed.

(** The configuration of a manager: what the setters and the constructor
    decide. *)
Definition same_configuration (self self' : manager) : Prop :=
  _n_sites self' = _n_sites self /\
  _sub_pixels self' = _sub_pixels self /\
  _cost_function self' = _cost_function self /\
  _fit_options self' = _fit_options self /\
  parameter_keys self' = parameter_keys self /\
  _scale self' = _scale self /\
  _bounds self' = _bounds self /\
  p_initial_values self' = p_initial_values self /\
  p_fixed_values self' = p_fixed_values self /\
  dp_pattern self' = dp_pattern self /\
  lib self' = lib self.

Lemma same_settings_configuration (self self' : manager) :
  same_settings self self' -> same_configuration self self'.
Proof.
  unfold same_settings, same_configuration. intros Hs.
  destruct Hs as (?&?&?&?&?&?&?&?&?&?&?&?). repeat split; assumption.
Qed.

(** X20. Fitting never changes the configuration: however [run_fits] or
    [run_single_fit] ends, the number of sites, the cost function, the
    options, the parameter keys, the step modifiers, the bounds, the initial
    and fixed values, the data pattern and the library are the ones of before
    the call. *)
Theorem fitting_keeps_the_configuration (self : manager)
    (args : list site_arg) (pass_results : bool) (verbose : Z)
    (verbose_graphics get_errors : bool) :
  same_configuration self
    (manager_of (run_fits self args pass_results verbose get_errors)) /\
  same_configuration self
    (manager_of (run_single_fit self args verbose verbose_graphics
                                get_errors)).
Proof.
  unfold run_fits, run_single_fit.
  destruct (is_datapattern_inrange self) as [inrange|e0]; cbn [on_result].
  2:{ split; repeat split. }
  split.
  - destruct inrange; cbn [negb]; [|repeat split].
    destruct (decide _); [repeat split|].
    rewrite recursive_call_product.
    pose proof (fit_each_settings get_errors pass_results verbose []
                  (product (map atleast_1d args))
                  (with_done_param_verbose self false)) as Hs.
    apply same_settings_configuration in Hs.
    destruct (fit_each _ _ _ _ _ _) as [s1|e1 s1]; exact Hs.
  - destruct (single_fit_sites args []) as [sites|e1]; cbn [on_result].
    2:{ destruct inrange; repeat split. }
    destruct (_single_fit _ sites get_errors false verbose verbose_graphics)
      as [s1|e1 s1] eqn:Hfit.
    + apply single_fit_returned in Hfit as (_ & _ & _ & _ & _ & _ & _ & _ & Hs).
      apply same_settings_configuration in Hs.
      destruct inrange; exact Hs.
    + apply single_fit_raised in Hfit as (_ & _ & _ & _ & Hs).
      apply same_settings_configuration in Hs.
      destruct inrange; exact Hs.
Qed.

(** ** Step modifiers of a fit *)

(** The entry of the scale tuple for a key: the stored step modifier,
    changed by [for_total_cts] when the key is total_cts. *)
Definition scale_entry (self : manager) (for_total_cts : num -> num)
    (k : string) : num :=
  let sk := default n0 (_scale self !! k) in
  if decide (k = "total_cts") then for_total_cts sk else sk.

Lemma scale_values_loop_spec (self : manager) :
  forall (keys : list string) (acc : list num),
    (forall k, k ∈ keys -> is_Some (_scale self !! k)) ->
    scale_values_loop self keys acc
    = match _cost_function self with
      | ml => Ok (acc ++ map (scale_entry self (fun _ => nneg n1)) keys)
      | chi2 =>
          if decide ("total_cts" ∈ keys) then
            dp ← require AttributeError (dp_pattern self);
            m ← dp_counts_ordofmag dp;
            Ok (acc ++ map (scale_entry self (nmul m)) keys)
          else Ok (acc ++ map (scale_entry self (fun sk => sk)) keys)
      end.
Proof.
  induction keys as [|k keys IH]; intros acc Hscale.
  - simpl. rewrite app_nil_r. destruct (_cost_function self); reflexivity.
  - assert (Hk : is_Some (_scale self !! k)) by (apply Hscale; now left).
    destruct Hk as [sk Hsk].
    assert (Hrest : forall k', k' ∈ keys -> is_Some (_scale self !! k'))
      by (intros k' Hk'; apply Hscale; now right).
    cbn [scale_values_loop map]. unfold scale_entry at 1 3 5.
    rewrite Hsk. cbn [default require mbind result_bind].
    destruct (decide (k = "total_cts")) as [->|Hne].
    + destruct (_cost_function self) eqn:Hcost.
      * rewrite decide_True by (now left).
        destruct (dp_pattern self) as [dp|] eqn:Hdp;
          cbn [require mbind result_bind]; [|reflexivity].
        destruct (dp_counts_ordofmag dp) as [m|e] eqn:Hm;
          cbn [mbind result_bind]; [|reflexivity].
        rewrite (IH _ Hrest), ?Hcost, ?Hdp. cbn [require mbind result_bind].
        rewrite ?Hm. cbn [mbind result_bind]. rewrite <- app_assoc.
        destruct (decide ("total_cts" ∈ keys)); [reflexivity|].
        rewrite <- ?app_assoc. cbn [app]. do 3 f_equal.
        apply map_ext_in. intros k' Hk'.
        unfold scale_entry.
        destruct (decide (k' = "total_cts")) as [->|]; [|reflexivity].
        now apply list_elem_of_In in Hk'.
      * cbn [mbind result_bind].
        rewrite (IH _ Hrest), ?Hcost, <- !app_assoc. reflexivity.
    + cbn [mbind result_bind]. rewrite (IH _ Hrest).
      destruct (_cost_function self); [|now rewrite <- app_assoc].
      destruct (decide ("total_cts" ∈ keys)) as [Hin|Hnin].
      * rewrite decide_True by (now right).
        destruct (dp_pattern self) as [dp|];
          cbn [require mbind result_bind]; [|reflexivity].
        destruct (dp_counts_ordofmag dp) as [m|e];
          cbn [mbind result_bind]; [|reflexivity].
        now rewrite <- app_assoc.
      * rewrite decide_False; [now rewrite <- app_assoc|].
        intros Hin. apply elem_of_cons in Hin as [Heq|Hin];
          [congruence|contradiction].
Qed.

(** X21. The scale tuple of a fit has one entry per parameter key, the stored
    step modifier of the key, except for total_cts: with the likelihood its
    entry is -1 whatever was stored, with the chi-square it is the stored
    modifier times the order of magnitude of the counts, so that only there
    the data pattern is read (and its absence raises). *)
Theorem scale_values_by_cost_function (self : manager) :
  (forall k, k ∈ parameter_keys self -> is_Some (_scale self !! k)) ->
  _get_scale_values self
  = match _cost_function self with
    | ml => Ok (map (scale_entry self (fun _ => nneg n1))
                    (parameter_keys self))
    | chi2 =>
        if decide ("total_cts" ∈ parameter_keys self) then
          dp ← require AttributeError (dp_pattern self);
          m ← dp_counts_ordofmag dp;
          Ok (map (scale_entry self (nmul m)) (parameter_keys self))
        else Ok (map (scale_entry self (fun sk => sk)) (parameter_keys self))
    end.
Proof.
  intros Hscale. unfold _get_scale_values.
  rewrite scale_values_loop_spec by exact Hscale. reflexivity.
Qed.

(** ** Passing on a result vector that is too short *)

Lemma pass_last_results_short (fixed : gmap string num) (x : list num) :
  forall (keys : list string) (i : nat) (m : gmap string num),
    (length x - i < length (seeded_keys fixed keys))%nat ->
    pass_last_results keys fixed x i m = Raise IndexError.
Proof.
  unfold seeded_keys, user_fixed.
  induction keys as [|k keys IH]; intros i m Hshort.
  - simpl in Hshort. lia.
  - simpl. destruct (fixed !! k) as [v|] eqn:Hk.
    + rewrite filter_cons_False in Hshort by (rewrite Hk; discriminate).
      apply IH. exact Hshort.
    + rewrite filter_cons_True in Hshort by (now rewrite Hk).
      simpl in Hshort. unfold index.
      destruct (x !! i) as [xi|] eqn:Hxi; [|reflexivity].
      apply lookup_lt_Some in Hxi. cbn [mbind result_bind].
      apply IH. lia.
Qed.

(** X22. With [pass_results], a successful last fit whose result vector has
    fewer entries than there are parameters the user did not fix makes
    [_get_initial_values] raise IndexError, and with it [_single_fit] for
    the next combination, which leaves the manager as it was. *)
Theorem short_previous_result_raises (self : manager) (ft : Fit)
    (dp : DataPattern) (sites : list Z) (get_errors : bool) (verbose : Z)
    (verbose_graphics : bool) :
  last_fit self = Some ft ->
  res_success (Fit_results ft) = true ->
  (length (res_x (Fit_results ft))
   < length (seeded_keys (p_fixed_values self) (parameter_keys self)))%nat ->
  _get_initial_values self true = Raise IndexError /\
  (dp_pattern self = Some dp -> length sites = _n_sites self ->
   _single_fit self sites get_errors true verbose verbose_graphics
   = Raised IndexError self).
Proof.
  intros Hlast Hsucc Hshort.
  assert (Hinit : _get_initial_values self true = Raise IndexError).
  { unfold _get_initial_values. rewrite Hlast, Hsucc. cbn [andb].
    rewrite pass_last_results_short by lia. reflexivity. }
  split; [exact Hinit|].
  intros Hdp Hlen. unfold _single_fit.
  rewrite decide_False by (intros Hne; contradiction).
  rewrite Hdp. unfold _build_fits_obj. rewrite Hdp, Hinit. reflexivity.
Qed.

(** ** What a fit object is built from *)

Lemma dict_of_tuple_spec {A : Type} (t : list A) :
  forall (keys : list string) (i : nat) (d : gmap string A),
    NoDup keys -> (i + length keys <= length t)%nat ->
    exists d' : gmap string A,
      dict_of_tuple keys i t d = Ok d' /\
      (forall j k, keys !! j = Some k -> d' !! k = t !! (i + j)%nat) /\
      (forall k, k ∉ keys -> d' !! k = d !! k).
Proof.
  induction keys as [|k keys IH]; intros i d Hnd Hlen.
  - exists d. repeat split. intros j k Hj. discriminate.
  - apply NoDup_cons in Hnd as [Hk Hnd]. simpl in Hlen.
    destruct (lookup_lt_is_Some_2 t i) as [v Hv]; [lia|].
    destruct (IH (S i) (<[k := v]> d) Hnd) as (d' & Hrun & Hin & Hout);
      [lia|].
    exists d'. split; [|split].
    + simpl. rewrite (FitsTheory.index_Some _ _ _ Hv). exact Hrun.
    + intros [|j] k' Hj.
      * simpl in Hj. inversion Hj; subst k'.
        rewrite (Hout k Hk), lookup_insert_eq, Nat.add_0_r. now rewrite Hv.
      * simpl in Hj. rewrite (Hin j k' Hj). f_equal. lia.
    + intros k' Hk'. rewrite Hout by (intros Hin'; apply Hk'; now right).
      apply lookup_insert_ne. intros ->. apply Hk'. now left.
Qed.

Lemma bound_dict_of_spec (self : manager) :
  forall (keys : list string) (d : gmap string bound),
    (forall k, k ∈ keys -> is_Some (_bounds self !! k)) ->
    exists d' : gmap string bound,
      bound_dict_of self keys d = Ok d' /\
      (forall k, k ∈ keys -> d' !! k = _bounds self !! k) /\
      (forall k, k ∉ keys -> d' !! k = d !! k).
Proof.
  induction keys as [|k keys IH]; intros d Hb.
  - exists d. repeat split. intros k Hk. inversion Hk.
  - destruct (Hb k) as [b Hk]; [now left|].
    destruct (IH (<[k := b]> d)) as (d' & Hrun & Hin & Hout).
    { intros k' Hk'. apply Hb. now right. }
    exists d'. split; [|split].
    + simpl. rewrite Hk. exact Hrun.
    + intros k' Hk'. destruct (decide (k' ∈ keys)) as [Hin'|Hnin].
      * now apply Hin.
      * apply elem_of_cons in Hk' as [->|Hk']; [|contradiction].
        rewrite (Hout k Hnin), lookup_insert_eq. now rewrite Hk.
    + intros k' Hk'. rewrite Hout by (intros Hin'; apply Hk'; now right).
      apply lookup_insert_ne. intros ->. apply Hk'. now left.
Qed.

Lemma scale_values_loop_length (self : manager) :
  forall (keys : list string) (acc scale : list num),
    scale_values_loop self keys acc = Ok scale ->
    length scale = (length acc + length keys)%nat.
Proof.
  induction keys as [|k keys IH]; intros acc scale Hrun; simpl in Hrun.
  - inversion Hrun; subst. simpl. lia.
  - destruct (if decide (k = "total_cts") then _ else _) as [s|e];
      [|discriminate].
    cbn [mbind result_bind] in Hrun. apply IH in Hrun.
    rewrite length_app in Hrun. simpl in *. lia.
Qed.

(** X23. The fit object is configured key by key: for each parameter key, its
    step modifier, initial value and fixed flag are the entries of the three
    tuples at the position of the key, its bounds are the stored bounds, and
    nothing is set for any other key. *)
Theorem fit_object_gets_each_parameter (self : manager) (sites : list Z)
    (verbose_graphics pass_results : bool) (dp : DataPattern)
    (p0 scale : list num) (p_fix : list bool) :
  dp_pattern self = Some dp ->
  parameter_keys self = compute_parameter_keys (_n_sites self) ->
  (forall k, k ∈ parameter_keys self -> is_Some (_bounds self !! k)) ->
  _get_initial_values self pass_results = Ok (p0, p_fix) ->
  _get_scale_values self = Ok scale ->
  exists (scale_dict init_dict : gmap string num)
         (fix_dict : gmap string bool) (bound_dict : gmap string bound),
    _build_fits_obj self sites verbose_graphics pass_results
    = Fit_build (lib self) sites verbose_graphics (_sub_pixels self)
                (_fit_options self) dp scale_dict init_dict fix_dict
                bound_dict /\
    (forall i k, parameter_keys self !! i = Some k ->
       scale_dict !! k = scale !! i /\ is_Some (scale !! i) /\
       init_dict !! k = p0 !! i /\ is_Some (p0 !! i) /\
       fix_dict !! k = p_fix !! i /\ is_Some (p_fix !! i) /\
       bound_dict !! k = _bounds self !! k) /\
    (forall k, k ∉ parameter_keys self ->
       scale_dict !! k = None /\ init_dict !! k = None /\
       fix_dict !! k = None /\ bound_dict !! k = None).
Proof.
  intros Hdp Hkeys Hb Hinit Hscale.
  pose proof (NoDup_compute_parameter_keys (_n_sites self)) as Hnd.
  assert (Hls : length scale = length (compute_parameter_keys (_n_sites self))).
  { unfold _get_scale_values in Hscale.
    apply scale_values_loop_length in Hscale. rewrite Hkeys in Hscale.
    simpl in Hscale. exact Hscale. }
  destruct (get_initial_values_inv _ _ _ _ Hinit)
    as (init & vfs & Hvfs & Hp0 & Hpf).
  apply Forall2_length in Hvfs.
  assert (Hl0 : length p0 = length (compute_parameter_keys (_n_sites self)))
    by (subst p0; now rewrite length_map).
  assert (Hlf : length p_fix
                = length (compute_parameter_keys (_n_sites self)))
    by (subst p_fix; now rewrite length_map).
  clear Hp0 Hpf.
  destruct (dict_of_tuple_spec scale _ 0 ∅ Hnd)
    as (sd & Hsd & Hsd_in & Hsd_out); [lia|].
  destruct (dict_of_tuple_spec p0 _ 0 ∅ Hnd)
    as (id & Hid & Hid_in & Hid_out); [lia|].
  destruct (dict_of_tuple_spec p_fix _ 0 ∅ Hnd)
    as (fd & Hfd & Hfd_in & Hfd_out); [lia|].
  destruct (bound_dict_of_spec self
              (compute_parameter_keys (_n_sites self)) ∅)
    as (bd & Hbd & Hbd_in & Hbd_out).
  { intros k Hk. apply Hb. now rewrite Hkeys. }
  exists sd, id, fd, bd. split; [|split].
  - unfold _build_fits_obj. rewrite Hdp, Hinit, Hscale.
    cbn [require mbind result_bind]. rewrite Hsd, Hid, Hfd, Hbd.
    reflexivity.
  - rewrite Hkeys. intros i k Hi.
    pose proof (lookup_lt_Some _ _ _ Hi) as Hlt.
    rewrite (Hsd_in i k Hi), (Hid_in i k Hi), (Hfd_in i k Hi).
    rewrite (Hbd_in k (list_elem_of_lookup_2 _ _ _ Hi)). simpl.
    repeat split; apply lookup_lt_is_Some_2; lia.
  - rewrite Hkeys. intros k Hk.
    rewrite (Hsd_out k Hk), (Hid_out k Hk), (Hfd_out k Hk), (Hbd_out k Hk).
    repeat split; apply lookup_empty.
Qed.

(** ** The constructor and the defaults *)

(** A manager is well formed when its parameter keys are the ones of its
    number of sites and every key has a step modifier and bounds. *)
Definition well_formed (self : manager) : Prop :=
  parameter_keys self = compute_parameter_keys (_n_sites self) /\
  forall k, k ∈ parameter_keys self ->
    is_Some (_scale self !! k) /\ is_Some (_bounds self !! k).

Lemma fraction_table_lookup {A : Type} (x : A) (k : string) :
  forall (l : list nat) (d : gmap string A),
    foldl (fun d i => <[fraction_key i := x]> d) d l !! k
    = if decide (k ∈ map fraction_key l) then Some x else d !! k.
Proof.
  induction l as [|i l IH]; intros d.
  - cbn [foldl map].
    destruct (decide (k ∈ [])) as [Hin|]; [inversion Hin|reflexivity].
  - cbn [foldl map]. rewrite IH.
    destruct (decide (k ∈ map fraction_key l)) as [Hin|Hnin].
    + rewrite decide_True by (now right). reflexivity.
    + destruct (decide (fraction_key i = k)) as [<-|Hne].
      * rewrite decide_True by (now left). apply lookup_insert_eq.
      * rewrite decide_False.
        -- now apply lookup_insert_ne.
        -- intros Hin. apply elem_of_cons in Hin as [Heq|Hin];
             [congruence|contradiction].
Qed.

Lemma join_fraction_defaults_lookup {A : Type} (defaults : gmap string A)
    (n_sites : nat) (fraction : A) :
  defaults !! "f_px" = Some fraction ->
  exists table : gmap string A,
    join_fraction_defaults defaults n_sites = Ok table /\
    forall k,
      table !! k
      = if decide (k ∈ map fraction_key (seq 0 n_sites)) then Some fraction
        else if decide (k = "f_px") then None else defaults !! k.
Proof.
  intros Hpx. unfold join_fraction_defaults. rewrite Hpx.
  eexists. split; [reflexivity|]. intros k.
  rewrite lookup_union, fraction_table_lookup, lookup_empty.
  destruct (decide (k ∈ map fraction_key (seq 0 n_sites))).
  { destruct (delete "f_px" defaults !! k); reflexivity. }
  rewrite (left_id None _). rewrite lookup_delete.
  destruct (decide ("f_px" = k)) as [<-|Hne].
  - now rewrite decide_True.
  - rewrite decide_False by congruence. reflexivity.
Qed.

Lemma overwrite_with_lookup {A : Type} (user : gmap string A) (k : string) :
  forall (keys : list string) (d : gmap string A),
    overwrite_with keys user d !! k
    = if decide (k ∈ keys)
      then match user !! k with Some v => Some v | None => d !! k end
      else d !! k.
Proof.
  unfold overwrite_with.
  induction keys as [|a keys IH]; intros d.
  - cbn [foldl].
    destruct (decide (k ∈ [])) as [Hin|]; [inversion Hin|reflexivity].
  - cbn [foldl]. rewrite IH.
    destruct (decide (a = k)) as [->|Hne].
    + rewrite (decide_True (P := k ∈ k :: keys)) by (now left).
      destruct (user !! k) as [v|] eqn:Hu.
      * rewrite lookup_insert_eq. now destruct (decide (k ∈ keys)).
      * now destruct (decide (k ∈ keys)).
    + assert (Hsame : (match user !! a with
                       | Some v => <[a := v]> d
                       | None => d
                       end) !! k = d !! k).
      { destruct (user !! a); [now apply lookup_insert_ne|reflexivity]. }
      rewrite Hsame.
      destruct (decide (k ∈ keys)) as [Hin|Hnin].
      * rewrite decide_True by (now right). reflexivity.
      * rewrite decide_False; [reflexivity|].
        intros Hin. apply elem_of_cons in Hin as [Heq|Hin];
          [congruence|contradiction].
Qed.

Section Defaults.
Variable default_scale : gmap string num.
Variable default_bounds : gmap string bound.
Variable default_profiles_fit_options
  : gmap string (gmap string minimization_options).
Variable no_options : minimization_options.
Variable options_len : minimization_options -> nat.
Hypothesis no_options_len : options_len no_options = 0%nat.

Lemma profile_is_accepted (profile : string) :
  profile ∈ ["coarse"; "default"; "fine"; "custom"] ->
  forall (A : Type) (a b : A),
    (if decide (profile ∉ ["coarse"; "default"; "fine"; "custom"])
     then a else b) = b.
Proof. intros Hin A a b. rewrite decide_False; [reflexivity|]. tauto. Qed.

Lemma default_settings (self : fitmanager) :
  set_minimization_settings no_options options_len self "default" "L-BFGS-B"
                            None
  = let self' := mk_fitmanager (attributes self) "default" "L-BFGS-B"
                   (_profiles_fit_options self) in
    match _profiles_fit_options self !! "default" with
    | None => (self', Some KeyError)
    | Some by_cost =>
        match by_cost !! cost_function_name
                           (_cost_function (attributes self)) with
        | None => (self', Some KeyError)
        | Some o =>
            (mk_fitmanager (with_fit_options (attributes self) o) "default"
               "L-BFGS-B" (_profiles_fit_options self), None)
        end
    end.
Proof.
  unfold set_minimization_settings.
  rewrite profile_is_accepted by (rewrite !elem_of_cons; tauto).
  cbn [default from_option id]. rewrite no_options_len.
  rewrite (decide_False (P := (0 < 0)%nat)) by lia.
  rewrite (decide_True (P := "L-BFGS-B" = "L-BFGS-B")) by reflexivity.
  reflexivity.
Qed.

(** X24. The constructor accepts the cost functions 'chi2' and 'ml' only. The
    manager it returns is well formed: its parameter keys are the ones of its
    number of sites, each with a step modifier and bounds, each fraction with
    the defaults of 'f_px'. It holds no user value, no fit and no data
    pattern, and its options are those of the 'default' profile for its cost
    function. *)
Theorem constructor_establishes_invariants (cost_function : string)
    (n_sites sub_pixels : nat) (obj : fitmanager) :
  (forall k, k ∈ ["dx"; "dy"; "phi"; "total_cts"; "sigma"] ->
             is_Some (default_scale !! k) /\ is_Some (default_bounds !! k)) ->
  __init__ default_scale default_bounds default_profiles_fit_options
           no_options options_len cost_function n_sites sub_pixels = Ok obj ->
  let a := attributes obj in
  well_formed a /\
  _n_sites a = n_sites /\ _sub_pixels a = sub_pixels /\
  cost_function_name (_cost_function a) = cost_function /\
  (forall i, (i < n_sites)%nat ->
     _scale a !! fraction_key i = default_scale !! "f_px" /\
     _bounds a !! fraction_key i = default_bounds !! "f_px") /\
  p_initial_values a = ∅ /\ p_fixed_values a = ∅ /\
  min_value a = None /\ best_fit a = None /\ last_fit a = None /\
  current_fit_obj a = None /\ dp_pattern a = None /\ lib a = None /\
  df_horizontal a = [] /\ df_vertical a = [] /\
  _fit_options_profile obj = "default" /\
  _minimization_method obj = "L-BFGS-B" /\
  exists by_cost : gmap string minimization_options,
    default_profiles_fit_options !! "default" = Some by_cost /\
    by_cost !! cost_function = Some (_fit_options a).
Proof.
  intros Hbase Hinit. unfold __init__ in Hinit.
  destruct (cost_function_of cost_function) as [c|] eqn:Hcf;
    [|discriminate].
  assert (Hname : cost_function_name c = cost_function).
  { unfold cost_function_of in Hcf.
    repeat (destruct (decide _) as [->|] in Hcf); inversion Hcf;
      reflexivity. }
  cbn [require mbind result_bind] in Hinit.
  rewrite default_settings in Hinit.
  cbn [attributes _profiles_fit_options _cost_function] in Hinit.
  rewrite Hname in Hinit.
  destruct (default_profiles_fit_options !! "default") as [by_cost|] eqn:Hp;
    [|discriminate].
  destruct (by_cost !! cost_function) as [o|] eqn:Ho; [|discriminate].
  destruct (default_scale !! "f_px") as [fs|] eqn:Hfs.
  2:{ unfold join_fraction_defaults in Hinit. rewrite Hfs in Hinit.
      discriminate. }
  destruct (join_fraction_defaults_lookup default_scale n_sites fs Hfs)
    as (scale & Hscale & Hscale_at).
  rewrite Hscale in Hinit. cbn [mbind result_bind] in Hinit.
  destruct (default_bounds !! "f_px") as [fb|] eqn:Hfb.
  2:{ unfold join_fraction_defaults in Hinit. rewrite Hfb in Hinit.
      discriminate. }
  destruct (join_fraction_defaults_lookup default_bounds n_sites fb Hfb)
    as (bounds & Hbounds & Hbounds_at).
  rewrite Hbounds in Hinit. cbn [mbind result_bind] in Hinit.
  inversion Hinit; subst obj. clear Hinit. intros a. subst a.
  cbn [attributes with_fit_options _n_sites _sub_pixels _cost_function
       _scale _bounds p_initial_values p_fixed_values min_value best_fit
       last_fit current_fit_obj dp_pattern lib df_horizontal df_vertical
       _fit_options_profile _minimization_method _fit_options
       parameter_keys done_param_verbose warned].
  assert (Hfraction : forall i, (i < n_sites)%nat ->
            fraction_key i ∈ map fraction_key (seq 0 n_sites)).
  { intros i Hi. apply list_elem_of_fmap. exists i. split; [reflexivity|].
    apply elem_of_seq. lia. }
  split; [split; [reflexivity|]|].
  - cbn [parameter_keys _scale _bounds]. intros k Hk.
    rewrite Hscale_at, Hbounds_at.
    destruct (decide (k ∈ map fraction_key (seq 0 n_sites))) as [|Hnf].
    { split; eexists; reflexivity. }
    unfold compute_parameter_keys in Hk.
    apply elem_of_app in Hk as [Hk|Hk]; [|contradiction].
    assert (Hpx : k <> "f_px").
    { intros ->. rewrite !elem_of_cons in Hk.
      destruct Hk as [Hk|[Hk|[Hk|[Hk|[Hk|Hk]]]]]; try discriminate Hk.
      inversion Hk. }
    rewrite !(decide_False (P := k = "f_px")) by exact Hpx.
    now apply Hbase.
  - repeat split; try reflexivity; try exact Hname.
    + rewrite Hscale_at. now rewrite decide_True by (apply Hfraction; lia).
    + rewrite Hbounds_at. now rewrite decide_True by (apply Hfraction; lia).
    + exists by_cost. now split.
Qed.

(** X25. The profile name 'custom' passes the validation of
    [set_minimization_settings], but the table of profiles a manager is
    constructed with has no such entry: asked for 'custom' without options, a
    new manager raises KeyError, after it has stored the method and the
    profile name and before it touches the options. With options the call
    succeeds for any accepted profile: the options are stored and the profile
    becomes 'custom'. *)
Theorem custom_profile_needs_options (cost_function : string)
    (n_sites sub_pixels : nat) (obj : fitmanager) (profile min_method : string)
    (options : minimization_options) :
  default_profiles_fit_options !! "custom" = None ->
  __init__ default_scale default_bounds default_profiles_fit_options
           no_options options_len cost_function n_sites sub_pixels = Ok obj ->
  set_minimization_settings no_options options_len obj "custom" "L-BFGS-B"
                            None
  = (mk_fitmanager (attributes obj) "custom" "L-BFGS-B"
                   (_profiles_fit_options obj), Some KeyError) /\
  (profile ∈ ["coarse"; "default"; "fine"; "custom"] ->
   (0 < options_len options)%nat ->
   set_minimization_settings no_options options_len obj profile min_method
                             (Some options)
   = (mk_fitmanager (with_fit_options (attributes obj) options) "custom"
                    min_method (_profiles_fit_options obj), None)).
Proof.
  intros Hcustom Hinit.
  assert (Htable : _profiles_fit_options obj = default_profiles_fit_options).
  { unfold __init__ in Hinit.
    destruct (cost_function_of cost_function); [|discriminate].
    cbn [require mbind result_bind] in Hinit.
    rewrite default_settings in Hinit.
    cbn [attributes _profiles_fit_options] in Hinit.
    destruct (default_profiles_fit_options !! "default") as [by_cost|];
      [|discriminate].
    destruct (by_cost !! _) as [o|]; [|discriminate].
    destruct (join_fraction_defaults default_scale n_sites);
      cbn [mbind result_bind] in Hinit; [|discriminate].
    destruct (join_fraction_defaults default_bounds n_sites);
      cbn [mbind result_bind] in Hinit; [|discriminate].
    now inversion Hinit. }
  split.
  - unfold set_minimization_settings.
    rewrite profile_is_accepted by (rewrite !elem_of_cons; tauto).
    cbn [default from_option id]. rewrite no_options_len.
    rewrite (decide_False (P := (0 < 0)%nat)) by lia.
    rewrite (decide_True (P := "L-BFGS-B" = "L-BFGS-B")) by reflexivity.
    cbn [_profiles_fit_options]. rewrite Htable, Hcustom. reflexivity.
  - intros Hprofile Hlen. unfold set_minimization_settings.
    rewrite profile_is_accepted by exact Hprofile.
    cbn [default from_option id].
    rewrite decide_True by exact Hlen. reflexivity.
Qed.

(** X26. [compute_step_modifier]: every parameter key has a step modifier, the
    one of the user when there is one, otherwise the default of the key (of
    'f_px' for a fraction); a user entry for a key that is not a parameter key
    is ignored, and 'f_px' itself is not in the result. *)
Theorem step_modifier_lookup (n_sites : nat)
    (p_scale : option (gmap string num)) (fraction : num) :
  default_scale !! "f_px" = Some fraction ->
  exists scale : gmap string num,
    compute_step_modifier default_scale n_sites p_scale = Ok scale /\
    forall k,
      scale !! k
      = let by_default :=
          if decide (k ∈ map fraction_key (seq 0 n_sites)) then Some fraction
          else if decide (k = "f_px") then None else default_scale !! k in
        if decide (k ∈ compute_parameter_keys n_sites)
        then match default ∅ p_scale !! k with
             | Some v => Some v
             | None => by_default
             end
        else by_default.
Proof.
  intros Hpx. unfold compute_step_modifier.
  destruct (join_fraction_defaults_lookup default_scale n_sites fraction Hpx)
    as (table & -> & Htable).
  eexists. split; [reflexivity|]. intros k.
  rewrite overwrite_with_lookup, Htable. reflexivity.
Qed.

End Defaults.

Section Bounds.
Variable default_bounds : gmap string bound.
Variable mesh_corners : DataPattern -> bound * bound.

(** X27. [compute_bounds]: the bounds of the user win; without them dx and dy
    are bounded by the corners of the mesh when a data pattern is given;
    otherwise the default of the key applies (of 'f_px' for a fraction). *)
Theorem bounds_lookup (datapattern : option DataPattern) (n_sites : nat)
    (p_bounds : option (gmap string bound)) (fraction : bound) :
  default_bounds !! "f_px" = Some fraction ->
  exists bounds : gmap string bound,
    compute_bounds default_bounds mesh_corners datapattern n_sites p_bounds
      = Ok bounds /\
    forall k,
      bounds !! k
      = let by_default :=
          if decide (k ∈ map fraction_key (seq 0 n_sites)) then Some fraction
          else if decide (k = "f_px") then None else default_bounds !! k in
        let by_pattern :=
          match datapattern with
          | Some dp =>
              if decide (k = "dy") then Some (snd (mesh_corners dp))
              else if decide (k = "dx") then Some (fst (mesh_corners dp))
              else by_default
          | None => by_default
          end in
        if decide (k ∈ compute_parameter_keys n_sites)
        then match default ∅ p_bounds !! k with
             | Some v => Some v
             | None => by_pattern
             end
        else by_pattern.
Proof.
  intros Hpx. unfold compute_bounds.
  destruct (join_fraction_defaults_lookup default_bounds n_sites fraction Hpx)
    as (table & -> & Htable).
  eexists. split; [reflexivity|]. intros k.
  cbn [mbind result_bind]. rewrite overwrite_with_lookup.
  assert (Hpattern :
    match datapattern with
    | Some dp => <["dy" := snd (mesh_corners dp)]>
                   (<["dx" := fst (mesh_corners dp)]> table)
    | None => table
    end !! k
    = match datapattern with
      | Some dp =>
          if decide (k = "dy") then Some (snd (mesh_corners dp))
          else if decide (k = "dx") then Some (fst (mesh_corners dp))
          else table !! k
      | None => table !! k
      end).
  { destruct datapattern as [dp|]; [|reflexivity].
    rewrite !lookup_insert.
    destruct (decide ("dy" = k)) as [<-|Hy].
    { now rewrite decide_True. }
    rewrite (decide_False (P := k = "dy")) by congruence.
    destruct (decide ("dx" = k)) as [<-|Hx].
    { now rewrite decide_True. }
    rewrite (decide_False (P := k = "dx")) by congruence. reflexivity. }
  rewrite Hpattern, Htable. reflexivity.
Qed.

End Bounds.

(** ** The setters keep a manager well formed *)

Lemma for_each_invariant {A : Type} (I : manager -> Prop)
    (body : A -> manager -> outcome) :
  (forall x s, I s -> I (manager_of (body x s))) ->
  forall (xs : list A) (self : manager),
    I self -> I (manager_of (for_each xs body self)).
Proof.
  intros Hbody xs.
  induction xs as [|x xs IH]; intros self Hself; [exact Hself|].
  simpl. specialize (Hbody x self Hself).
  destruct (body x self) as [s1|e s1]; [now apply IH | exact Hbody].
Qed.

(** X28. Whatever a setter is given and however it ends, it leaves a well
    formed manager well formed: the parameter keys are never changed and no
    step modifier or bound is ever removed. *)
Theorem setters_keep_well_formed (self : manager)
    (values : list (string * num))
    (tuples : list (string * list (option num))) :
  well_formed self ->
  well_formed (manager_of (set_initial_values self values)) /\
  well_formed (manager_of (set_fixed_values self values)) /\
  well_formed (manager_of (set_step_modifier self values)) /\
  well_formed (manager_of (set_bounds self tuples)).
Proof.
  intros Hwf.
  unfold set_initial_values, set_fixed_values, set_step_modifier, set_bounds.
  split; [|split; [|split]]; (apply for_each_invariant; [|exact Hwf]);
    intros [k v] s [Hkeys Hs]; cbn [fst snd];
    (destruct (decide (k ∈ parameter_keys s)); [|now split]).
  - now split.
  - now split.
  - split; [exact Hkeys|]. intros k' Hk'. cbn [manager_of] in *.
    destruct (Hs k' Hk') as [Hsc Hb]. split; [|exact Hb].
    cbn [_scale with_scale]. apply lookup_insert_is_Some.
    destruct (decide (k = k')); [now left | now right].
  - destruct v as [|lo [|hi [|x v]]]; try (now split).
    split; [exact Hkeys|]. intros k' Hk'. cbn [manager_of] in *.
    destruct (Hs k' Hk') as [Hsc Hb]. split; [exact Hsc|].
    cbn [_bounds with_bounds]. apply lookup_insert_is_Some.
    destruct (decide (k = k')); [now left | now right].
Qed.

(** ** Normalization of a simulated pattern *)

(** X29. For the pattern types the manager works with ('chi2', 'data', 'ml')
    the normalization factor is a number whenever the call returns; the call
    raises, with ValueError, exactly for a normalization that is none of None,
    'counts', 'yield', 'probability', and for 'yield' without a fit object.
    Without normalization the factor is one. *)
Theorem normalization_factor_cases
    (sim_total_yield : manager -> Fit -> result num) (self : manager)
    (dp : DataPattern) (normalization : option string)
    (pattern_type : string) (fit_obj : option Fit) :
  dp_pattern self = Some dp ->
  pattern_type ∈ ["chi2"; "data"; "ml"] ->
  (forall ft, fit_obj = Some ft -> exists y, sim_total_yield self ft = Ok y) ->
  let accepted :=
    [None; Some "counts"; Some "yield"; Some "probability"] in
  match _get_sim_normalization_factor sim_total_yield self normalization
          pattern_type fit_obj with
  | Ok factor =>
      is_Some factor /\ normalization ∈ accepted /\
      (normalization = Some "yield" -> is_Some fit_obj) /\
      (normalization = None -> factor = Some n1)
  | Raise e =>
      e = ValueError /\
      (normalization ∉ accepted \/
       (normalization = Some "yield" /\ fit_obj = None))
  end.
Proof.
  intros Hdp Htype Hyield accepted. subst accepted.
  unfold _get_sim_normalization_factor. rewrite Hdp.
  cbn [require mbind result_bind].
  assert (Hty : exists total_yield : option num,
            match fit_obj with
            | Some ft => y ← sim_total_yield self ft; Ok (Some y)
            | None => Ok None
            end = Ok total_yield /\
            (total_yield = None <-> fit_obj = None)).
  { destruct fit_obj as [ft|].
    - destruct (Hyield ft eq_refl) as (y & ->). exists (Some y).
      split; [reflexivity|]. split; discriminate.
    - exists None. now split. }
  destruct Hty as (total_yield & -> & Hnone). cbn [mbind result_bind].
  assert (Hsome : forall a b : num,
            is_Some (if decide (pattern_type = "chi2" \/ pattern_type = "data")
                     then Some a
                     else if decide (pattern_type = "ml") then Some b
                     else None)).
  { intros a b. rewrite !elem_of_cons in Htype.
    destruct (decide (pattern_type = "chi2" \/ pattern_type = "data"));
      [now eexists|].
    destruct (decide (pattern_type = "ml")); [now eexists|].
    exfalso. destruct Htype as [?|[?|[?|Hin]]]; try tauto. inversion Hin. }
  destruct normalization as [name|].
  2:{ repeat split; try discriminate; [now eexists|].
      rewrite !elem_of_cons. tauto. }
  destruct (decide (name = "counts")) as [->|Hc].
  { repeat split; try discriminate; [apply Hsome|].
    rewrite !elem_of_cons. tauto. }
  destruct (decide (name = "yield")) as [->|Hy].
  { destruct total_yield as [y|]; cbn [require mbind result_bind].
    - repeat split; try discriminate; [apply Hsome| |].
      + rewrite !elem_of_cons. tauto.
      + intros _. destruct fit_obj; [now eexists|].
        discriminate (proj2 Hnone eq_refl).
    - split; [reflexivity|]. right. split; [reflexivity|]. now apply Hnone. }
  destruct (decide (name = "probability")) as [->|Hp].
  { repeat split; try discriminate; [apply Hsome|].
    rewrite !elem_of_cons. tauto. }
  split; [reflexivity|]. left. rewrite !elem_of_cons.
  intros [Hn|[Hn|[Hn|[Hn|Hn]]]]; try (inversion Hn; congruence).
Qed.


End Theory.
End FitManagerExtra.

(** * The further properties on the toy registry *)

Module FitsExtraExamples.
Import Fits FitsTheory FitsExtra Concrete.
#[local] Open Scope Q_scope.
#[local] Existing Instance xq_numeric.
#[local] Existing Instance toy_engine.

(** One coordinate for the two free parameters dx and f_p1. *)
Lemma short_vector_witness :
  (length [qz 1] < length (free_keys toy_fits))%nat /\
  chi_square_call toy_fits [qz 1] true = Raise IndexError /\
  log_likelihood_call toy_fits [qz 1] true = Raise IndexError.
Proof.
  split; [vm_compute; lia|].
  apply (short_vector_raises toy_fits [qz 1] true). vm_compute. lia.
Defined.

Lemma extra_coordinates_witness :
  chi_square_call toy_fits ([qz 1; qz 4] ++ [qz 7]) true
    = chi_square_call toy_fits [qz 1; qz 4] true /\
  log_likelihood_call toy_fits ([qz 1; qz 4] ++ [qz 7]) true
    = log_likelihood_call toy_fits [qz 1; qz 4] true.
Proof.
  exact (extra_coordinates_ignored toy_fits [qz 1; qz 4] [qz 7] true eq_refl).
Defined.

Lemma evaluations_witness :
  exists (s : fits) (r : OptimizeResult),
    run_search (fun s0 x => if false
                            then log_likelihood_call s0 x true
                            else chi_square_call s0 x true) toy_fits
      (op_minimize (_get_p0 toy_fits) (free_bounds toy_fits)
                   (_chi2_fit_options toy_fits))
      = Ok (s, r) /\
    (s = toy_fits \/ exists sim : pattern, s = with_sim_pattern toy_fits sim).
Proof.
  eexists _, _. split; [reflexivity|].
  eapply (evaluations_only_touch_sim_pattern false true
            (op_minimize (_get_p0 toy_fits) (free_bounds toy_fits)
                         (_chi2_fit_options toy_fits))
            toy_fits).
  reflexivity.
Defined.

Lemma start_vector_witness :
  chi_square_call toy_fits (_get_p0 toy_fits) true
    = chi_square toy_fits (qz 1) (qz 3) (qz 5) (qz 100)
        (select_fractions toy_fits (Some (1 # 4)) (Some (1 # 4))
                          (Some (1 # 4)))
        (qz 0) /\
  log_likelihood_call toy_fits (_get_p0 toy_fits) true
    = log_likelihood toy_fits (qz 1) (qz 3) (qz 5)
        (select_fractions toy_fits (Some (1 # 4)) (Some (1 # 4))
                          (Some (1 # 4)))
        (qz 0).
Proof.
  apply (start_vector_round_trip toy_fits).
  intros k _. destruct k; vm_compute; reflexivity.
Defined.

Lemma use_flag_witness :
  use (parameters_dict toy_fits dy) = negb true /\
  length (_get_p0 (with_parameters_dict toy_fits
                     (set_use (parameters_dict toy_fits) dy true)))
  = S (length (_get_p0 toy_fits)).
Proof.
  split; [reflexivity|].
  pose proof (use_flag_and_vector_length toy_fits dy true eq_refl)
    as (_ & _ & Hlen).
  rewrite decide_True in Hlen
    by (unfold _parameters_order; rewrite !elem_of_cons; tauto).
  lia.
Defined.


(** An integer start vector is refused before the cost name is looked at,
    also when the name is a known one. *)
Example integer_vector_is_refused :
  get_variance_from_hessian toy_fits (Ints 2 [3%Z]) true "chi2"
  = Raise TypeError /\
  get_variance_from_hessian toy_fits (Ints 2 [3%Z]) true "chi_square"
  = Raise TypeError.
Proof. split; reflexivity. Qed.

Lemma masked_cell_witness :
  pearson_chi2 ([Some (qz 70)] ++ None :: [Some (qz 20)])
               ([Some (qz 60)] ++ Some (qz 5) :: [Some (qz 40)])
  = pearson_chi2 ([Some (qz 70)] ++ [Some (qz 20)])
                 ([Some (qz 60)] ++ [Some (qz 40)]).
Proof.
  apply (masked_cell_is_skipped
           ([Some (qz 70)] : @pattern xq_numeric)
           ([Some (qz 20)] : @pattern xq_numeric)
           ([Some (qz 60)] : @pattern xq_numeric)
           ([Some (qz 40)] : @pattern xq_numeric)
           None (Some (qz 5)));
    [reflexivity | now left].
Defined.

(** The result of a call that returns. *)
Definition is_ok {A : Type} (r : result A) : bool :=
  match r with Ok _ => true | Raise _ => false end.
Definition result_or {A : Type} (d : A) (r : result A) : A :=
  match r with Ok a => a | Raise _ => d end.

Lemma ok_result_or {A : Type} (d : A) (r : result A) :
  is_ok r = true -> r = Ok (result_or d r).
Proof. destruct r; [reflexivity|discriminate]. Qed.

#[local] Abbreviation after_chi2 :=
  (result_or toy_fits (run_driver Chi2 toy_fits)).

Lemma results_witness :
  let cfg := configured Chi2 toy_fits in
  exists (self1 s : fits) (res r : OptimizeResult),
    make_generator cfg = Ok self1 /\
    run_search (cost_of Chi2) self1
      (op_minimize (_get_p0 cfg) (free_bounds cfg) (options_of Chi2 self1))
      = Ok (s, res) /\
    results after_chi2 = Some r /\
    res_fun r = res_fun res /\ res_success r = res_success res /\
    res_jac r = res_jac res /\ length (res_x r) = length (res_x res) /\
    (length (free_keys cfg) <= length (res_x res))%nat /\
    forall k, k ∈ free_keys cfg ->
      exists xi : num,
        res_x res !! reduced_index cfg k = Some xi /\
        res_x r !! reduced_index cfg k
          = Some (nmul xi (scale (parameters_dict cfg k))) /\
        value (parameters_dict after_chi2 k) = res_x r !! reduced_index cfg k.
Proof.
  apply (results_hold_physical_values Chi2 toy_fits).
  apply ok_result_or. vm_compute. reflexivity.
Defined.

(** total_cts is free in this registry; after the likelihood driver and
    then the chi-square driver it is fixed at its configured value. *)
#[local] Abbreviation after_likelihood :=
  (result_or toy_fits_counts (maximize_likelyhood toy_fits_counts)).
#[local] Abbreviation after_both :=
  (result_or toy_fits_counts (run_driver Chi2 after_likelihood)).

Lemma likelihood_then_chi2_witness :
  use (parameters_dict toy_fits_counts total_cts) = true /\
  use (parameters_dict after_likelihood total_cts) = false /\
  (total_cts ∉ free_keys (configured Chi2 after_likelihood)) /\
  use (parameters_dict after_both total_cts) = false /\
  value (parameters_dict after_both total_cts)
    = Some (p0 (parameters_dict toy_fits_counts total_cts)).
Proof.
  split; [reflexivity|].
  apply (likelihood_leaves_total_cts_fixed Chi2 toy_fits_counts);
    apply ok_result_or; vm_compute; reflexivity.
Defined.

End FitsExtraExamples.

(** * The further properties on the toy manager *)

Module FitManagerExtraExamples.
Import FitManager FitManagerTheory FitManagerExtra Concrete.
#[local] Existing Instance xq_numeric.
#[local] Existing Instance toy_fit_engine.
#[local] Open Scope Z_scope.

#[local] Abbreviation toy_one := (toy_manager 1 (qz 0, qz 0)).
#[local] Abbreviation toy_two := (toy_manager 2 (qz 0, qz 0)).

Lemma toy_one_keys :
  parameter_keys toy_one = ["dx"; "dy"; "phi"; "total_cts"; "sigma"; "f_p1"].
Proof. vm_compute. reflexivity. Qed.

(** Settles a property of every parameter key of the one-site manager by
    evaluating it key by key. *)
Ltac each_key Hkeys :=
  let k := fresh "k" in
  let Hk := fresh "Hk" in
  intros k Hk; rewrite ?Hkeys in Hk; rewrite !elem_of_cons in Hk;
  repeat (destruct Hk as [->|Hk];
          [vm_compute; repeat split; eexists; reflexivity|]);
  inversion Hk.

Lemma toy_one_well_formed : well_formed toy_one.
Proof. split; [reflexivity|]. each_key toy_one_keys. Qed.

(** 'dz' is no parameter key: dx and sigma are stored, dy is not reached. *)
Lemma setters_witness :
  set_fixed_values toy_one
    ([("dx", qz 1); ("sigma", qz 2)] ++ ("dz", qz 9) :: [("dy", qz 3)])
  = Raised ValueError
      (with_p_fixed_values toy_one
         (stored [("dx", qz 1); ("sigma", qz 2)] (p_fixed_values toy_one))) /\
  set_initial_values toy_one
    ([("dx", qz 1); ("sigma", qz 2)] ++ ("dz", qz 9) :: [("dy", qz 3)])
  = Raised TypeError
      (with_p_initial_values toy_one
         (stored [("dx", qz 1); ("sigma", qz 2)] (p_initial_values toy_one))).
Proof.
  assert (Hpre : Forall (fun kv : string * num =>
                           fst kv ∈ parameter_keys toy_one)
                        [("dx", qz 1); ("sigma", qz 2)]).
  { rewrite toy_one_keys.
    repeat constructor; cbn [fst]; rewrite !elem_of_cons; tauto. }
  assert (Hbad : "dz" ∉ parameter_keys toy_one).
  { rewrite toy_one_keys, !elem_of_cons.
    intros [Hk|[Hk|[Hk|[Hk|[Hk|[Hk|Hk]]]]]]; try discriminate Hk.
    inversion Hk. }
  pose proof (setters_store_until_unknown_key toy_one
                [("dx", qz 1); ("sigma", qz 2)] [("dy", qz 3)] "dz" (qz 9)
                Hpre Hbad) as ((_ & Hinit) & (_ & Hfixed) & _).
  split; [exact Hfixed | exact Hinit].
Defined.

(** A tuple of one entry for dy, after a pair for dx. *)
Lemma set_bounds_witness :
  set_bounds toy_one
    (map (fun kv : string * bound => (fst kv, [fst (snd kv); snd (snd kv)]))
         [("dx", (Some (qz (-1)), Some (qz 1)))]
     ++ ("dy", [Some (qz 0)]) :: [])
  = Raised ValueError
      (with_bounds toy_one
         (stored [("dx", (Some (qz (-1)), Some (qz 1)))] (_bounds toy_one))).
Proof.
  refine (proj2 (set_bounds_checks_each_tuple toy_one
                   [("dx", (Some (qz (-1)), Some (qz 1)))] "dy" [Some (qz 0)]
                   [] _ _)).
  - rewrite toy_one_keys.
    repeat constructor; cbn [fst]; rewrite !elem_of_cons; tauto.
  - right. discriminate.
Defined.

(** phi fixed at 7: its entry of the initial values, whatever else. *)
#[local] Abbreviation toy_phi_fixed :=
  (manager_of (set_fixed_values toy_one [("phi", qz 7)])).

Lemma fixed_value_witness :
  ([qz 0; qz 0; qz 7; qz 1000; Some (1 # 10)%Q; Some (3 # 20)%Q] : list xq)
    !! 2%nat = Some (qz 7) /\
  [false; false; true; true; true; false] !! 2%nat = Some true.
Proof.
  apply (fixed_value_overrides toy_one toy_phi_fixed "phi" (qz 7) false
           [qz 0; qz 0; qz 7; qz 1000; Some (1 # 10)%Q; Some (3 # 20)%Q]
           [false; false; true; true; true; false] 2).
  - apply returned_manager_of. vm_compute. reflexivity.
  - vm_compute. reflexivity.
  - vm_compute. reflexivity.
Defined.

Lemma in_range_witness :
  is_datapattern_inrange toy_one
  = Ok (bool_decide
          (range_sim_mask (lib toy_one) (toy_pattern (qz 0, qz 0))
                          (_sub_pixels toy_one) (qz 0) (qz 0) (qz 0)
           = dp_mask (toy_pattern (qz 0, qz 0)))).
Proof.
  apply (in_range_iff_masks_agree toy_one (toy_pattern (qz 0, qz 0))
           (qz 0) (qz 0) (qz 0) [qz 1000; Some (1 # 10)%Q; Some (3 # 20)%Q]
           [false; false; false; true; true; false]).
  - reflexivity.
  - vm_compute. reflexivity.
  - vm_compute. reflexivity.
Defined.

(** One index for a manager of two sites. *)
Lemma site_count_witness :
  run_fits toy_two [Scalar 3] false 0 false
  = Returned (with_current_fit_obj (with_done_param_verbose toy_two false)
                                   None) /\
  run_single_fit toy_two [Scalar 3] 0 false false
  = Returned (with_current_fit_obj (with_done_param_verbose toy_two false)
                                   None).
Proof.
  assert (Hrange : is_datapattern_inrange toy_two = Ok true)
    by (vm_compute; reflexivity).
  assert (Hcount : length [Scalar 3] <> _n_sites toy_two) by discriminate.
  pose proof (site_count_error_is_swallowed toy_two [Scalar 3] [3]
                false 0 false false Hrange Hcount) as (Hsweep & Hsingle).
  split.
  - apply Hsweep; [discriminate|].
    cbn [map atleast_1d]. rewrite list_elem_of_singleton. discriminate.
  - apply Hsingle. reflexivity.
Defined.

Lemma no_candidates_witness :
  run_fits toy_one [] false 0 false
  = Raised AssertionError (with_done_param_verbose toy_one false) /\
  run_fits toy_two [Sequence [1; 2]; Sequence []] false 0 false
  = Returned (with_done_param_verbose toy_two false).
Proof.
  split.
  - apply (run_fits_without_candidates toy_one [] false 0 false);
      [vm_compute|]; reflexivity.
  - apply (run_fits_without_candidates toy_two
             [Sequence [1; 2]; Sequence []] false 0 false).
    + vm_compute. reflexivity.
    + cbn [map atleast_1d]. rewrite !elem_of_cons. tauto.
Defined.

(** The pattern holds 1000 counts: the step of total_cts is 1000 times the
    stored 1/100. *)
Lemma scale_values_witness :
  _get_scale_values toy_one
  = (dp ← require AttributeError (dp_pattern toy_one);
     m ← dp_counts_ordofmag dp;
     Ok (map (scale_entry toy_one (nmul m)) (parameter_keys toy_one))).
Proof.
  pose proof (scale_values_by_cost_function toy_one) as Hscale.
  cbn [_cost_function toy_manager] in Hscale.
  rewrite decide_True in Hscale
    by (rewrite toy_one_keys, !elem_of_cons; tauto).
  apply Hscale. intros k Hk.
  now destruct (proj2 toy_one_well_formed k Hk).
Defined.

(** After the fit of site 3 the result vector holds dx, dy, phi and the
    fraction, four entries for six keys that the user did not fix. *)
#[local] Abbreviation toy_fitted :=
  (manager_of (run_fits toy_one [Scalar 3] false 0 false)).
#[local] Abbreviation toy_fitted_last :=
  (default (mk_toy_fit [] ∅ ∅
              (@mk_OptimizeResult xq_numeric [] (@None Q) false []))
           (last_fit toy_fitted)).

Lemma short_previous_result_witness :
  (length (res_x (Fit_results toy_fitted_last)) = 4)%nat /\
  _get_initial_values toy_fitted true = Raise IndexError /\
  _single_fit toy_fitted [4] false true 0 false
  = Raised IndexError toy_fitted.
Proof.
  split; [vm_compute; reflexivity|].
  destruct (short_previous_result_raises toy_fitted toy_fitted_last
              (toy_pattern (qz 0, qz 0)) [4] false 0 false)
    as (Hinit & Hfit).
  - apply FitManagerExamples.last_fit_default. vm_compute. reflexivity.
  - vm_compute. reflexivity.
  - vm_compute. lia.
  - split; [exact Hinit|]. apply Hfit; vm_compute; reflexivity.
Defined.

Lemma fit_object_witness :
  exists (scale_dict init_dict : gmap string num)
         (fix_dict : gmap string bool) (bound_dict : gmap string bound),
    _build_fits_obj toy_one [3] false false
    = Fit_build (lib toy_one) [3] false (_sub_pixels toy_one)
                (_fit_options toy_one) (toy_pattern (qz 0, qz 0))
                scale_dict init_dict fix_dict bound_dict /\
    scale_dict !! "total_cts" = Some (qz 10) /\
    init_dict !! "total_cts" = Some (qz 1000) /\
    fix_dict !! "total_cts" = Some true /\
    scale_dict !! "f_px" = None.
Proof.
  destruct (fit_object_gets_each_parameter toy_one [3] false false
              (toy_pattern (qz 0, qz 0))
              [qz 0; qz 0; qz 0; qz 1000; Some (1 # 10)%Q; Some (3 # 20)%Q]
              [Some (1 # 100)%Q; Some (1 # 100)%Q; Some (1 # 100)%Q; qz 10;
               Some (1 # 100)%Q; Some (1 # 100)%Q]
              [false; false; false; true; true; false])
    as (sd & id & fd & bd & Hbuild & Hin & Hout).
  - reflexivity.
  - reflexivity.
  - intros k Hk. now destruct (proj2 toy_one_well_formed k Hk).
  - vm_compute. reflexivity.
  - vm_compute. reflexivity.
  - exists sd, id, fd, bd. split; [exact Hbuild|].
    destruct (Hin 3%nat "total_cts") as (Hs & _ & Hi & _ & Hf & _).
    { rewrite toy_one_keys. reflexivity. }
    destruct (Hout "f_px") as (Hpx & _).
    { rewrite toy_one_keys, !elem_of_cons.
      intros [Hk|[Hk|[Hk|[Hk|[Hk|[Hk|Hk]]]]]]; try discriminate Hk.
      inversion Hk. }
    repeat split; assumption.
Defined.

(** The class defaults of the source, with the toy options. *)
Definition toy_default_scale : gmap string (@num xq_numeric) :=
  list_to_map [("dx", Some (1 # 100)%Q); ("dy", Some (1 # 100)%Q);
               ("phi", Some (1 # 10)%Q); ("total_cts", Some (1 # 100)%Q);
               ("sigma", Some (1 # 1000)%Q); ("f_px", Some (1 # 100)%Q)].
Definition toy_default_bounds : gmap string (@bound xq_numeric) :=
  list_to_map [("dx", (Some (qz (-3)), Some (qz 3)));
               ("dy", (Some (qz (-3)), Some (qz 3)));
               ("phi", (None, None)); ("total_cts", (Some (qz 1), None));
               ("sigma", (Some (Some (1 # 100)%Q), None));
               ("f_px", (Some (qz 0), Some (qz 1)))].
Definition toy_profiles : gmap string (gmap string unit) :=
  list_to_map
    (map (fun name => (name, list_to_map [("ml", tt); ("chi2", tt)]))
         ["coarse"; "default"; "fine"]).

#[local] Abbreviation toy_new :=
  (__init__ toy_default_scale toy_default_bounds toy_profiles tt
            (fun _ => 0%nat) "ml" 2 1).
#[local] Abbreviation toy_new_object :=
  (FitsExtraExamples.result_or (mk_fitmanager toy_two "" "" ∅) toy_new).

Lemma toy_new_ok : toy_new = Ok toy_new_object.
Proof. apply FitsExtraExamples.ok_result_or. vm_compute. reflexivity. Qed.

Lemma constructor_witness :
  well_formed (attributes toy_new_object) /\
  _n_sites (attributes toy_new_object) = 2%nat /\
  _scale (attributes toy_new_object) !! fraction_key 1
    = toy_default_scale !! "f_px".
Proof.
  pose proof (constructor_establishes_invariants toy_default_scale
                toy_default_bounds toy_profiles tt (fun _ => 0%nat) eq_refl
                "ml" 2 1 toy_new_object) as Hnew.
  destruct Hnew as (Hwf & Hn & _ & _ & Hfr & _).
  - intros k Hk. rewrite !elem_of_cons in Hk.
    repeat (destruct Hk as [->|Hk];
            [vm_compute; split; eexists; reflexivity|]).
    inversion Hk.
  - exact toy_new_ok.
  - split; [exact Hwf|]. split; [exact Hn|].
    apply (Hfr 1%nat). lia.
Defined.

Lemma custom_profile_needs_options_witness :
  set_minimization_settings tt (fun _ => 0%nat) toy_new_object "custom"
                            "L-BFGS-B" None
  = (mk_fitmanager (attributes toy_new_object) "custom" "L-BFGS-B"
                   (_profiles_fit_options toy_new_object), Some KeyError).
Proof.
  refine (proj1 (custom_profile_needs_options toy_default_scale
                   toy_default_bounds toy_profiles tt (fun _ => 0%nat)
                   eq_refl "ml" 2 1 toy_new_object "custom" "L-BFGS-B" tt
                   _ toy_new_ok)).
  vm_compute. reflexivity.
Defined.

Lemma step_modifier_witness :
  exists scale : gmap string num,
    compute_step_modifier toy_default_scale 2
      (Some (<["dx" := qz 5]> (<["dz" := qz 6]> ∅))) = Ok scale /\
    scale !! "dx" = Some (qz 5) /\ scale !! "dz" = None /\
    scale !! "f_p2" = Some (Some (1 # 100)%Q) /\ scale !! "f_px" = None.
Proof.
  destruct (step_modifier_lookup toy_default_scale 2
              (Some (<["dx" := qz 5]> (<["dz" := qz 6]> ∅)))
              (Some (1 # 100)%Q)) as (scale & Hrun & Hat).
  - vm_compute. reflexivity.
  - exists scale. split; [exact Hrun|].
    rewrite !Hat. repeat split; vm_compute; reflexivity.
Defined.

Lemma bounds_witness :
  exists bounds : gmap string bound,
    compute_bounds (H0 := toy_fit_engine) toy_default_bounds
      (fun dp => ((Some (qz (-2)), Some (qz 2)), (Some (qz (-1)), Some (qz 1))))
      (Some (toy_pattern (qz 0, qz 0))) 1
      (Some (<["dy" := (None, None)]> ∅)) = Ok bounds /\
    bounds !! "dx" = Some (Some (qz (-2)), Some (qz 2)) /\
    bounds !! "dy" = Some (None, None) /\
    bounds !! "f_p1" = Some (Some (qz 0), Some (qz 1)).
Proof.
  destruct (bounds_lookup (H0 := toy_fit_engine) toy_default_bounds
              (fun dp => ((Some (qz (-2)), Some (qz 2)),
                          (Some (qz (-1)), Some (qz 1))))
              (Some (toy_pattern (qz 0, qz 0))) 1
              (Some (<["dy" := (None, None)]> ∅))
              (Some (qz 0), Some (qz 1))) as (bounds & Hrun & Hat).
  - vm_compute. reflexivity.
  - exists bounds. split; [exact Hrun|].
    rewrite !Hat. repeat split; vm_compute; reflexivity.
Defined.

Lemma well_formed_witness :
  well_formed (manager_of (set_step_modifier toy_one
                             [("phi", qz 2); ("dz", qz 1)])) /\
  well_formed (manager_of (set_bounds toy_one [("dx", [None])])).
Proof.
  destruct (setters_keep_well_formed toy_one [("phi", qz 2); ("dz", qz 1)]
              [("dx", [None])] toy_one_well_formed)
    as (_ & _ & Hstep & Hbounds).
  split; assumption.
Defined.

(** A simulated pattern of 500 events for every fit. *)
Definition toy_yield (self : manager) (ft : Fit) : result num :=
  Ok (qz 500).

Lemma normalization_witness :
  match _get_sim_normalization_factor toy_yield toy_one (Some "yield") "ml"
          (Some toy_fitted_last) with
  | Ok factor =>
      is_Some factor /\
      Some "yield" ∈ [None; Some "counts"; Some "yield"; Some "probability"] /\
      (Some "yield" = Some "yield" -> is_Some (Some toy_fitted_last)) /\
      (Some "yield" = None -> factor = Some n1)
  | Raise e =>
      e = ValueError /\
      (Some "yield" ∉ [None; Some "counts"; Some "yield"; Some "probability"]
       \/ (Some "yield" = Some "yield" /\ Some toy_fitted_last = None))
  end.
Proof.
  apply (normalization_factor_cases toy_yield toy_one
           (toy_pattern (qz 0, qz 0)) (Some "yield") "ml"
           (Some toy_fitted_last)).
  - reflexivity.
  - rewrite !elem_of_cons. tauto.
  - intros ft _. eexists. reflexivity.
Defined.

End FitManagerExtraExamples.
